(** * lurkcoin-core: a shallow embedding of the ledger engine

    The development follows the Go sources of the [lurkcoin] package:
    the [Currency] fixed-point scalar, user-name canonicalisation,
    transaction identifiers, the [Server] account with its guarded
    mutators, [Pay], and [DatabaseTransaction.GetServers] over the
    plaintext backend.

    Conventions.
    - A Go [string] is read through the runes that [for range] yields
      (an invalid byte reads as U+FFFD); every string operation the
      modelled code uses ([strings.Map], [strings.ToLower],
      [strings.Trim], [strings.Replace] of a space, a one-rune regexp
      class) acts on that reading.
    - [*big.Int] is [Z]; [*big.Float] is modelled in [BigFloat] with its
      precision, its three forms and round-to-nearest-even.
    - Pointers to [Server] objects are addresses in a heap, mutexes are
      left out: every function here runs on one goroutine.  A [go]
      statement records the spawned task in the world. *)

From Stdlib Require Import ZArith Lia List Bool Ascii String.
From stdpp Require Import base option list gmap.
Import ListNotations.

Local Open Scope Z_scope.

(** ** Go strings *)

Definition rune := Z.
Abbreviation gostring := (list rune).

(** An ASCII literal as a Go string. *)
Definition str (s : string) : list rune :=
  List.map (fun a => Z.of_nat (nat_of_ascii a)) (list_ascii_of_string s).

Definition len {A} (l : list A) : Z := Z.of_nat (length l).

Definition rune_eqb (a b : rune) : bool := Z.eqb a b.

Definition RuneError : rune := 65533.
Definition SPACE : rune := 32.

(** Outcome of a call that may return, panic, or wait for ever. *)
Inductive outcome (A : Type) : Type :=
| Ret (a : A)
| Panic (msg : string)
| Blocked.
Arguments Ret {A} a.
Arguments Panic {A} msg.
Arguments Blocked {A}.

(** ** math/big.Float, as far as the package uses it *)

Module BigFloat.

(** A [Float] carries its precision; a finite non-zero value is
    [m * 2^e] with [0 < m], the sign is kept apart as in Go.  Go's
    int32 exponent range is not modelled. *)
Inductive Float : Type :=
| FZero (prec : Z) (neg : bool)
| FFin (prec : Z) (neg : bool) (m e : Z)
| FInf (prec : Z) (neg : bool).

Definition Prec (x : Float) : Z :=
  match x with FZero p _ | FFin p _ _ _ | FInf p _ => p end.

Definition umax32 (a b : Z) : Z := Z.max a b.

(** [n/d * 2^(-e)] as a fraction of integers. *)
Definition scale2 (n d e : Z) : Z * Z :=
  if 0 <=? e then (n, d * 2 ^ e) else (n * 2 ^ (- e), d).

(** [floor (log2 (n/d))] for positive [n], [d]. *)
Definition ilog2_quot (n d : Z) : Z :=
  let k := Z.log2 n - Z.log2 d in
  let '(N, D) := scale2 n d k in
  if D <=? N then k else k - 1.

(** Round the positive rational [n/d] to [p] mantissa bits, to nearest,
    ties to even (Go's default mode [ToNearestEven]).  The result
    [(q, e)] stands for [q * 2^e] with [2^(p-1) <= q <= 2^p]. *)
Definition round_quot (p n d : Z) : Z * Z :=
  let e := ilog2_quot n d - (p - 1) in
  let '(N, D) := scale2 n d e in
  let q := N / D in
  let r := N mod D in
  let up := (D <? 2 * r) || ((2 * r =? D) && Z.odd q) in
  (if up then q + 1 else q, e).

Definition fin_round (p : Z) (neg : bool) (n d e : Z) : Float :=
  let '(q, e') := round_quot p n d in FFin p neg q (e' + e).

(** [big.NewFloat(x)] for an integral float64 [x]: precision 53. *)
Definition NewFloat (x : Z) : Float :=
  if x =? 0 then FZero 53 false else FFin 53 (x <? 0) (Z.abs x) 0.

(** [new(big.Float).SetInt(x)]: the precision becomes the larger of
    [x.BitLen()] and 64, so the value is exact. *)
Definition BitLen (x : Z) : Z :=
  if x =? 0 then 0 else Z.log2 (Z.abs x) + 1.

Definition SetInt (x : Z) : Float :=
  let p := umax32 (BitLen x) 64 in
  if x =? 0 then FZero p false else FFin p (x <? 0) (Z.abs x) 0.

(** [z.Quo(x, y)] into a receiver of precision [p]; [None] is the
    [ErrNaN] panic. *)
Definition QuoP (p : Z) (x y : Float) : option Float :=
  match x, y with
  | FFin _ nx mx ex, FFin _ ny my ey =>
      Some (fin_round p (xorb nx ny) mx my (ex - ey))
  | FZero _ _, FZero _ _ => None
  | FInf _ _, FInf _ _ => None
  | FZero _ nx, FFin _ ny _ _ | FZero _ nx, FInf _ ny
  | FFin _ nx _ _, FInf _ ny => Some (FZero p (xorb nx ny))
  | FFin _ nx _ _, FZero _ ny | FInf _ nx, FZero _ ny
  | FInf _ nx, FFin _ ny _ _ => Some (FInf p (xorb nx ny))
  end.

(** [new(big.Float).Quo(x, y)]: a fresh receiver takes the larger of
    the two precisions. *)
Definition Quo (x y : Float) : option Float :=
  QuoP (umax32 (Prec x) (Prec y)) x y.

(** [z.Mul(x, y)] into a receiver of precision [p]. *)
Definition MulP (p : Z) (x y : Float) : option Float :=
  match x, y with
  | FFin _ nx mx ex, FFin _ ny my ey =>
      Some (fin_round p (xorb nx ny) (mx * my) 1 (ex + ey))
  | FZero _ _, FInf _ _ => None
  | FInf _ _, FZero _ _ => None
  | FInf _ nx, FFin _ ny _ _ | FInf _ nx, FInf _ ny
  | FFin _ nx _ _, FInf _ ny => Some (FInf p (xorb nx ny))
  | FZero _ nx, FFin _ ny _ _ | FZero _ nx, FZero _ ny
  | FFin _ nx _ _, FZero _ ny => Some (FZero p (xorb nx ny))
  end.

Definition Mul (x y : Float) : option Float :=
  MulP (umax32 (Prec x) (Prec y)) x y.

(** [new(big.Float).Add(x, y)]. *)
Definition Add (x y : Float) : option Float :=
  let p := umax32 (Prec x) (Prec y) in
  match x, y with
  | FFin _ nx mx ex, FFin _ ny my ey =>
      let e := Z.min ex ey in
      let sx := (if nx then -1 else 1) * mx * 2 ^ (ex - e) in
      let sy := (if ny then -1 else 1) * my * 2 ^ (ey - e) in
      let s := sx + sy in
      if s =? 0 then Some (FZero p false)
      else Some (fin_round p (s <? 0) (Z.abs s) 1 e)
  | FInf _ nx, FInf _ ny =>
      if Bool.eqb nx ny then Some (FInf p nx) else None
  | FZero _ nx, FZero _ ny => Some (FZero p (nx && ny))
  | FInf _ nx, _ => Some (FInf p nx)
  | FFin _ nx mx ex, FZero _ _ => Some (FFin p nx mx ex)
  | _, FInf _ ny => Some (FInf p ny)
  | FZero _ _, FFin _ ny my ey => Some (FFin p ny my ey)
  end.

(** [x.Int(z)]: truncation towards zero; for an infinity [z] is left
    as it was. *)
Definition Int (x : Float) (z : Z) : Z :=
  match x with
  | FZero _ _ => 0
  | FFin _ neg m e =>
      let a := if 0 <=? e then m * 2 ^ e else m / 2 ^ (- e) in
      if neg then - a else a
  | FInf _ _ => z
  end.

(** [z.SetUint64(x)] into a receiver of precision [p]. *)
Definition SetUint64 (p x : Z) : Float :=
  if x =? 0 then FZero p false else fin_round p false x 1 0.

(** [p.pow5(n)] of floatconv.go: [5^n] in the receiver [z]; a table
    up to [5^27], then square-and-multiply with a factor [f] that has
    64 more bits than [z]. *)
Fixpoint pow5_loop (n : positive) (z f : Float) : option Float :=
  match n with
  | xH => MulP (Prec z) z f
  | xO n' => f2 ← MulP (Prec f) f f; pow5_loop n' z f2
  | xI n' => z' ← MulP (Prec z) z f; f2 ← MulP (Prec f) f f; pow5_loop n' z' f2
  end.

Definition pow5 (p : Z) (n : Z) : option Float :=
  if n <=? 27 then Some (SetUint64 p (5 ^ n))
  else
    match n - 27 with
    | Zpos k => pow5_loop k (SetUint64 p (5 ^ 27)) (SetUint64 (p + 64) 5)
    | _ => None
    end.

(** The tail of [Float.scan] for a decimal mantissa [M] with [k]
    digits after the point and no exponent, read into a fresh float
    (precision 64): [M] rounded when there is no fraction, otherwise
    [M * 2^(-k)] divided by [pow5 k] held at precision 128. *)
Definition of_decimal (neg : bool) (M k : Z) : option Float :=
  if M =? 0 then Some (FZero 64 neg)
  else if k =? 0 then Some (fin_round 64 neg M 1 0)
  else
    p5 ← pow5 128 k;
    QuoP 64 (FFin 64 neg M (- k)) p5.

End BigFloat.

(** ** Currency (hundredths of a unit in a [*big.Int]) *)

(** [raw] is never nil in a [Currency] below; the nil state that
    [setString] tests on its receiver is [None] there. *)
Record Currency : Type := mkCurrency { raw : Z }.

Definition i0 : Z := 0.
Definition i10 : Z := 10.
Definition i100 : Z := 100.
Definition f100 : BigFloat.Float := BigFloat.NewFloat 100.
Definition f2 : BigFloat.Float := BigFloat.NewFloat 2.

Definition SYMBOL : rune := 164.

(** [big.Int.String]: decimal digits, most significant first.  The
    fuel is the bit length, which bounds the number of digits. *)
Fixpoint digits_fuel (fuel : nat) (n : Z) (acc : list rune) : list rune :=
  match fuel with
  | O => acc
  | S f =>
      let acc' := (48 + n mod 10) :: acc in
      if n <? 10 then acc' else digits_fuel f (n / 10) acc'
  end.

Definition Int_String (n : Z) : list rune :=
  if n <? 0 then 45 :: digits_fuel (S (Z.to_nat (Z.log2 (- n)))) (- n) []
  else digits_fuel (S (Z.to_nat (Z.log2 n))) n [].

(** [Currency.RawString].  The source panics when the remainder of the
    division by 100 is 100 or more, which [Z.modulo] rules out. *)
Definition RawString (self : Currency) : list rune :=
  let '(whole, frac, res) :=
    if 0 <=? raw self
    then (raw self / i100, raw self mod i100, Int_String (raw self / i100))
    else (Z.abs (raw self) / i100, Z.abs (raw self) mod i100,
          45 :: Int_String (Z.abs (raw self) / i100)) in
  let res := res ++ [46] in
  let res := if frac <? i10 then res ++ [48] else res in
  res ++ Int_String frac.

Definition Add (self num : Currency) : Currency := mkCurrency (raw self + raw num).
Definition Sub (self num : Currency) : Currency := mkCurrency (raw self - raw num).
Definition Neg (self : Currency) : Currency := mkCurrency (i0 - raw self).

Definition big_Cmp (x y : Z) : Z :=
  match x ?= y with Lt => -1 | Eq => 0 | Gt => 1 end.

Definition Cmp (self num : Currency) : Z := big_Cmp (raw self) (raw num).
Definition Eq (self num : Currency) : bool := Cmp self num =? 0.
Definition Gt (self num : Currency) : bool := Cmp self num =? 1.
Definition Lt (self num : Currency) : bool := Cmp self num =? -1.
Definition LtZero (self : Currency) : bool := big_Cmp (raw self) i0 =? -1.
Definition IsZero (self : Currency) : bool := big_Cmp (raw self) i0 =? 0.
Definition GtZero (self : Currency) : bool := big_Cmp (raw self) i0 =? 1.

(** In the functions below [None] is a panic raised inside math/big. *)
Definition Float (self : Currency) : option BigFloat.Float :=
  BigFloat.Quo (BigFloat.SetInt (raw self)) f100.

Definition Div (self num : Currency) : option BigFloat.Float :=
  x ← Float self; y ← Float num; BigFloat.Quo x y.

Definition CurrencyFromFloat (num : BigFloat.Float) : option Currency :=
  f ← BigFloat.Mul num f100;
  Some (mkCurrency (BigFloat.Int f 0)).

Definition CurrencyFromInt (num : Z) : Currency := mkCurrency num.

(** [num * 100] is an int64 product. *)
Definition wrap64 (x : Z) : Z := (x + 2 ^ 63) mod 2 ^ 64 - 2 ^ 63.

Definition CurrencyFromInt64 (num : Z) : Currency :=
  mkCurrency (wrap64 (num * 100)).

(** *** Reading a decimal string

    [big.Float.SetString] is modelled on plain decimal literals: an
    optional sign, digits with at most one point, at least one digit.
    On strings over the characters [0-9 . + -] the answer is Go's.
    Anything else (an exponent, a base prefix, a digit separator, the
    word Inf) is outside the model and reads as a failure here. *)

Definition is_digit (ch : rune) : bool := (48 <=? ch) && (ch <=? 57).

(** The digit loop of [nat.scan]: mantissa, digit count, position of the
    point. *)
Fixpoint scan_mantissa (s : list rune) (mant count : Z) (dp : option Z)
  : option (Z * Z * option Z) :=
  match s with
  | [] => Some (mant, count, dp)
  | ch :: s' =>
      if ch =? 46 then
        match dp with
        | None => scan_mantissa s' mant count (Some count)
        | Some _ => None
        end
      else if is_digit ch then scan_mantissa s' (mant * 10 + (ch - 48)) (count + 1) dp
      else None
  end.

(** The outer [option] is a panic, the inner one the success flag. *)
Definition Float_SetString (s : list rune) : option (option BigFloat.Float) :=
  match s with
  | [] => Some None
  | ch :: rest =>
      let '(neg, body) :=
        if ch =? 45 then (true, rest)
        else if ch =? 43 then (false, rest)
        else (false, s) in
      match scan_mantissa body 0 0 None with
      | Some (M, count, dp) =>
          if count =? 0 then Some None
          else
            let k := match dp with Some d => count - d | None => 0 end in
            f ← BigFloat.of_decimal neg M k; Some (Some f)
      | None => Some None
      end
  end.

Definition HasPrefix_SYMBOL (data : list rune) : bool :=
  match data with ch :: _ => ch =? SYMBOL | [] => false end.

(** [Currency.setString]: the receiver after the call and the
    returned flag.  [data[2:]] drops the two bytes of the symbol. *)
Definition setString (self : option Currency) (data : list rune)
  : option (option Currency * bool) :=
  match self with
  | Some _ => Some (self, false)
  | None =>
      let data := if HasPrefix_SYMBOL data then drop 1 data else data in
      r ← Float_SetString data;
      match r with
      | Some f =>
          g ← BigFloat.Mul f f100;
          Some (Some (mkCurrency (BigFloat.Int g 0)), true)
      | None => Some (None, false)
      end
  end.

(** [strings.ReplaceAll] of the underscore by the empty string. *)
Definition strip_underscores (num : list rune) : list rune :=
  List.filter (fun ch => negb (ch =? 95)) num.

Definition CurrencyFromString (num : list rune) : option Currency :=
  r ← setString None (strip_underscores num);
  match r with
  | (Some res, true) => Some res
  | _ => Some (mkCurrency i0)
  end.

(** [ParseCurrency]: the value and the error, if any. *)
Definition ParseCurrency (num : list rune) : option (Currency * option string) :=
  r ← setString None (strip_underscores num);
  match r with
  | (Some res, true) => Some (res, None)
  | _ => Some (mkCurrency i0, Some "ERR_INVALIDAMOUNT"%string)
  end.

(** What [setString] computes from a text that denotes [x] hundredths
    with two digits after the point: the 64-bit float nearest to
    [x/100], times 100, rounded again, truncated. *)
Definition through_float (x : Z) : option Z :=
  f ← BigFloat.of_decimal (x <? 0) (Z.abs x) 2;
  g ← BigFloat.Mul f f100;
  Some (BigFloat.Int g 0).

(** [Currency.MarshalJSON]: the raw string without one trailing zero. *)
Definition MarshalJSON (self : Currency) : list rune :=
  let res := RawString self in
  if List.last res 0 =? 48 then List.removelast res else res.

(** [Currency.UnmarshalJSON]: receiver after the call and the error.
    Indexing an empty slice, or slicing a lone quote, panics. *)
Definition UnmarshalJSON (self : option Currency) (data : list rune)
  : option (option Currency * option string) :=
  match data with
  | [] => None
  | d0 :: _ =>
      s ← (if (d0 =? 34) && (List.last data 0 =? 34) then
             if len data <? 2 then None
             else Some (List.removelast (drop 1 data))
           else Some data);
      match setString self s with
      | Some (self', true) => Some (self', None)
      | Some (self', false) => Some (self', Some "Invalid currency value."%string)
      | None => None
      end
  end.

(** *** Display strings *)

(** The loop of [Currency.String] from index [i] on: a comma before the
    byte at [i] when [l > i], [i > s] and [(l - i) % 3 == 0]. *)
Fixpoint comma_loop (rest : list rune) (i s l : Z) : list rune :=
  match rest with
  | [] => []
  | ch :: rest' =>
      (if (i <? l) && (s <? i) && ((l - i) mod 3 =? 0) then [44] else [])
        ++ ch :: comma_loop rest' (i + 1) s l
  end.

(** [Currency.String]; the raw string is never empty, so [raw[0]] is
    there. *)
Definition Currency_String (self : Currency) : list rune :=
  let raw := RawString self in
  let neg := match raw with ch :: _ => ch =? 45 | [] => false end in
  let s := if neg then 1 else 0 in
  (if neg then [45] else []) ++ [SYMBOL]
    ++ comma_loop (drop (Z.to_nat s) raw) s s (len raw - 3).

Definition DeltaString (self : Currency) : list rune :=
  let s := Currency_String self in
  if GtZero self then 43 :: s else s.

(** The number an upper-case hexadecimal text denotes. *)
Definition hex_value (ds : list rune) : Z :=
  fold_left (fun a d => a * 16 + (if d <? 58 then d - 48 else d - 55)) ds 0.

(** ** The ledger, over the tables of Go's [unicode] package *)

(** [unicode.To(LowerCase, r)] and membership in the graphic range
    tables, consulted above U+007F only.  The tables belong to Go's
    library; the ASCII cases are written out as Go has them. *)
Class UnicodeTables : Type := {
  toLowerTable : rune -> rune;
  isGraphicTable : rune -> bool
}.

Section Ledger.

Context `{UnicodeTables}.

Definition unicode_ToLower (r : rune) : rune :=
  if r <=? 127 then
    if (65 <=? r) && (r <=? 90) then r + 32 else r
  else toLowerTable r.

Definition unicode_IsGraphic (r : rune) : bool :=
  if r <=? 127 then (32 <=? r) && (r <=? 126) else isGraphicTable r.

(** *** User names *)

(** A rune outside the class of the regexp [invalid_uid]. *)
Definition uid_char (r : rune) : bool :=
  ((97 <=? r) && (r <=? 122)) || ((48 <=? r) && (r <=? 57)) || (r =? 95).

Definition HomogeniseUsername (username : list rune) : list rune :=
  let username := List.map unicode_ToLower username in
  let username := List.filter (fun r => negb (r =? SPACE)) username in
  List.map (fun r => if uid_char r then r else 95) username.

Fixpoint TrimLeft_space (s : list rune) : list rune :=
  match s with
  | r :: s' => if r =? SPACE then TrimLeft_space s' else s
  | [] => []
  end.

Definition Trim_space (s : list rune) : list rune :=
  rev (TrimLeft_space (rev (TrimLeft_space s))).

Definition PasteuriseUsername (username : list rune) : list rune * Z :=
  let trimmed := Trim_space username in
  (List.map (fun r => if unicode_IsGraphic r then r else RuneError) trimmed,
   len trimmed).

(** *** Transactions and their identifiers *)

Record Transaction : Type := mkTransaction {
  ID : list rune;
  Source : list rune;
  SourceServer : list rune;
  Target : list rune;
  TargetServer : list rune;
  Amount : Currency;
  SentAmount : Currency;
  ReceivedAmount : Currency;
  Time : Z;
  Revertable : bool
}.

(** The zero value [Transaction{}] that the slice code writes into a
    slot it overwrites or drops at once; its nil amounts read as 0. *)
Definition zeroTransaction : Transaction :=
  mkTransaction [] [] [] [] [] (mkCurrency 0) (mkCurrency 0) (mkCurrency 0) 0 false.

Definition set_Revertable (t : Transaction) (b : bool) : Transaction :=
  mkTransaction (ID t) (Source t) (SourceServer t) (Target t) (TargetServer t)
    (Amount t) (SentAmount t) (ReceivedAmount t) (Time t) b.

Definition hex_digit (d : Z) : rune := if d <? 10 then 48 + d else 55 + d.

Fixpoint hex_fuel (fuel : nat) (n : Z) (acc : list rune) : list rune :=
  match fuel with
  | O => acc
  | S f =>
      let acc' := hex_digit (n mod 16) :: acc in
      if n <? 16 then acc' else hex_fuel f (n / 16) acc'
  end.

(** [%X] of a signed integer. *)
Definition fmt_X (n : Z) : list rune :=
  if n <? 0 then 45 :: hex_fuel (S (Z.to_nat (Z.log2 (- n)))) (- n) []
  else hex_fuel (S (Z.to_nat (Z.log2 n))) n [].

(** [%08X] of an unsigned integer: zero padding up to eight digits. *)
Definition fmt_08X (n : Z) : list rune :=
  let d := fmt_X n in
  List.repeat 48 (8 - length d)%nat ++ d.

(** The package variables [lastTime] and [previouslyGenerated]; a nil
    map is [None]. *)
Record IdGen : Type := mkIdGen {
  lastTime : Z;
  previouslyGenerated : option (gset Z)
}.

Definition initIdGen : IdGen := mkIdGen (-1) None.

Definition Uint32 (d : Z) : Z := d mod 2 ^ 32.

Definition map_has (m : option (gset Z)) (id : Z) : bool :=
  match m with Some g => bool_decide (id ∈ g) | None => false end.

(** The loop [for exists { id = rand.Uint32(); ... }] over the draws
    the generator is going to deliver. *)
Fixpoint first_unseen (m : option (gset Z)) (draws : list Z) : option Z :=
  match draws with
  | [] => None
  | d :: draws' =>
      if map_has m (Uint32 d) then first_unseen m draws' else Some (Uint32 d)
  end.

(** [GenerateTransactionID], given the second [t] that [time.Now]
    reports (after the sleep, if any) and the coming draws of the
    generator.  [Blocked]: every draw supplied had been seen.  Nothing
    in the function assigns [lastTime]. *)
Definition GenerateTransactionID (g : IdGen) (t : Z) (draws : list Z)
  : IdGen * outcome (list rune * Z) :=
  let prev := if lastTime g <? t then Some ∅ else previouslyGenerated g in
  let g1 := mkIdGen (lastTime g) prev in
  match first_unseen prev draws with
  | None => (g1, Blocked)
  | Some id =>
      match prev with
      | None => (g1, Panic "assignment to entry in nil map")
      | Some m =>
          (mkIdGen (lastTime g) (Some ({[ id ]} ∪ m)),
           Ret (str "T" ++ fmt_X t ++ str "-" ++ fmt_08X id, t))
      end
  end.

Definition MakeTransaction (g : IdGen) (t : Z) (draws : list Z)
    (source sourceServer target targetServer : list rune)
    (amount sentAmount receivedAmount : Currency)
  : IdGen * outcome Transaction :=
  match GenerateTransactionID g t draws with
  | (g', Ret (id, time)) =>
      (g', Ret (mkTransaction id source sourceServer target targetServer
                  amount sentAmount receivedAmount time false))
  | (g', Panic msg) => (g', Panic msg)
  | (g', Blocked) => (g', Blocked)
  end.

(** *** Server accounts *)

Record Server : Type := mkServer {
  UID : list rune;
  Name : list rune;
  balance : Currency;
  targetBalance : Currency;
  history : list Transaction;
  pendingTransactions : list Transaction;
  token : list rune;
  WebhookURL : list rune;
  modified : bool
}.

Definition MaxTargetBalance : Currency := CurrencyFromInt64 500000000.

(** Field assignments.  The two slices are private and every reader
    copies them, so no alias of their backing arrays exists and a list
    value stands for a slice. *)
Definition set_balance (s : Server) (b : Currency) : Server :=
  mkServer (UID s) (Name s) b (targetBalance s) (history s)
    (pendingTransactions s) (token s) (WebhookURL s) (modified s).
Definition set_targetBalance (s : Server) (b : Currency) : Server :=
  mkServer (UID s) (Name s) (balance s) b (history s)
    (pendingTransactions s) (token s) (WebhookURL s) (modified s).
Definition set_history (s : Server) (h : list Transaction) : Server :=
  mkServer (UID s) (Name s) (balance s) (targetBalance s) h
    (pendingTransactions s) (token s) (WebhookURL s) (modified s).
Definition set_pendingTransactions (s : Server) (p : list Transaction) : Server :=
  mkServer (UID s) (Name s) (balance s) (targetBalance s) (history s)
    p (token s) (WebhookURL s) (modified s).
Definition set_modified (s : Server) (m : bool) : Server :=
  mkServer (UID s) (Name s) (balance s) (targetBalance s) (history s)
    (pendingTransactions s) (token s) (WebhookURL s) m.

(** A [go] statement of the package. *)
Inductive Task : Type :=
| WebhookPost (webhookURL : list rune)
| RevertPayment (currentUID : list rune) (transaction : Transaction).

(** [copy(l[off:], src)]: as many elements as fit, read before any is
    written. *)
Definition copy_at {A} (off : nat) (l src : list A) : list A :=
  take off l ++ take (length l - off) src ++ drop (off + length src) l.

Definition GetBalance (self : Server) : Currency := balance self.
Definition GetTargetBalance (self : Server) : Currency := targetBalance self.

Definition ChangeBal (num : Currency) (self : Server) : Server * bool :=
  let new_balance := Add (balance self) num in
  if LtZero new_balance then (self, false)
  else (set_modified (set_balance self new_balance) true, true).

Definition GetHistory (self : Server) : list Transaction := history self.

Definition AddToHistory (transaction : Transaction) (self : Server)
  : Server * list Task :=
  let self := set_modified self true in
  let h := history self in
  let h := if len h <? 10 then h ++ [zeroTransaction] else h in
  let h := copy_at 1 h h in
  let h := <[0%nat := transaction]> h in
  let self := set_history self h in
  if bool_decide (Name self ≠ TargetServer transaction)
     || bool_decide (Target transaction = [])
  then (self, [])
  else
    let self := set_pendingTransactions self
                  (pendingTransactions self ++ [transaction]) in
    if bool_decide (WebhookURL self = []) then (self, [])
    else (self, [WebhookPost (WebhookURL self)]).

Definition GetPendingTransactions (self : Server) : list Transaction :=
  pendingTransactions self.

Definition HasPendingTransactions (self : Server) : bool :=
  0 <? len (pendingTransactions self).

(** The [range] loop of [removeAndReturnPendingTransaction]: index and
    value of the first pending transaction with the given id. *)
Fixpoint find_pending (id : list rune) (p : list Transaction) (i : nat)
  : option (nat * Transaction) :=
  match p with
  | [] => None
  | transaction :: p' =>
      if bool_decide (ID transaction = id) then Some (i, transaction)
      else find_pending id p' (S i)
  end.

Definition removeAndReturnPendingTransaction (id : list rune) (self : Server)
  : Server * option Transaction :=
  match find_pending id (pendingTransactions self) 0 with
  | Some (i, transaction) =>
      let p := pendingTransactions self in
      let l := (length p - 1)%nat in
      let p := if (i <? l)%nat then copy_at i p (drop (S i) p) else p in
      let p := <[l := zeroTransaction]> p in
      let p := take l p in
      (set_modified (set_pendingTransactions self p) true, Some transaction)
  | None => (self, None)
  end.

Definition RemovePendingTransaction (id : list rune) (self : Server) : Server :=
  fst (removeAndReturnPendingTransaction id self).

(** A [DatabaseTransaction]: the cache of held servers by uid, nil
    before the first fetch.  The database it fronts is the one of the
    world. *)
Record DatabaseTransaction : Type := mkDbTransaction {
  servers : option (gmap (list rune) nat)
}.

(** [RejectPendingTransaction]; [tr] is [None] for a nil pointer.  The
    reversal itself runs in the goroutine that the task stands for. *)
Definition RejectPendingTransaction (id : list rune)
    (tr : option DatabaseTransaction) (self : Server)
  : Server * outcome (list Task) :=
  match tr with
  | None =>
      (self, Panic "nil *DatabaseTransaction passed to RejectPendingTransaction().")
  | Some _ =>
      match removeAndReturnPendingTransaction id self with
      | (self', Some transaction) =>
          if Revertable transaction
          then (self', Ret [RevertPayment (UID self') transaction])
          else (self', Ret [])
      | (self', None) => (self', Ret [])
      end
  end.

(** [RemoveFirstPendingTransactions]; slicing past the length panics,
    after the modified bit is set. *)
Definition RemoveFirstPendingTransactions (amount : Z) (self : Server)
  : Server * outcome unit :=
  if amount <? 1 then (self, Ret tt)
  else
    let self := set_modified self true in
    let p := pendingTransactions self in
    if len p <? amount then (self, Panic "slice bounds out of range")
    else (set_pendingTransactions self (drop (Z.to_nat amount) p), Ret tt).

Definition SetTargetBalance (targetBalance : Currency) (self : Server)
  : Server * bool :=
  if LtZero targetBalance || Gt targetBalance MaxTargetBalance then (self, false)
  else (set_targetBalance (set_modified self true) targetBalance, true).

Definition IsModified (self : Server) : bool := modified self.
Definition SetModified (self : Server) : Server := set_modified self true.

(** [GetExchangeRate]: the converted amount and the rate; [None] is a
    panic inside math/big. *)
Definition GetExchangeRate (self : Server) (amount : Currency) (toLurkcoin : bool)
  : option (Currency * BigFloat.Float) :=
  if IsZero amount || IsZero (targetBalance self)
  then Some (amount, BigFloat.NewFloat 1)
  else
    bal ← (if negb (GtZero (balance self))
           then CurrencyFromString (str "0.01")
           else Some (balance self));
    base_exchange ← Div (targetBalance self) bal;
    adj_bal ← (if toLurkcoin
               then a ← Float amount;
                    q ← BigFloat.Quo a base_exchange;
                    c ← CurrencyFromFloat q;
                    Some (Sub bal c)
               else Some (Add bal amount));
    d ← Div (targetBalance self) adj_bal;
    preemptive ← BigFloat.Add base_exchange d;
    exchange ← BigFloat.Quo preemptive f2;
    a ← Float amount;
    res ← (if toLurkcoin then BigFloat.Quo a exchange
           else BigFloat.Mul a exchange);
    c ← CurrencyFromFloat res;
    Some (c, exchange).

(** *** Encoded servers and the plaintext backend *)

Record EncodedServer : Type := mkEncodedServer {
  eVersion : Z;
  eName : list rune;
  eBalance : option Z;
  eTargetBalance : option Z;
  eHistory : list Transaction;
  ePendingTransactions : list Transaction;
  eToken : list rune;
  eWebhookURL : list rune
}.

Definition Encode (self : Server) : EncodedServer :=
  mkEncodedServer 0 (Name self) (Some (raw (balance self)))
    (Some (raw (targetBalance self))) (history self)
    (pendingTransactions self) (token self) (WebhookURL self).

Definition Decode (self : EncodedServer) : outcome Server :=
  if 0 <? eVersion self then Panic "Unrecognised EncodedServer version!"
  else
    match eBalance self, eTargetBalance self with
    | Some b, Some tb =>
        Ret (mkServer (HomogeniseUsername (eName self)) (eName self)
               (CurrencyFromInt b) (CurrencyFromInt tb) (eHistory self)
               (ePendingTransactions self) (eToken self) (eWebhookURL self)
               false)
    | _, _ => Panic "Invalid EncodedServer passed to EncodedServer.Decode()!"
    end.

(** [plaintextDatabase]: the map of encoded servers by uid and the
    [genericDbLock], whose map holds one locked mutex per held uid.
    The file behind the map is left out. *)
Record plaintextDatabase : Type := mkPlaintextDatabase {
  db : gmap (list rune) EncodedServer;
  dblock : gset (list rune)
}.

(** *** The world: heap of [Server] objects, package state, effects *)

Record World : Type := mkWorld {
  heap : gmap nat Server;
  idgen : IdGen;
  spawned : list Task;
  printed : list Transaction;
  database : plaintextDatabase
}.

Definition set_heap (w : World) (h : gmap nat Server) : World :=
  mkWorld h (idgen w) (spawned w) (printed w) (database w).
Definition set_idgen (w : World) (g : IdGen) : World :=
  mkWorld (heap w) g (spawned w) (printed w) (database w).
Definition set_database (w : World) (d : plaintextDatabase) : World :=
  mkWorld (heap w) (idgen w) (spawned w) (printed w) d.

(** Computations over the world that return, panic or never return. *)
Definition M (A : Type) : Type := World -> World * outcome A.

Definition ret {A} (a : A) : M A := fun w => (w, Ret a).

Definition bind {A B} (m : M A) (k : A -> M B) : M B :=
  fun w =>
    match m w with
    | (w', Ret a) => k a w'
    | (w', Panic msg) => (w', Panic msg)
    | (w', Blocked) => (w', Blocked)
    end.

Notation "x <- m ;; k" := (bind m (fun x => k))
  (at level 100, m at next level, right associativity).

Definition panic {A} (msg : string) : M A := fun w => (w, Panic msg).

Definition deref (p : nat) : M Server :=
  fun w =>
    match heap w !! p with
    | Some s => (w, Ret s)
    | None => (w, Panic "invalid memory address or nil pointer dereference")
    end.

Definition store (p : nat) (s : Server) : M unit :=
  fun w => (set_heap w (<[p := s]> (heap w)), Ret tt).

(** A method with a pointer receiver. *)
Definition call {A} (p : nat) (f : Server -> Server * A) : M A :=
  s <- deref p ;;
  _ <- store p (fst (f s)) ;;
  ret (snd (f s)).

Definition lift_option {A} (o : option A) : M A :=
  match o with
  | Some a => ret a
  | None => panic "math/big: ErrNaN"
  end.

Definition go (tasks : list Task) : M unit :=
  fun w => (mkWorld (heap w) (idgen w) (spawned w ++ tasks) (printed w) (database w), Ret tt).

Definition log_Print (transaction : Transaction) : M unit :=
  fun w => (mkWorld (heap w) (idgen w) (spawned w) (printed w ++ [transaction]) (database w), Ret tt).

Definition makeTransaction (t : Z) (draws : list Z)
    (source sourceServer target targetServer : list rune)
    (amount sentAmount receivedAmount : Currency) : M Transaction :=
  fun w =>
    let '(g, r) := MakeTransaction (idgen w) t draws source sourceServer target
                     targetServer amount sentAmount receivedAmount in
    (set_idgen w g, r).

Definition addToHistory (p : nat) (transaction : Transaction) : M unit :=
  tasks <- call p (AddToHistory transaction) ;;
  go tasks.

Definition getExchangeRate (p : nat) (amount : Currency) (toLurkcoin : bool)
  : M Currency :=
  s <- deref p ;;
  r <- lift_option (GetExchangeRate s amount toLurkcoin) ;;
  ret (fst r).

(** *** Payments *)

Definition transactionLimit : Currency := CurrencyFromInt64 100000000000.

Inductive PayResult : Type :=
| PayOk (transaction : Transaction)
| PayErr (code : string).

(** [Pay]: [sourceServer] and [targetServer] are the two pointers, [t]
    and [draws] what the clock and the generator deliver to
    [GenerateTransactionID]. *)
Definition Pay (sourceServer : nat) (source target : list rune)
    (targetServer : nat) (sentAmount : Currency)
    (localCurrency revertable : bool) (t : Z) (draws : list Z) : M PayResult :=
  let '(source, length) := PasteuriseUsername source in
  if 48 <? length then ret (PayErr "ERR_SOURCEUSERNAMETOOLONG") else
  let '(target, length) := PasteuriseUsername target in
  if 48 <? length then ret (PayErr "ERR_USERNAMETOOLONG") else
  amount <- (if localCurrency then getExchangeRate sourceServer sentAmount true
             else ret sentAmount) ;;
  if negb (GtZero sentAmount) || negb (GtZero amount)
  then ret (PayErr "ERR_INVALIDAMOUNT") else
  if Gt sentAmount transactionLimit || Gt amount transactionLimit
  then ret (PayErr "ERR_TRANSACTIONLIMIT") else
  success <- call sourceServer (ChangeBal (Neg amount)) ;;
  if negb success then ret (PayErr "ERR_CANNOTAFFORD") else
  receivedAmount <- getExchangeRate targetServer amount false ;;
  if negb (GtZero receivedAmount) then ret (PayErr "ERR_CANNOTPAYNOTHING") else
  if Gt receivedAmount transactionLimit then ret (PayErr "ERR_TRANSACTIONLIMIT") else
  success <- call targetServer (ChangeBal amount) ;;
  if negb success then
    _ <- call sourceServer (ChangeBal amount) ;;
    ret (PayErr "ERR_INTERNALERROR")
  else
  sourceName <- (s <- deref sourceServer ;; ret (Name s)) ;;
  targetName <- (s <- deref targetServer ;; ret (Name s)) ;;
  transaction <- makeTransaction t draws source sourceName target targetName
                   amount sentAmount receivedAmount ;;
  let transaction :=
    if revertable then set_Revertable transaction true else transaction in
  _ <- (if bool_decide (sourceServer ≠ targetServer)
        then addToHistory sourceServer transaction else ret tt) ;;
  _ <- addToHistory targetServer transaction ;;
  _ <- log_Print transaction ;;
  ret (PayOk transaction).

(** *** Fetching servers *)

(** [new]/[&Server{...}]: a fresh address. *)
Definition alloc (s : Server) : M nat :=
  fun w =>
    let p := fresh (dom (heap w)) in
    (set_heap w (<[p := s]> (heap w)), Ret p).

(** [genericDbLock.Lock]: with one goroutine, a uid that is already
    held is waited for without end. *)
Definition Lock (names : list (list rune)) : M (list (list rune)) :=
  fun w =>
    let ids := List.map HomogeniseUsername names in
    let d := database w in
    if bool_decide (Exists (fun id => id ∈ dblock d) ids) then (w, Blocked)
    else (set_database w (mkPlaintextDatabase (db d) (list_to_set ids ∪ dblock d)),
          Ret ids).

Fixpoint UnlockIDs (ids : list (list rune)) : M unit :=
  match ids with
  | [] => ret tt
  | id :: ids' =>
      fun w =>
        let d := database w in
        if bool_decide (id ∈ dblock d)
        then UnlockIDs ids'
               (set_database w (mkPlaintextDatabase (db d) (dblock d ∖ {[ id ]})))
        else (w, Panic "invalid memory address or nil pointer dereference")
  end.

(** The fetch loop of [plaintextDatabase.GetServers]: the servers
    decoded so far, or the first uid that is missing. *)
Fixpoint fetch_loop (names : list (list rune)) (servers : list nat)
  : M (list nat + list rune) :=
  match names with
  | [] => ret (inl servers)
  | name :: names' =>
      fun w =>
        match db (database w) !! name with
        | None => (w, Ret (inr name))
        | Some encodedServer =>
            match Decode encodedServer with
            | Ret s => (p <- alloc s ;; fetch_loop names' (servers ++ [p])) w
            | Panic msg => (w, Panic msg)
            | Blocked => (w, Blocked)
            end
        end
  end.

Definition db_GetServers (names : list (list rune))
  : M (list nat * bool * list rune) :=
  names <- Lock names ;;
  r <- fetch_loop names [] ;;
  match r with
  | inl servers => ret (servers, true, [])
  | inr name => _ <- UnlockIDs names ;; ret ([], false, name)
  end.

(** [DatabaseTransaction.getFromCache]. *)
Fixpoint getFromCache_loop (cache : gmap (list rune) nat)
    (names : list (list rune)) (servers : list nat) : option (list nat) :=
  match names with
  | [] => Some servers
  | name :: names' =>
      match cache !! name with
      | None => None
      | Some server => getFromCache_loop cache names' (servers ++ [server])
      end
  end.

Definition getFromCache (self : DatabaseTransaction) (names : list (list rune))
  : list nat * bool * list rune :=
  match getFromCache_loop (default ∅ (servers self)) names [] with
  | Some servers => (servers, true, [])
  | None => ([], false, [])
  end.

(** The deduplication loop of [GetServers].  [arr] is the backing
    array that [names] and [rawNames] share: the loop reads slot [idx]
    and writes slot [i] of the same array. *)
Fixpoint dedup_loop (n idx : nat) (arr : list (list rune))
    (known : gset (list rune)) (i : nat) (deduplicated : bool)
  : list (list rune) * nat * bool :=
  match n with
  | O => (arr, i, deduplicated)
  | S n' =>
      match arr !! idx with
      | None => (arr, i, deduplicated)
      | Some name =>
          let name := HomogeniseUsername name in
          if bool_decide (name ∈ known)
          then dedup_loop n' (S idx) arr known i true
          else dedup_loop n' (S idx) (<[i := name]> arr) ({[ name ]} ∪ known)
                 (S i) deduplicated
      end
  end.

Fixpoint cache_servers (ptrs : list nat) (cache : gmap (list rune) nat)
  : M (gmap (list rune) nat) :=
  match ptrs with
  | [] => ret cache
  | p :: ptrs' =>
      s <- deref p ;;
      cache_servers ptrs' (<[UID s := p]> cache)
  end.

(** [DatabaseTransaction.GetServers]: the transaction after the call
    and the three results. *)
Definition GetServers (self : DatabaseTransaction) (names : list (list rune))
  : M (DatabaseTransaction * (list nat * bool * list rune)) :=
  match servers self with
  | Some _ =>
      let '(servers, ok, badServer) := getFromCache self names in
      if negb ok
      then panic "Multiple calls to GetServers() on DatabaseTransaction."
      else ret (self, (servers, ok, badServer))
  | None =>
      let '(rawNames, names, deduplicated) :=
        if 1 <? len names then
          let '(arr, i, deduplicated) :=
            dedup_loop (length names) 0 names ∅ 0 false in
          (arr, take i arr, deduplicated)
        else (names, names, false) in
      r <- db_GetServers names ;;
      let '(servers, ok, badServer) := r in
      cache <- (if ok then cache_servers servers ∅ else ret ∅) ;;
      let self := mkDbTransaction (Some cache) in
      if deduplicated && ok then ret (self, getFromCache self rawNames)
      else ret (self, (servers, ok, badServer))
  end.

(** *** Operations on accounts, for sequences of calls *)

Inductive Op : Type :=
| OpChangeBal (p : nat) (num : Currency)
| OpAddToHistory (p : nat) (transaction : Transaction)
| OpPay (sourceServer : nat) (source target : list rune) (targetServer : nat)
    (sentAmount : Currency) (localCurrency revertable : bool)
    (t : Z) (draws : list Z)
| OpRemovePendingTransaction (p : nat) (id : list rune)
| OpRejectPendingTransaction (p : nat) (id : list rune)
    (tr : option DatabaseTransaction)
| OpRemoveFirstPendingTransactions (p : nat) (amount : Z).

Definition rejectPendingTransaction (p : nat) (id : list rune)
    (tr : option DatabaseTransaction) : M unit :=
  r <- call p (RejectPendingTransaction id tr) ;;
  match r with
  | Ret tasks => go tasks
  | Panic msg => panic msg
  | Blocked => fun w => (w, Blocked)
  end.

Definition removeFirstPendingTransactions (p : nat) (amount : Z) : M unit :=
  r <- call p (RemoveFirstPendingTransactions amount) ;;
  match r with
  | Ret _ => ret tt
  | Panic msg => panic msg
  | Blocked => fun w => (w, Blocked)
  end.

(** The world an operation leaves behind, however the call ends. *)
Definition exec (o : Op) (w : World) : World :=
  match o with
  | OpChangeBal p num => fst (call p (ChangeBal num) w)
  | OpAddToHistory p transaction => fst (addToHistory p transaction w)
  | OpPay sourceServer source target targetServer sentAmount localCurrency
      revertable t draws =>
      fst (Pay sourceServer source target targetServer sentAmount
             localCurrency revertable t draws w)
  | OpRemovePendingTransaction p id =>
      fst (call p (fun s => (RemovePendingTransaction id s, tt)) w)
  | OpRejectPendingTransaction p id tr => fst (rejectPendingTransaction p id tr w)
  | OpRemoveFirstPendingTransactions p amount =>
      fst (removeFirstPendingTransactions p amount w)
  end.

(** The worlds after each operation of a sequence. *)
Fixpoint trace (ops : list Op) (w : World) : list World :=
  match ops with
  | [] => []
  | o :: ops' => exec o w :: trace ops' (exec o w)
  end.

(** *** The rest of the backend and of the transaction *)

Definition DefaultTargetBalance : Z := 500000.

(** [NewServer]; the token is what [GenerateToken] draws. *)
Definition NewServer (name token : list rune) : outcome Server :=
  match Decode (mkEncodedServer 0 name (Some 0)
                  (Some (DefaultTargetBalance * 100)) [] [] token []) with
  | Ret res => Ret (SetModified res)
  | Panic msg => Panic msg
  | Blocked => Blocked
  end.

Definition set_dblock (w : World) (l : gset (list rune)) : World :=
  set_database w (mkPlaintextDatabase (db (database w)) l).

Definition set_db (w : World) (d : gmap (list rune) EncodedServer) : World :=
  set_database w (mkPlaintextDatabase d (dblock (database w))).

(** [genericDbLock.Unlock]: the mutex stored under the uid of each
    server is unlocked and dropped; a uid without one is a nil
    dereference. *)
Fixpoint Unlock (servers : list nat) : M unit :=
  match servers with
  | [] => ret tt
  | p :: servers' =>
      s <- deref p ;;
      fun w =>
        if bool_decide (UID s ∈ dblock (database w))
        then Unlock servers' (set_dblock w (dblock (database w) ∖ {[ UID s ]}))
        else (w, Panic "invalid memory address or nil pointer dereference")
  end.

(** The saving loop of [plaintextDatabase.FreeServers]; the flag tells
    whether the file is rewritten. *)
Fixpoint save_loop (servers : list nat) (modified : bool) : M bool :=
  match servers with
  | [] => ret modified
  | p :: servers' =>
      s <- deref p ;;
      if IsModified s
      then fun w => save_loop servers' true
                      (set_db w (<[UID s := Encode s]> (db (database w))))
      else save_loop servers' modified
  end.

Definition db_FreeServers (servers : list nat) (save : bool) : M unit :=
  _ <- Unlock servers ;;
  if negb save then ret tt
  else _ <- save_loop servers false ;; ret tt.

(** [plaintextDatabase.CreateServer]: [None] for the nil pointer. *)
Definition db_CreateServer (name token : list rune) : M (option nat * bool) :=
  ids <- Lock [name] ;;
  match ids with
  | [] => panic "index out of range"
  | id :: _ =>
      fun w =>
        match db (database w) !! id with
        | Some _ => (_ <- UnlockIDs ids ;; ret (None, false)) w
        | None =>
            match NewServer name token with
            | Ret s => (p <- alloc s ;; ret (Some p, true)) w
            | Panic msg => (w, Panic msg)
            | Blocked => (w, Blocked)
            end
        end
  end.

(** [plaintextDatabase.DeleteServer]. *)
Definition db_DeleteServer (name : list rune) : M bool :=
  ids <- Lock [name] ;;
  match ids with
  | [] => panic "index out of range"
  | id :: _ =>
      fun w =>
        match db (database w) !! id with
        | Some _ =>
            (_ <- UnlockIDs ids ;; ret true)
              (set_db w (delete id (db (database w))))
        | None => (_ <- UnlockIDs ids ;; ret false) w
        end
  end.

(** [DatabaseTransaction.free].  Go ranges over the cache in an order it
    does not specify: [order] is the list of servers that the loop
    collects. *)
Definition free (order : list nat) (self : DatabaseTransaction) (save : bool)
  : M DatabaseTransaction :=
  match servers self with
  | None => ret self
  | Some _ =>
      _ <- db_FreeServers order save ;;
      ret (mkDbTransaction None)
  end.

Definition Finish (order : list nat) (self : DatabaseTransaction)
  : M DatabaseTransaction := free order self true.

Definition Abort (order : list nat) (self : DatabaseTransaction)
  : M DatabaseTransaction := free order self false.

Definition BeginDbTransaction : DatabaseTransaction := mkDbTransaction None.

Definition GetOneServer (self : DatabaseTransaction) (name : list rune)
  : M (DatabaseTransaction * (option nat * bool)) :=
  r <- GetServers self [name] ;;
  let '(self, (servers, ok, _)) := r in
  if ok then
    match servers with
    | server :: _ => ret (self, (Some server, ok))
    | [] => panic "index out of range"
    end
  else ret (self, (None, ok)).

Definition GetCachedServer (self : DatabaseTransaction) (name : list rune)
  : option nat * bool :=
  let name := HomogeniseUsername name in
  match default ∅ (servers self) !! name with
  | Some server => (Some server, true)
  | None => (None, false)
  end.

(** [DatabaseTransaction.CreateServer]. *)
Definition tr_CreateServer (self : DatabaseTransaction) (name token : list rune)
  : M (DatabaseTransaction * (option nat * bool)) :=
  let cache := default ∅ (servers self) in
  let name := fst (PasteuriseUsername name) in
  r <- db_CreateServer name token ;;
  match r with
  | (Some server, true) =>
      ret (mkDbTransaction (Some (<[HomogeniseUsername name := server]> cache)),
           (Some server, true))
  | (server, ok) => ret (mkDbTransaction (Some cache), (server, ok))
  end.

(** *** Vocabulary of the statements *)

(** What [HomogeniseUsername] does to one rune. *)
Definition homogenise_rune (r : rune) : list rune :=
  if unicode_ToLower r =? SPACE then []
  else [if uid_char (unicode_ToLower r) then unicode_ToLower r else 95].

(** The invariant of one account. *)
Definition server_ok (s : Server) : Prop :=
  0 <= raw (balance s) /\ (length (history s) <= 10)%nat.

(** The same for every object of the heap. *)
Definition world_ok (w : World) : Prop :=
  forall p s, heap w !! p = Some s -> server_ok s.

(** A computation keeps the invariant of the heap, however it ends. *)
Definition preserves {A} (m : M A) : Prop :=
  forall w, world_ok w -> world_ok (fst (m w)).

(** Every value a computation returns satisfies [Q]. *)
Definition ensures {A} (m : M A) (Q : A -> Prop) : Prop :=
  forall w w' a, m w = (w', Ret a) -> Q a.

Definition not_a_length_error (r : PayResult) : Prop :=
  r ≠ PayErr "ERR_SOURCEUSERNAMETOOLONG" /\ r ≠ PayErr "ERR_USERNAMETOOLONG".

(** Every pending transaction is addressed to a user of this account. *)
Definition inbox_ok (s : Server) : Prop :=
  Forall (fun t => TargetServer t = Name s /\ Target t ≠ [])
    (pendingTransactions s).

(** A computation keeps a property of every object of the heap, however
    it ends. *)
Definition keeps {A} (I : Server -> Prop) (m : M A) : Prop :=
  forall w, (forall p s, heap w !! p = Some s -> I s) ->
    forall p s, heap (fst (m w)) !! p = Some s -> I s.

(** A [Server] as [Decode] rebuilds it from its encoding. *)
Definition reloaded (s : Server) : Server :=
  mkServer (HomogeniseUsername (Name s)) (Name s) (balance s) (targetBalance s)
    (history s) (pendingTransactions s) (token s) (WebhookURL s) false.

End Ledger.

(** ** Sample data *)

(** A fragment of the Unicode tables: the Latin-1 supplement and the
    Kelvin sign, whose lower case is the ASCII letter k. *)
Definition latin1_tables : UnicodeTables := {|
  toLowerTable r :=
    if r =? 8490 then 107
    else if (192 <=? r) && (r <=? 222) && negb (r =? 215) then r + 32
    else r;
  isGraphicTable r := negb ((r <=? 159) || (r =? 173))
|}.

Definition sample_server (name : string) (bal target : Z) : Server :=
  mkServer (str name) (str name) (mkCurrency bal) (mkCurrency target)
    [] [] [] [] false.

(** Account a: ¤10.00 at a fixed rate.  Account b: ¤5,000,000.00 against
    a target of ¤500,000.00.  Account c: nothing, against the largest
    target, ¤500,000,000.00.  The store holds A (uid a) and b. *)
Definition sample_world : World :=
  mkWorld
    (<[2%nat := sample_server "c" 0 50000000000]>
       (<[1%nat := sample_server "b" 500000000 50000000]>
          (<[0%nat := sample_server "a" 1000 0]> ∅)))
    initIdGen [] []
    (mkPlaintextDatabase
       (<[str "a" := Encode (sample_server "A" 1000 0)]>
          (<[str "b" := Encode (sample_server "b" 0 50000000)]> ∅))
       ∅).

Definition balance_at (w : World) (p : nat) : option Z :=
  (fun s => raw (balance s)) <$> heap w !! p.

(** The record of a revertable payment of ¤5.00 from a to b, and of a
    payment of ¤1.00 from a to itself, at second 1600000000 with the
    draw 7. *)
Definition sample_payment : Transaction :=
  mkTransaction (str "T5F5E1000-00000007") (str "u1") (str "a") (str "u2")
    (str "b") (mkCurrency 500) (mkCurrency 500) (mkCurrency 49) 1600000000 true.

Definition sample_self_payment : Transaction :=
  mkTransaction (str "T5F5E1000-00000007") (str "u1") (str "a") (str "u2")
    (str "a") (mkCurrency 100) (mkCurrency 100) (mkCurrency 100) 1600000000 false.

(** The accounts of the scenarios S1, S2 and S4 of the specification. *)
Definition scenario_world (balA balB targetB : Z) : World :=
  mkWorld
    (<[1%nat := sample_server "B" balB targetB]>
       (<[0%nat := sample_server "A" balA 0]> ∅))
    initIdGen [] [] (mkPlaintextDatabase ∅ ∅).

(** A name of 49 runes: one space, then 48 letters. *)
Definition padded_name : list rune := SPACE :: List.repeat 97 48.

Definition sample_account_with_pending : Server :=
  mkServer (str "a") (str "a") (mkCurrency 1000) (mkCurrency 0)
    [sample_self_payment] [sample_self_payment] [] [] false.

(** An open transaction holds account a, debited by ¤1.00 and not yet
    committed: its object is modified and its uid is held. *)
Definition sample_open_world : World :=
  mkWorld (<[0%nat := SetModified (sample_server "a" 900 0)]> ∅)
    initIdGen [] []
    (mkPlaintextDatabase (db (database sample_world)) {[ str "a" ]}).

(** * Properties *)

(** ** Currency comparisons *)

Lemma GtZero_spec (c : Currency) : GtZero c = true <-> 0 < raw c.
Proof.
  unfold GtZero, big_Cmp, i0.
  destruct (raw c ?= 0) eqn:E; simpl;
    [apply Z.compare_eq_iff in E | rewrite Z.compare_lt_iff in E
    | rewrite Z.compare_gt_iff in E]; split; intros; try lia; discriminate.
Qed.

Lemma LtZero_spec (c : Currency) : LtZero c = true <-> raw c < 0.
Proof.
  unfold LtZero, big_Cmp, i0.
  destruct (raw c ?= 0) eqn:E; simpl;
    [apply Z.compare_eq_iff in E | rewrite Z.compare_lt_iff in E
    | rewrite Z.compare_gt_iff in E]; split; intros; try lia; discriminate.
Qed.

Lemma LtZero_false (c : Currency) : LtZero c = false <-> 0 <= raw c.
Proof.
  pose proof (LtZero_spec c) as [H1 H2].
  destruct (LtZero c).
  - split; [discriminate|]. intros Hge. specialize (H1 eq_refl). lia.
  - split; [|reflexivity]. intros _.
    destruct (Z.lt_ge_cases (raw c) 0) as [Hlt|Hge]; [|lia].
    specialize (H2 Hlt). discriminate.
Qed.

(** ** The text of a currency value *)

Lemma digits_fuel_scan fuel : forall n,
  (0 < fuel)%nat -> 0 <= n < 10 ^ Z.of_nat fuel ->
  exists d, 0 < d /\
    forall acc rest m c dp,
      scan_mantissa (digits_fuel fuel n acc ++ rest) m c dp
      = scan_mantissa (acc ++ rest) (m * 10 ^ d + n) (c + d) dp.
Proof.
  induction fuel as [|f IH]; intros n Hf Hn; [lia|].
  simpl digits_fuel. destruct (n <? 10) eqn:E.
  - apply Z.ltb_lt in E. exists 1. split; [lia|]. intros acc rest m c dp.
    rewrite Z.mod_small by lia. simpl.
    destruct (48 + n =? 46) eqn:E1; [lia|].
    unfold is_digit. destruct ((48 <=? 48 + n) && (48 + n <=? 57)) eqn:E2; [|lia].
    f_equal; lia.
  - apply Z.ltb_ge in E.
    assert (Hf' : (0 < f)%nat).
    { destruct f; [|lia]. simpl in Hn. lia. }
    assert (Hn' : 0 <= n / 10 < 10 ^ Z.of_nat f).
    { split; [apply Z.div_pos; lia|].
      apply Z.div_lt_upper_bound; [lia|].
      replace (Z.of_nat (S f)) with (Z.succ (Z.of_nat f)) in Hn by lia.
      rewrite Z.pow_succ_r in Hn by lia. lia. }
    destruct (IH (n / 10) Hf' Hn') as (d & Hd & Hscan).
    exists (d + 1). split; [lia|]. intros acc rest m c dp.
    rewrite Hscan. simpl.
    pose proof (Z.mod_pos_bound n 10 ltac:(lia)) as Hm.
    destruct (48 + n mod 10 =? 46) eqn:E1; [lia|].
    unfold is_digit.
    destruct ((48 <=? 48 + n mod 10) && (48 + n mod 10 <=? 57)) eqn:E2; [|lia].
    rewrite Z.pow_add_r, Z.pow_1_r by lia.
    pose proof (Z.div_mod n 10 ltac:(lia)).
    f_equal; lia.
Qed.

Lemma digits_fuel_head fuel : forall n acc,
  (0 < fuel)%nat -> 0 <= n ->
  exists ch tl, digits_fuel fuel n acc = ch :: tl /\ 48 <= ch <= 57.
Proof.
  induction fuel as [|f IH]; intros n acc Hf Hn; [lia|].
  simpl. pose proof (Z.mod_pos_bound n 10 ltac:(lia)) as Hm.
  destruct (n <? 10) eqn:E; [eexists _, _; split; [done|lia]|].
  apply Z.ltb_ge in E. destruct f as [|f'].
  - simpl. eexists _, _; split; [done|lia].
  - apply IH; [lia|]. apply Z.div_pos; lia.
Qed.

Lemma digits_fuel_no_underscore fuel : forall n acc,
  0 <= n -> Forall (fun ch => ch ≠ 95) acc ->
  Forall (fun ch => ch ≠ 95) (digits_fuel fuel n acc).
Proof.
  induction fuel as [|f IH]; intros n acc Hn Hacc; [done|].
  simpl. pose proof (Z.mod_pos_bound n 10 ltac:(lia)) as Hm.
  assert (Hacc' : Forall (fun ch => ch ≠ 95) ((48 + n mod 10) :: acc)).
  { constructor; [lia|done]. }
  destruct (n <? 10); [done|]. apply IH; [apply Z.div_pos; lia|done].
Qed.

Lemma fuel_suffices n :
  0 <= n -> 0 <= n < 10 ^ Z.of_nat (S (Z.to_nat (Z.log2 n))).
Proof.
  intros Hn. split; [done|].
  pose proof (Z.log2_nonneg n) as Hl.
  replace (Z.of_nat (S (Z.to_nat (Z.log2 n)))) with (Z.succ (Z.log2 n)) by lia.
  destruct (Z.eq_dec n 0) as [->|Hne]; [done|].
  pose proof (Z.log2_spec n ltac:(lia)) as [_ Hlt].
  eapply Z.lt_le_trans; [exact Hlt|].
  apply Z.pow_le_mono_l. lia.
Qed.

(** The two digits after the point. *)
Lemma fraction_digits frac :
  0 <= frac < 100 ->
  (if frac <? i10 then [48] else []) ++ Int_String frac
  = [48 + frac / 10; 48 + frac mod 10].
Proof.
  intros Hf. unfold Int_String, i10.
  rewrite (proj2 (Z.ltb_ge frac 0)) by lia.
  destruct (frac <? 10) eqn:E.
  - apply Z.ltb_lt in E. cbn [digits_fuel]. rewrite (proj2 (Z.ltb_lt frac 10)) by lia.
    rewrite Z.div_small by lia. done.
  - apply Z.ltb_ge in E.
    assert (Hlog : 1 <= Z.log2 frac).
    { apply Z.log2_le_pow2; simpl; lia. }
    destruct (Z.to_nat (Z.log2 frac)) as [|k] eqn:Ek; [lia|].
    cbn [digits_fuel]. rewrite (proj2 (Z.ltb_ge frac 10)) by lia.
    assert (Hq : frac / 10 < 10) by (apply Z.div_lt_upper_bound; lia).
    assert (Hq0 : 0 <= frac / 10) by (apply Z.div_pos; lia).
    rewrite (proj2 (Z.ltb_lt (frac / 10) 10)) by lia.
    by rewrite (Z.mod_small (frac / 10)) by lia.
Qed.

(** The raw string: a minus sign for a negative value, the digits of
    the whole part, the point, two digits. *)
Lemma RawString_shape (c : Currency) :
  RawString c
  = (if raw c <? 0 then [45] else [])
      ++ Int_String (Z.abs (raw c) / 100)
      ++ 46 :: [48 + Z.abs (raw c) mod 100 / 10; 48 + Z.abs (raw c) mod 100 mod 10].
Proof.
  unfold RawString, i100.
  set (a := Z.abs (raw c)).
  pose proof (Z.mod_pos_bound a 100 ltac:(lia)) as Hfr.
  assert (Htext :
    (if 0 <=? raw c
     then (raw c / 100, raw c mod 100, Int_String (raw c / 100))
     else (a / 100, a mod 100, 45 :: Int_String (a / 100)))
    = (a / 100, a mod 100,
       (if raw c <? 0 then [45] else []) ++ Int_String (a / 100))).
  { unfold a. destruct (0 <=? raw c) eqn:E.
    - apply Z.leb_le in E. rewrite (proj2 (Z.ltb_ge (raw c) 0)) by lia.
      by rewrite Z.abs_eq by lia.
    - apply Z.leb_gt in E. by rewrite (proj2 (Z.ltb_lt (raw c) 0)) by lia. }
  rewrite Htext. clear Htext. cbv zeta iota beta.
  rewrite <- (fraction_digits (a mod 100)) by lia.
  destruct (a mod 100 <? i10); by rewrite <- ?app_assoc.
Qed.

(** Scanning the raw string of a value finds its sign, its magnitude as
    the mantissa and two digits after the point. *)
Lemma Float_SetString_RawString (c : Currency) :
  Float_SetString (RawString c)
  = (f ← BigFloat.of_decimal (raw c <? 0) (Z.abs (raw c)) 2; Some (Some f)).
Proof.
  rewrite RawString_shape.
  set (a := Z.abs (raw c)).
  assert (Ha : 0 <= a) by lia.
  assert (Hw : 0 <= a / 100) by (apply Z.div_pos; lia).
  pose proof (Z.mod_pos_bound a 100 ltac:(lia)) as Hfr.
  pose proof (Z.div_mod a 100 ltac:(lia)) as Hdm.
  rewrite app_assoc.
  unfold Int_String. rewrite (proj2 (Z.ltb_ge (a / 100) 0)) by lia.
  set (fuel := S (Z.to_nat (Z.log2 (a / 100)))).
  destruct (digits_fuel_head fuel (a / 100) [] ltac:(lia) Hw) as (ch & tl & Hd & Hch).
  destruct (digits_fuel_scan fuel (a / 100) ltac:(lia) (fuel_suffices _ Hw))
    as (d & Hdpos & Hscan).
  clearbody fuel.
  assert (Hbody :
    scan_mantissa
      (digits_fuel fuel (a / 100) []
         ++ 46 :: [48 + a mod 100 / 10; 48 + a mod 100 mod 10]) 0 0 None
    = Some (a, d + 2, Some d)).
  { rewrite Hscan. simpl.
    assert (Hq : 0 <= a mod 100 / 10 < 10).
    { split; [apply Z.div_pos; lia|apply Z.div_lt_upper_bound; lia]. }
    pose proof (Z.mod_pos_bound (a mod 100) 10 ltac:(lia)) as Hr.
    pose proof (Z.div_mod (a mod 100) 10 ltac:(lia)) as Hdm'.
    destruct (48 + a mod 100 / 10 =? 46) eqn:E1; [lia|].
    destruct (48 + a mod 100 mod 10 =? 46) eqn:E2; [lia|].
    unfold is_digit.
    destruct ((48 <=? 48 + a mod 100 / 10) && (48 + a mod 100 / 10 <=? 57))
      eqn:E3; [|lia].
    destruct ((48 <=? 48 + a mod 100 mod 10) && (48 + a mod 100 mod 10 <=? 57))
      eqn:E4; [|lia].
    apply f_equal. apply f_equal2; [apply f_equal2; lia|reflexivity]. }
  assert (Hcount : (d + 2 =? 0) = false) by lia.
  assert (Hk : d + 2 - d = 2) by lia.
  unfold Float_SetString.
  destruct (raw c <? 0) eqn:Eneg.
  - rewrite <- app_assoc. simpl app at 1. cbv iota beta.
    change (45 =? 45) with true. cbv iota.
    by rewrite Hbody, Hcount, Hk.
  - rewrite app_nil_l.
    destruct (digits_fuel fuel (a / 100) [] ++ _) as [|ch' tl'] eqn:Hb at 1.
    { by rewrite Hd in Hb. }
    assert (ch' = ch) as -> by (rewrite Hd in Hb; by injection Hb).
    destruct (ch =? 45) eqn:E1; [lia|]. destruct (ch =? 43) eqn:E2; [lia|].
    by rewrite Hbody, Hcount, Hk.
Qed.

Lemma Int_String_no_underscore n :
  0 <= n -> Forall (fun ch => ch ≠ 95) (Int_String n).
Proof.
  intros Hn. unfold Int_String. rewrite (proj2 (Z.ltb_ge n 0)) by lia.
  by apply digits_fuel_no_underscore.
Qed.

Lemma strip_underscores_id s :
  Forall (fun ch => ch ≠ 95) s -> strip_underscores s = s.
Proof.
  unfold strip_underscores. induction 1 as [|ch s Hch _ IH]; [done|].
  simpl. rewrite (proj2 (Z.eqb_neq ch 95)) by done. simpl. by rewrite IH.
Qed.

Lemma RawString_no_underscore c : strip_underscores (RawString c) = RawString c.
Proof.
  apply strip_underscores_id. rewrite RawString_shape.
  pose proof (Z.mod_pos_bound (Z.abs (raw c)) 100 ltac:(lia)) as Hfr.
  assert (Hq : 0 <= Z.abs (raw c) mod 100 / 10 < 10).
  { split; [apply Z.div_pos; lia|apply Z.div_lt_upper_bound; lia]. }
  pose proof (Z.mod_pos_bound (Z.abs (raw c) mod 100) 10 ltac:(lia)) as Hr.
  repeat apply Forall_app_2.
  - destruct (raw c <? 0); repeat constructor; lia.
  - apply Int_String_no_underscore. apply Z.div_pos; lia.
  - repeat constructor; lia.
Qed.

Lemma RawString_no_symbol c : HasPrefix_SYMBOL (RawString c) = false.
Proof.
  rewrite RawString_shape. destruct (raw c <? 0); [done|].
  rewrite app_nil_l. unfold Int_String.
  assert (Hw : 0 <= Z.abs (raw c) / 100) by (apply Z.div_pos; lia).
  rewrite (proj2 (Z.ltb_ge _ 0)) by lia.
  destruct (digits_fuel_head (S (Z.to_nat (Z.log2 (Z.abs (raw c) / 100))))
              (Z.abs (raw c) / 100) [] ltac:(lia) Hw) as (ch & tl & -> & Hch).
  simpl. unfold SYMBOL. lia.
Qed.

Lemma through_float_total x : is_Some (through_float x).
Proof.
  unfold through_float, BigFloat.of_decimal.
  destruct (Z.abs x =? 0); [by eexists|].
  change (2 =? 0) with false. cbv iota.
  change (BigFloat.pow5 128 2) with (Some (BigFloat.SetUint64 128 25)).
  simpl mbind. unfold BigFloat.SetUint64. change (25 =? 0) with false. cbv iota.
  unfold BigFloat.fin_round.
  destruct (BigFloat.round_quot 128 25 1) as [q5 e5]. simpl.
  destruct (BigFloat.round_quot 64 (Z.abs x) q5) as [q e]. simpl.
  unfold BigFloat.Mul, f100, BigFloat.NewFloat. simpl.
  unfold BigFloat.fin_round.
  match goal with
  | |- context [BigFloat.round_quot ?p ?n ?d] =>
      destruct (BigFloat.round_quot p n d) as [q' e']
  end.
  by eexists.
Qed.

(** Writing a value and reading the text back goes through the float:
    every failure of the round trip is one of [through_float]. *)
Lemma ParseCurrency_RawString (c : Currency) :
  ParseCurrency (RawString c)
  = (x ← through_float (raw c); Some (mkCurrency x, None)).
Proof.
  unfold ParseCurrency, setString, through_float.
  rewrite RawString_no_underscore, RawString_no_symbol.
  rewrite Float_SetString_RawString.
  destruct (BigFloat.of_decimal _ _ 2) as [f|]; [|done]. simpl.
  by destruct (BigFloat.Mul f f100).
Qed.

Section LedgerProofs.

Context `{UnicodeTables}.

(** ** Guarded mutators of one account *)


Lemma ChangeBal_ok num s : server_ok s -> server_ok (fst (ChangeBal num s)).
Proof.
  intros [Hb Hh]. unfold ChangeBal.
  destruct (LtZero (Add (balance s) num)) eqn:E; simpl; [done|].
  apply LtZero_false in E. split; simpl; done.
Qed.

Lemma ChangeBal_true num s s' :
  ChangeBal num s = (s', true) ->
  0 <= raw (balance s) + raw num /\
  s' = set_modified (set_balance s (Add (balance s) num)) true.
Proof.
  unfold ChangeBal.
  destruct (LtZero (Add (balance s) num)) eqn:E; intros [= <-].
  apply LtZero_false in E. simpl in E. done.
Qed.

Lemma ChangeBal_false num s s' : ChangeBal num s = (s', false) -> s' = s.
Proof.
  unfold ChangeBal.
  destruct (LtZero (Add (balance s) num)); intros [= <-]; done.
Qed.

Lemma copy_at_1_self {A} (h : list A) :
  h <> [] -> copy_at 1 h h = take 1 h ++ take (length h - 1) h.
Proof.
  intros Hne. unfold copy_at.
  rewrite (drop_ge h) by lia. by rewrite app_nil_r.
Qed.

(** The slice code of [AddToHistory] prepends and keeps at most the
    nine newest older entries once ten are stored. *)
Lemma AddToHistory_history transaction s :
  history (fst (AddToHistory transaction s)) =
  transaction ::
    (if len (history s) <? 10 then history s else removelast (history s)).
Proof.
  assert (Hh : forall h : list Transaction,
    <[0%nat := transaction]>
      (copy_at 1 (if len h <? 10 then h ++ [zeroTransaction] else h)
                 (if len h <? 10 then h ++ [zeroTransaction] else h)) =
    transaction :: (if len h <? 10 then h else removelast h)).
  { intros h. unfold len. destruct (Z.of_nat (length h) <? 10) eqn:E.
    - rewrite copy_at_1_self by (destruct h; done).
      rewrite length_app. simpl.
      replace (length h + 1 - 1)%nat with (length h) by lia.
      rewrite take_app_length.
      destruct h; done.
    - apply Z.ltb_ge in E.
      destruct h as [|x h]; [simpl in E; lia|].
      rewrite copy_at_1_self by done. simpl.
      f_equal. replace (length h - 0)%nat with (length h) by lia.
      clear E. revert x. induction h as [|y h IH]; intros x; [done|].
      simpl. f_equal. apply IH. }
  unfold AddToHistory. cbv zeta.
  match goal with
  | |- context [if ?c || ?d then _ else _] => destruct (c || d)
  end; [apply Hh|].
  match goal with
  | |- context [if bool_decide ?P then _ else _] => destruct (bool_decide P)
  end; apply Hh.
Qed.

Lemma AddToHistory_balance transaction s :
  balance (fst (AddToHistory transaction s)) = balance s.
Proof. unfold AddToHistory. repeat case_match; done. Qed.

Lemma length_removelast {A} (l : list A) :
  length (removelast l) = (length l - 1)%nat.
Proof.
  induction l as [|x l IH]; [done|].
  destruct l; [done|]. simpl in *. rewrite IH. lia.
Qed.

Lemma AddToHistory_ok transaction s :
  server_ok s -> server_ok (fst (AddToHistory transaction s)).
Proof.
  intros [Hb Hh]. split.
  - by rewrite AddToHistory_balance.
  - rewrite AddToHistory_history. unfold len. simpl.
    destruct (Z.of_nat (length (history s)) <? 10) eqn:E.
    + apply Z.ltb_lt in E. lia.
    + rewrite length_removelast. lia.
Qed.

Lemma removeAndReturnPendingTransaction_keeps id s :
  balance (fst (removeAndReturnPendingTransaction id s)) = balance s /\
  history (fst (removeAndReturnPendingTransaction id s)) = history s.
Proof.
  unfold removeAndReturnPendingTransaction.
  destruct (find_pending id (pendingTransactions s) 0) as [[i t]|]; done.
Qed.

Lemma RemovePendingTransaction_ok id s :
  server_ok s -> server_ok (RemovePendingTransaction id s).
Proof.
  unfold server_ok, RemovePendingTransaction.
  destruct (removeAndReturnPendingTransaction_keeps id s) as [-> ->]. done.
Qed.

Lemma RejectPendingTransaction_ok id tr s :
  server_ok s -> server_ok (fst (RejectPendingTransaction id tr s)).
Proof.
  unfold server_ok, RejectPendingTransaction.
  destruct tr; [|done].
  pose proof (removeAndReturnPendingTransaction_keeps id s) as [Hb Hh].
  destruct (removeAndReturnPendingTransaction id s) as [s' [t|]]; simpl in *;
    [destruct (Revertable t)|]; simpl; rewrite Hb, Hh; done.
Qed.

Lemma RemoveFirstPendingTransactions_ok amount s :
  server_ok s -> server_ok (fst (RemoveFirstPendingTransactions amount s)).
Proof.
  unfold server_ok, RemoveFirstPendingTransactions.
  repeat case_match; done.
Qed.

(** ** Unknown ids *)

Lemma find_pending_None id p i :
  id ∉ (ID <$> p) -> find_pending id p i = None.
Proof.
  revert i. induction p as [|t p IH]; intros i Hnot; [done|].
  simpl. rewrite fmap_cons in Hnot. apply not_elem_of_cons in Hnot as [Hne Hnot].
  rewrite bool_decide_eq_false_2 by congruence. by apply IH.
Qed.

(** C9.  For an id that no pending transaction carries, removing and
    rejecting leave every field of the account as it was (pending
    list, balance, history, modified bit), whatever transaction
    manager is passed; with a manager that is not nil the rejection
    returns and spawns no reversal. *)
Theorem unknown_id_leaves_account_unchanged
    (self : Server) (id : list rune) (tr : option DatabaseTransaction) :
  id ∉ (ID <$> pendingTransactions self) ->
  RemovePendingTransaction id self = self /\
  fst (RejectPendingTransaction id tr self) = self /\
  (is_Some tr -> snd (RejectPendingTransaction id tr self) = Ret []).
Proof.
  intros Hnot.
  unfold RemovePendingTransaction, RejectPendingTransaction,
    removeAndReturnPendingTransaction.
  rewrite (find_pending_None _ _ _ Hnot). simpl.
  repeat split; destruct tr as [d|]; try done.
Qed.

(** ** Ids that have been processed *)

Lemma find_pending_Some id p k i t :
  find_pending id p k = Some (i, t) ->
  exists j, i = (k + j)%nat /\ p !! j = Some t /\ ID t = id.
Proof.
  revert k. induction p as [|x p IH]; intros k Hf; [done|].
  simpl in Hf. destruct (bool_decide (ID x = id)) eqn:E.
  - injection Hf as <- <-. apply bool_decide_eq_true_1 in E.
    exists 0%nat. split; [lia|done].
  - apply IH in Hf as (j & -> & Hj & Hid).
    exists (S j). split; [lia|done].
Qed.

(** The slice code of [removeAndReturnPendingTransaction] deletes the
    entry at the index found and keeps the others in order. *)
Lemma remove_slice {A} (z : A) (p : list A) (i : nat) :
  (i < length p)%nat ->
  take (length p - 1)
    (<[(length p - 1)%nat := z]>
       (if (i <? length p - 1)%nat then copy_at i p (drop (S i) p) else p))
  = take i p ++ drop (S i) p.
Proof.
  intros Hi. rewrite take_insert_ge by lia.
  destruct (i <? length p - 1)%nat eqn:E.
  - apply Nat.ltb_lt in E. unfold copy_at.
    rewrite (take_ge (drop (S i) p)) by (rewrite length_drop; lia).
    rewrite app_assoc. apply take_app_length'.
    rewrite length_app, length_take, length_drop. lia.
  - apply Nat.ltb_ge in E.
    replace i with (length p - 1)%nat by lia.
    rewrite (drop_ge p (S _)) by lia. by rewrite app_nil_r.
Qed.

Lemma removeAndReturnPendingTransaction_Some id s i t :
  find_pending id (pendingTransactions s) 0 = Some (i, t) ->
  pendingTransactions (fst (removeAndReturnPendingTransaction id s))
  = take i (pendingTransactions s) ++ drop (S i) (pendingTransactions s).
Proof.
  intros Hf. unfold removeAndReturnPendingTransaction. rewrite Hf. simpl.
  apply find_pending_Some in Hf as (j & -> & Hj & _).
  apply remove_slice. by apply lookup_lt_Some in Hj.
Qed.

(** Once an id has been removed from an inbox that holds every id at
    most once, a second removal finds nothing to do. *)
Lemma RemovePendingTransaction_again id s :
  NoDup (ID <$> pendingTransactions s) ->
  RemovePendingTransaction id (RemovePendingTransaction id s)
  = RemovePendingTransaction id s.
Proof.
  intros Hnd.
  assert (Hnone : find_pending id
                    (pendingTransactions (RemovePendingTransaction id s)) 0 = None).
  { destruct (find_pending id (pendingTransactions s) 0) as [[i t]|] eqn:Hf.
    - unfold RemovePendingTransaction.
      rewrite (removeAndReturnPendingTransaction_Some _ _ _ _ Hf).
      apply find_pending_Some in Hf as (j & -> & Hj & Hid). simpl.
      apply find_pending_None.
      rewrite <- (take_drop_middle _ _ _ Hj) in Hnd.
      rewrite fmap_app, fmap_cons in Hnd.
      apply NoDup_app in Hnd as (_ & Hl & Hr).
      apply NoDup_cons in Hr as [Hr _].
      rewrite fmap_app. intros [Hin|Hin]%elem_of_app.
      + apply (Hl _ Hin). rewrite Hid. apply list_elem_of_here.
      + rewrite Hid in Hr. by apply Hr.
    - unfold RemovePendingTransaction, removeAndReturnPendingTransaction.
      by rewrite Hf. }
  generalize dependent (RemovePendingTransaction id s). intros s1 Hs1.
  unfold RemovePendingTransaction, removeAndReturnPendingTransaction.
  by rewrite Hs1.
Qed.

(** ** The invariant over the heap *)



Lemma preserves_ret {A} (a : A) : preserves (ret a).
Proof. intros w Hw. done. Qed.

Lemma preserves_panic {A} msg : preserves (@panic A msg).
Proof. intros w Hw. done. Qed.

Lemma preserves_bind {A B} (m : M A) (k : A -> M B) :
  preserves m -> (forall a, preserves (k a)) -> preserves (bind m k).
Proof.
  intros Hm Hk w Hw. unfold bind.
  specialize (Hm w Hw). destruct (m w) as [w1 [a|msg|]]; simpl in *; try done.
  by apply Hk.
Qed.

Lemma preserves_deref p : preserves (deref p).
Proof. intros w Hw. unfold deref. by destruct (heap w !! p). Qed.

Lemma preserves_call {A} p (f : Server -> Server * A) :
  (forall s, server_ok s -> server_ok (fst (f s))) -> preserves (call p f).
Proof.
  intros Hf w Hw. unfold call, bind, deref, store, ret.
  destruct (heap w !! p) as [s|] eqn:E; simpl; [|done].
  intros q s' Hq. simpl in Hq.
  destruct (decide (p = q)) as [->|Hne].
  - rewrite lookup_insert_eq in Hq. injection Hq as <-. apply Hf. by eapply Hw.
  - rewrite lookup_insert_ne in Hq by done. by eapply Hw.
Qed.

Lemma preserves_same_heap {A} (m : M A) :
  (forall w, heap (fst (m w)) = heap w) -> preserves m.
Proof. intros Hm w Hw p s. rewrite Hm. apply Hw. Qed.

Lemma preserves_go tasks : preserves (go tasks).
Proof. by apply preserves_same_heap. Qed.

Lemma preserves_log_Print transaction : preserves (log_Print transaction).
Proof. by apply preserves_same_heap. Qed.

Lemma preserves_lift_option {A} (o : option A) : preserves (lift_option o).
Proof. destruct o; [apply preserves_ret | apply preserves_panic]. Qed.

Lemma preserves_makeTransaction t draws a b c d e f g :
  preserves (makeTransaction t draws a b c d e f g).
Proof.
  apply preserves_same_heap. intros w. unfold makeTransaction.
  by destruct (MakeTransaction _ _ _ _ _ _ _ _ _ _).
Qed.

Lemma preserves_getExchangeRate p amount b : preserves (getExchangeRate p amount b).
Proof.
  unfold getExchangeRate.
  apply preserves_bind; [apply preserves_deref|intros s].
  apply preserves_bind; [apply preserves_lift_option|intros r].
  apply preserves_ret.
Qed.

Lemma preserves_addToHistory p transaction : preserves (addToHistory p transaction).
Proof.
  unfold addToHistory.
  apply preserves_bind; [|intros; apply preserves_go].
  apply preserves_call. intros s. apply AddToHistory_ok.
Qed.

Lemma preserves_ChangeBal p num : preserves (call p (ChangeBal num)).
Proof. apply preserves_call. intros s. apply ChangeBal_ok. Qed.

Ltac preserves_step :=
  first
    [ apply preserves_ret
    | apply preserves_ChangeBal
    | apply preserves_getExchangeRate
    | apply preserves_addToHistory
    | apply preserves_makeTransaction
    | apply preserves_log_Print
    | apply preserves_deref
    | apply preserves_bind; [|intros ?]
    | match goal with
      | |- preserves (if ?c then _ else _) => destruct c
      end ].

Lemma preserves_Pay sourceServer source target targetServer sentAmount
    localCurrency revertable t draws :
  preserves (Pay sourceServer source target targetServer sentAmount
               localCurrency revertable t draws).
Proof. unfold Pay, PasteuriseUsername. repeat preserves_step. Qed.

Lemma preserves_exec o w : world_ok w -> world_ok (exec o w).
Proof.
  destruct o; simpl.
  - apply preserves_ChangeBal.
  - apply preserves_addToHistory.
  - apply preserves_Pay.
  - apply preserves_call. intros s. apply RemovePendingTransaction_ok.
  - unfold rejectPendingTransaction.
    apply preserves_bind.
    + apply preserves_call. intros s. apply RejectPendingTransaction_ok.
    + intros [tasks|msg|]; [apply preserves_go|apply preserves_panic|by intros ? ?].
  - unfold removeFirstPendingTransactions.
    apply preserves_bind.
    + apply preserves_call. intros s. apply RemoveFirstPendingTransactions_ok.
    + intros [u|msg|]; [apply preserves_ret|apply preserves_panic|by intros ? ?].
Qed.

(** C4.  From a state in which every account has a balance that is not
    negative and at most ten history entries, the state after each
    operation of any sequence of [ChangeBal], [AddToHistory], [Pay]
    and the pending-transaction operations is again such a state. *)
Theorem invariants_hold_after_each_operation (ops : list Op) (w : World) :
  (forall p s, heap w !! p = Some s ->
     0 <= raw (balance s) /\ (length (history s) <= 10)%nat) ->
  Forall (fun w' =>
            forall p s, heap w' !! p = Some s ->
              0 <= raw (balance s) /\ (length (history s) <= 10)%nat)
         (trace ops w).
Proof.
  revert w. induction ops as [|o ops IH]; intros w Hw; simpl.
  - constructor.
  - pose proof (preserves_exec o w Hw) as Hw'.
    constructor; [exact Hw'|]. apply IH. exact Hw'.
Qed.

(** ** Running [Pay] backwards from its result *)

Lemma bind_Ret_inv {A B} (m : M A) (k : A -> M B) w w' b :
  bind m k w = (w', Ret b) ->
  exists a w1, m w = (w1, Ret a) /\ k a w1 = (w', Ret b).
Proof.
  unfold bind. destruct (m w) as [w1 [a|msg|]]; intros Hk; try done.
  by exists a, w1.
Qed.

Lemma ret_Ret_inv {A} (a : A) w w' b :
  ret a w = (w', Ret b) -> w' = w /\ b = a.
Proof. by intros [= <- <-]. Qed.

Lemma deref_Ret_inv p w w' s :
  deref p w = (w', Ret s) -> w' = w /\ heap w !! p = Some s.
Proof. unfold deref. destruct (heap w !! p); by intros [= <- <-]. Qed.

Lemma call_Ret_inv {A} p (f : Server -> Server * A) w w' a :
  call p f w = (w', Ret a) ->
  exists s, heap w !! p = Some s /\
            w' = set_heap w (<[p := fst (f s)]> (heap w)) /\ a = snd (f s).
Proof.
  unfold call, bind, deref, store, ret.
  destruct (heap w !! p) as [s|]; [|done].
  intros [= <- <-]. by exists s.
Qed.

Lemma getExchangeRate_Ret_inv p amount b w w' c :
  getExchangeRate p amount b w = (w', Ret c) -> w' = w.
Proof.
  unfold getExchangeRate. intros Hg.
  apply bind_Ret_inv in Hg as (s & w1 & Hd & Hg).
  apply deref_Ret_inv in Hd as [-> _].
  apply bind_Ret_inv in Hg as (r & w2 & Hl & Hg).
  apply ret_Ret_inv in Hg as [-> _].
  unfold lift_option in Hl. destruct (GetExchangeRate s amount b); [|done].
  by apply ret_Ret_inv in Hl as [-> _].
Qed.

Lemma makeTransaction_Ret_inv t draws a b c d e f g w w' tx :
  makeTransaction t draws a b c d e f g w = (w', Ret tx) ->
  heap w' = heap w /\ Amount tx = e.
Proof.
  unfold makeTransaction, MakeTransaction.
  destruct (GenerateTransactionID (idgen w) t draws) as [g' [[id time]|msg|]];
    intros [= <- <-]; done.
Qed.

Lemma addToHistory_Ret_inv p transaction w w' u :
  addToHistory p transaction w = (w', Ret u) ->
  exists s, heap w !! p = Some s /\
            heap w' = <[p := fst (AddToHistory transaction s)]> (heap w).
Proof.
  unfold addToHistory. intros Ha.
  apply bind_Ret_inv in Ha as (tasks & w1 & Hc & Hg).
  apply call_Ret_inv in Hc as (s & Hs & -> & _).
  exists s. split; [done|]. by injection Hg as <- _.
Qed.

Ltac pay_if H :=
  match type of H with
  | (if ?c then _ else _) _ = _ => destruct c eqn:?
  end.

(** The heap after a successful payment, in terms of the heap before:
    the debit, the credit, then the history rows. *)
Lemma Pay_ok_heap sourceServer source target targetServer sentAmount
    localCurrency revertable t draws w w' tx :
  Pay sourceServer source target targetServer sentAmount localCurrency
    revertable t draws w = (w', Ret (PayOk tx)) ->
  exists amount s tg,
    0 < raw amount /\ Amount tx = amount /\
    heap w !! sourceServer = Some s /\
    raw amount <= raw (balance s) /\
    let s1 := set_modified (set_balance s (Add (balance s) (Neg amount))) true in
    <[sourceServer := s1]> (heap w) !! targetServer = Some tg /\
    let tg1 := set_modified (set_balance tg (Add (balance tg) amount)) true in
    let h2 := <[targetServer := tg1]> (<[sourceServer := s1]> (heap w)) in
    heap w' =
      if bool_decide (sourceServer ≠ targetServer)
      then <[targetServer := fst (AddToHistory tx tg1)]>
             (<[sourceServer := fst (AddToHistory tx s1)]> h2)
      else <[targetServer := fst (AddToHistory tx tg1)]> h2.
Proof.
  unfold Pay, PasteuriseUsername. intros HP.
  pay_if HP; [done|]. pay_if HP; [done|].
  apply bind_Ret_inv in HP as (amount & w1 & Hamt & HP).
  assert (w1 = w) as ->.
  { destruct localCurrency.
    - by apply getExchangeRate_Ret_inv in Hamt.
    - by apply ret_Ret_inv in Hamt as [-> _]. }
  clear Hamt.
  pay_if HP; [done|]. pay_if HP; [done|].
  apply bind_Ret_inv in HP as (success & w1 & Hdebit & HP).
  apply call_Ret_inv in Hdebit as (s & Hs & -> & ->).
  pay_if HP; [done|].
  destruct (ChangeBal (Neg amount) s) as [s1 ok] eqn:Hcb. simpl in *.
  destruct ok; [|done].
  apply ChangeBal_true in Hcb as [Hge ->].
  apply bind_Ret_inv in HP as (receivedAmount & w1 & Hrecv & HP).
  apply getExchangeRate_Ret_inv in Hrecv as ->.
  pay_if HP; [done|]. pay_if HP; [done|].
  apply bind_Ret_inv in HP as (success & w1 & Hcredit & HP).
  apply call_Ret_inv in Hcredit as (tg & Htg & -> & ->). simpl in Htg.
  pay_if HP.
  { apply bind_Ret_inv in HP as (? & ? & _ & HP). by apply ret_Ret_inv in HP as [_ ?]. }
  destruct (ChangeBal amount tg) as [tg1 ok] eqn:Hcb. simpl in *.
  destruct ok; [|done].
  apply ChangeBal_true in Hcb as [_ ->].
  apply bind_Ret_inv in HP as (sourceName & w1 & Hsn & HP).
  apply bind_Ret_inv in Hsn as (? & ? & Hd & Hr).
  apply deref_Ret_inv in Hd as [-> _]. apply ret_Ret_inv in Hr as [-> _].
  apply bind_Ret_inv in HP as (targetName & w1 & Htn & HP).
  apply bind_Ret_inv in Htn as (? & ? & Hd & Hr).
  apply deref_Ret_inv in Hd as [-> _]. apply ret_Ret_inv in Hr as [-> _].
  apply bind_Ret_inv in HP as (transaction & w1 & Hmk & HP).
  apply makeTransaction_Ret_inv in Hmk as [Hh1 Hamount]. simpl in Hh1.
  apply bind_Ret_inv in HP as (u1 & w2 & Hsrc & HP).
  apply bind_Ret_inv in HP as (u2 & w3 & Htgt & HP).
  apply bind_Ret_inv in HP as (u3 & w4 & Hlog & HP).
  apply ret_Ret_inv in HP as [-> [= ->]].
  injection Hlog as <-.
  apply addToHistory_Ret_inv in Htgt as (tg' & Htg' & Hh3). simpl.
  rewrite Hh3. clear Hh3.
  assert (Hpos : 0 < raw amount).
  { apply orb_false_elim in Heqb1 as [_ Hg].
    apply negb_false_iff in Hg. by apply GtZero_spec. }
  exists amount, s, tg. simpl in Hge. unfold i0 in Hge.
  split; [done|]. split; [by destruct revertable|].
  split; [done|]. split; [lia|]. split; [done|].
  destruct (bool_decide (sourceServer ≠ targetServer)) eqn:Hneq.
  - apply bool_decide_eq_true_1 in Hneq.
    apply addToHistory_Ret_inv in Hsrc as (s' & Hs' & Hh2).
    rewrite Hh1 in Hs'. rewrite lookup_insert_ne, lookup_insert_eq in Hs' by done.
    injection Hs' as <-.
    rewrite Hh2, Hh1 in Htg' |- *.
    rewrite lookup_insert_ne, lookup_insert_eq in Htg' by done.
    by injection Htg' as <-.
  - apply ret_Ret_inv in Hsrc as [-> _].
    rewrite Hh1 in Htg' |- *.
    rewrite lookup_insert_eq in Htg'. by injection Htg' as <-.
Qed.

(** C3.  A successful payment between two distinct accounts leaves the
    sum of the two balances as it was: the source loses the base
    amount of the transaction and the target gains the same. *)
Theorem Pay_conserves_sum_of_balances sourceServer source target targetServer
    sentAmount localCurrency revertable t draws w w' tx :
  sourceServer ≠ targetServer ->
  Pay sourceServer source target targetServer sentAmount localCurrency
    revertable t draws w = (w', Ret (PayOk tx)) ->
  exists s tg s' tg',
    heap w !! sourceServer = Some s /\ heap w !! targetServer = Some tg /\
    heap w' !! sourceServer = Some s' /\ heap w' !! targetServer = Some tg' /\
    raw (balance s') + raw (balance tg') = raw (balance s) + raw (balance tg) /\
    raw (balance s') = raw (balance s) - raw (Amount tx) /\
    raw (balance tg') = raw (balance tg) + raw (Amount tx).
Proof.
  intros Hne HP.
  apply Pay_ok_heap in HP
    as (amount & s & tg & Hpos & Hamt & Hs & Hle & Htg & Hheap).
  simpl in Hheap. rewrite lookup_insert_ne in Htg by done.
  rewrite bool_decide_eq_true_2 in Hheap by done.
  eexists s, tg, _, _. split; [done|]. split; [done|].
  rewrite Hheap, Hamt.
  split; [by rewrite lookup_insert_ne, lookup_insert_eq|].
  split; [by rewrite lookup_insert_eq|].
  rewrite !AddToHistory_balance. simpl. unfold i0. lia.
Qed.

(** C10.  A successful payment whose source and target are one and the
    same account object leaves its balance as it was, and puts the
    transaction into its history once, at the head (the oldest entry
    makes room when ten are stored). *)
Theorem Pay_to_self_keeps_balance p source target sentAmount
    localCurrency revertable t draws w w' tx :
  Pay p source target p sentAmount localCurrency revertable t draws w
    = (w', Ret (PayOk tx)) ->
  exists s s',
    heap w !! p = Some s /\ heap w' !! p = Some s' /\
    balance s' = balance s /\
    history s' =
      tx :: (if len (history s) <? 10 then history s
             else removelast (history s)).
Proof.
  intros HP.
  apply Pay_ok_heap in HP
    as (amount & s & tg & Hpos & Hamt & Hs & Hle & Htg & Hheap).
  simpl in Hheap. rewrite lookup_insert_eq in Htg. injection Htg as <-.
  rewrite bool_decide_eq_false_2 in Hheap by (intros Hn; by apply Hn).
  eexists s, _. split; [done|]. rewrite Hheap, lookup_insert_eq.
  split; [done|]. split.
  - rewrite AddToHistory_balance. simpl. destruct (balance s) as [b].
    unfold Add, Neg, i0. simpl. f_equal. lia.
  - by rewrite AddToHistory_history.
Qed.

(** ** Which exits of [Pay] report a long user name *)


Lemma ensures_ret {A} (a : A) (Q : A -> Prop) : Q a -> ensures (ret a) Q.
Proof. intros Ha w w' b Hr. by apply ret_Ret_inv in Hr as [_ ->]. Qed.

Lemma ensures_bind {A B} (m : M A) (k : A -> M B) (Q : B -> Prop) :
  (forall a, ensures (k a) Q) -> ensures (bind m k) Q.
Proof.
  intros Hk w w' b Hb.
  apply bind_Ret_inv in Hb as (a & w1 & _ & Hb). by eapply Hk.
Qed.


Ltac ensures_step :=
  first
    [ apply ensures_ret; split; discriminate
    | apply ensures_bind; intros ?
    | match goal with
      | |- ensures (if ?c then _ else _) _ => destruct c
      end ].

(** C6, as the code has it.  [Pay] returns ERR_SOURCEUSERNAMETOOLONG
    exactly when the source name, once its leading and trailing spaces
    are stripped, has more than 48 runes, and ERR_USERNAMETOOLONG
    exactly when the source name passes that test and the stripped
    target name has more than 48 runes; in both cases the world is
    left as it was. *)
Theorem Pay_username_too_long_iff sourceServer source target targetServer
    sentAmount localCurrency revertable t draws w :
  let r := Pay sourceServer source target targetServer sentAmount
             localCurrency revertable t draws w in
  (snd r = Ret (PayErr "ERR_SOURCEUSERNAMETOOLONG")
     <-> 48 < len (Trim_space source)) /\
  (snd r = Ret (PayErr "ERR_USERNAMETOOLONG")
     <-> len (Trim_space source) <= 48 /\ 48 < len (Trim_space target)) /\
  (48 < len (Trim_space source) \/ 48 < len (Trim_space target) -> fst r = w).
Proof.
  unfold Pay, PasteuriseUsername. cbv zeta.
  destruct (48 <? len (Trim_space source)) eqn:Es.
  { apply Z.ltb_lt in Es. simpl.
    split; [done|]. split; [|done]. split; [done|lia]. }
  apply Z.ltb_ge in Es.
  destruct (48 <? len (Trim_space target)) eqn:Et.
  { apply Z.ltb_lt in Et. simpl.
    split; [split; [done|lia]|]. split; [|done]. done. }
  apply Z.ltb_ge in Et.
  match goal with
  | |- context [bind ?m ?k w] =>
      assert (Hens : ensures (bind m k) not_a_length_error)
        by repeat ensures_step;
      destruct (bind m k w) as [w1 [a|msg|]] eqn:Hrun
  end; simpl.
  - destruct (Hens _ _ _ Hrun) as [H1 H2].
    split; [split; [intros [= ->]; done|lia]|].
    split; [split; [intros [= ->]; done|lia]|lia].
  - split; [split; [done|lia]|]. split; [split; [done|lia]|lia].
  - split; [split; [done|lia]|]. split; [split; [done|lia]|lia].
Qed.

(** ** User names *)


Lemma HomogeniseUsername_flat_map x :
  HomogeniseUsername x = flat_map homogenise_rune x.
Proof.
  unfold HomogeniseUsername. induction x as [|r x IH]; [done|].
  simpl. unfold homogenise_rune at 1.
  destruct (unicode_ToLower r =? SPACE); simpl; by rewrite IH.
Qed.

Lemma uid_char_ascii r : uid_char r = true -> 48 <= r <= 122.
Proof. unfold uid_char. lia. Qed.

Lemma unicode_ToLower_uid r : uid_char r = true -> unicode_ToLower r = r.
Proof.
  intros Hr. pose proof (uid_char_ascii r Hr).
  unfold unicode_ToLower. unfold uid_char in Hr.
  destruct (r <=? 127) eqn:E1; [|lia].
  destruct ((65 <=? r) && (r <=? 90)) eqn:E2; [lia|done].
Qed.

Lemma homogenise_rune_uid r : uid_char r = true -> homogenise_rune r = [r].
Proof.
  intros Hr. unfold homogenise_rune.
  rewrite (unicode_ToLower_uid r Hr), Hr.
  pose proof (uid_char_ascii r Hr). unfold SPACE.
  destruct (r =? 32) eqn:E; [lia|done].
Qed.

Lemma homogenise_rune_out r r' :
  r' ∈ homogenise_rune r -> uid_char r' = true.
Proof.
  unfold homogenise_rune.
  destruct (unicode_ToLower r =? SPACE); [by intros ?%elem_of_nil|].
  intros ->%list_elem_of_singleton.
  by destruct (uid_char (unicode_ToLower r)) eqn:E.
Qed.

Lemma homogenise_fixes_uids x :
  Forall (fun r => uid_char r = true) x -> flat_map homogenise_rune x = x.
Proof.
  induction 1 as [|r x Hr _ IH]; [done|].
  simpl. by rewrite homogenise_rune_uid, IH.
Qed.

Lemma HomogeniseUsername_uids x :
  Forall (fun r => uid_char r = true) (HomogeniseUsername x).
Proof.
  rewrite HomogeniseUsername_flat_map. apply Forall_forall.
  intros r' [r [_ Hr]]%list_elem_of_In%in_flat_map.
  apply homogenise_rune_out with r. by apply list_elem_of_In.
Qed.

Lemma homogenise_rune_short r :
  homogenise_rune r = [] \/ exists r', homogenise_rune r = [r'].
Proof. unfold homogenise_rune. destruct (_ =? _); eauto. Qed.

Lemma homogenise_rev x :
  flat_map homogenise_rune (rev x) = rev (flat_map homogenise_rune x).
Proof.
  induction x as [|r x IH]; [done|].
  simpl. rewrite flat_map_app, IH, rev_app_distr. simpl. rewrite app_nil_r.
  by destruct (homogenise_rune_short r) as [->|[r' ->]].
Qed.

Lemma homogenise_space : homogenise_rune SPACE = [].
Proof. reflexivity. Qed.

Lemma homogenise_TrimLeft x :
  flat_map homogenise_rune (TrimLeft_space x) = flat_map homogenise_rune x.
Proof.
  induction x as [|r x IH]; [done|].
  simpl. destruct (r =? SPACE) eqn:E; [|done].
  apply Z.eqb_eq in E as ->. by rewrite homogenise_space.
Qed.

Lemma homogenise_Trim x :
  flat_map homogenise_rune (Trim_space x) = flat_map homogenise_rune x.
Proof.
  unfold Trim_space.
  by rewrite homogenise_rev, homogenise_TrimLeft, homogenise_rev,
    rev_involutive, homogenise_TrimLeft.
Qed.

Section Absorption.

(** Two facts about Go's tables: a rune above U+007F that is not
    graphic has no lower case among the runes of a uid or the space,
    and neither has U+FFFD. *)
Hypothesis lower_of_non_graphic :
  forall r, 127 < r -> isGraphicTable r = false ->
    toLowerTable r ≠ SPACE /\ uid_char (toLowerTable r) = false.
Hypothesis lower_of_replacement :
  toLowerTable RuneError ≠ SPACE /\ uid_char (toLowerTable RuneError) = false.

Lemma homogenise_non_graphic r :
  unicode_IsGraphic r = false -> homogenise_rune r = [95].
Proof.
  unfold unicode_IsGraphic, homogenise_rune, unicode_ToLower.
  destruct (r <=? 127) eqn:E1.
  - intros Hg.
    destruct ((65 <=? r) && (r <=? 90)) eqn:E2; [lia|].
    unfold SPACE. destruct (r =? 32) eqn:E3; [lia|].
    destruct (uid_char r) eqn:E4; [|done].
    apply uid_char_ascii in E4 as E5. unfold uid_char in E4. lia.
  - intros Hg. apply Z.leb_gt in E1.
    destruct (lower_of_non_graphic r E1 Hg) as [Hsp Hu].
    rewrite Hu. destruct (toLowerTable r =? SPACE) eqn:E; [|done].
    by apply Z.eqb_eq in E.
Qed.

Lemma homogenise_replacement : homogenise_rune RuneError = [95].
Proof.
  unfold homogenise_rune, unicode_ToLower.
  change (RuneError <=? 127) with false. cbv iota.
  destruct lower_of_replacement as [Hsp Hu].
  rewrite Hu. destruct (toLowerTable RuneError =? SPACE) eqn:E; [|done].
  by apply Z.eqb_eq in E.
Qed.

Lemma homogenise_pasteurised x :
  flat_map homogenise_rune
    (List.map (fun r => if unicode_IsGraphic r then r else RuneError) x)
  = flat_map homogenise_rune x.
Proof.
  induction x as [|r x IH]; [done|].
  simpl. rewrite IH. f_equal.
  destruct (unicode_IsGraphic r) eqn:E; [done|].
  by rewrite homogenise_replacement, homogenise_non_graphic.
Qed.

(** C7.  [HomogeniseUsername] is idempotent, and homogenising a
    pasteurised name gives what homogenising the name itself
    gives. *)
Theorem HomogeniseUsername_idempotent_and_absorbs (x : list rune) :
  HomogeniseUsername (HomogeniseUsername x) = HomogeniseUsername x /\
  HomogeniseUsername (fst (PasteuriseUsername x)) = HomogeniseUsername x.
Proof.
  split.
  - rewrite (HomogeniseUsername_flat_map (HomogeniseUsername x)).
    apply homogenise_fixes_uids, HomogeniseUsername_uids.
  - unfold PasteuriseUsername. simpl.
    rewrite !HomogeniseUsername_flat_map.
    by rewrite homogenise_pasteurised, homogenise_Trim.
Qed.

End Absorption.

(** ** Fetching with a duplicate *)

(** C8.  On a transaction that has fetched nothing yet, asking for a,
    b, a when the store holds both accounts and neither is held
    returns three pointers in the order asked, the first and the third
    being the same one; the backend decodes two accounts into two
    fresh objects and holds the two uids. *)
Theorem GetServers_a_b_a (w : World) (ea eb : EncodedServer) (sa sb : Server) :
  db (database w) !! str "a" = Some ea ->
  db (database w) !! str "b" = Some eb ->
  str "a" ∉ dblock (database w) ->
  str "b" ∉ dblock (database w) ->
  Decode ea = Ret sa -> UID sa = str "a" ->
  Decode eb = Ret sb -> UID sb = str "b" ->
  let p0 := fresh (dom (heap w)) in
  let p1 := fresh (dom (<[p0 := sa]> (heap w))) in
  exists w' tr',
    GetServers (mkDbTransaction None) [str "a"; str "b"; str "a"] w
      = (w', Ret (tr', ([p0; p1; p0], true, []))) /\
    p0 ≠ p1 /\ heap w !! p0 = None /\ heap w !! p1 = None /\
    heap w' = <[p1 := sb]> (<[p0 := sa]> (heap w)) /\
    servers tr' = Some (<[str "b" := p1]> (<[str "a" := p0]> ∅)) /\
    dblock (database w') = {[ str "a"; str "b" ]} ∪ dblock (database w).
Proof.
  intros Ha Hb Hla Hlb Hda Hua Hdb Hub p0 p1.
  assert (Hp0 : heap w !! p0 = None).
  { apply not_elem_of_dom. apply is_fresh. }
  assert (Hp1' : <[p0 := sa]> (heap w) !! p1 = None).
  { apply not_elem_of_dom. apply is_fresh. }
  assert (Hne : p0 ≠ p1).
  { intros Heq. rewrite <- Heq, lookup_insert_eq in Hp1'. done. }
  assert (Hp1 : heap w !! p1 = None).
  { by rewrite lookup_insert_ne in Hp1'. }
  unfold GetServers. cbn [servers]. cbv iota.
  change (1 <? len [str "a"; str "b"; str "a"]) with true. cbv iota.
  assert (Hdd : dedup_loop (length [str "a"; str "b"; str "a"]) 0
                  [str "a"; str "b"; str "a"] ∅ 0 false
                = ([str "a"; str "b"; str "a"], 2%nat, true)).
  { vm_compute. reflexivity. }
  rewrite Hdd. clear Hdd. cbv iota beta.
  change (take 2 [str "a"; str "b"; str "a"]) with [str "a"; str "b"].
  set (w2 := mkWorld (<[p1 := sb]> (<[p0 := sa]> (heap w))) (idgen w) (spawned w)
               (printed w)
               (mkPlaintextDatabase (db (database w))
                  (list_to_set [str "a"; str "b"] ∪ dblock (database w)))).
  assert (Hfetch : db_GetServers [str "a"; str "b"] w
                   = (w2, Ret ([p0; p1], true, []))).
  { unfold db_GetServers, bind, Lock.
    change (List.map HomogeniseUsername [str "a"; str "b"])
      with [str "a"; str "b"].
    rewrite bool_decide_eq_false_2.
    2:{ intros HE. apply Exists_cons in HE as [?|HE]; [done|].
        apply Exists_cons in HE as [?|HE]; [done|]. by apply Exists_nil in HE. }
    unfold fetch_loop, bind, alloc, ret. simpl.
    rewrite Ha, Hda. simpl. rewrite Hb, Hdb. done. }
  unfold bind at 1. rewrite Hfetch. cbv iota beta.
  assert (Hcache : cache_servers [p0; p1] ∅ w2
                   = (w2, Ret (<[str "b" := p1]> (<[str "a" := p0]> ∅)))).
  { unfold cache_servers, bind, deref, ret. simpl.
    rewrite (lookup_insert_ne _ p1 p0) by done.
    rewrite lookup_insert_eq. simpl.
    rewrite lookup_insert_eq. by rewrite Hua, Hub. }
  unfold bind. rewrite Hcache. simpl.
  assert (Hget : getFromCache
                   (mkDbTransaction (Some (<[str "b" := p1]> (<[str "a" := p0]> ∅))))
                   [str "a"; str "b"; str "a"]
                 = ([p0; p1; p0], true, [])).
  { assert (Hba : str "b" ≠ str "a") by discriminate.
    unfold getFromCache. cbn [servers default from_option id getFromCache_loop].
    rewrite lookup_insert_ne by done.
    rewrite !lookup_insert_eq. done. }
  rewrite Hget.
  exists w2, (mkDbTransaction (Some (<[str "b" := p1]> (<[str "a" := p0]> ∅)))).
  repeat split; try done.
Qed.

End LedgerProofs.

(** * Further properties of the code *)

Section LedgerMore.

Context `{UnicodeTables}.

(** ** Encoding *)

Lemma Decode_Encode_reloaded (s : Server) : Decode (Encode s) = Ret (reloaded s).
Proof.
  unfold Decode, Encode, reloaded, CurrencyFromInt. simpl.
  by destruct (balance s), (targetBalance s).
Qed.

(** X1.  Decoding the encoding of a server gives the server back with
    its uid recomputed from its name and the modified bit cleared, and
    encoding that again gives the same encoding. *)
Theorem Decode_Encode (s : Server) :
  Decode (Encode s) = Ret (reloaded s) /\ Encode (reloaded s) = Encode s.
Proof.
  split; [|done].
  unfold Decode, Encode, reloaded, CurrencyFromInt. simpl.
  by destruct (balance s), (targetBalance s).
Qed.

(** ** The rolling history *)

Lemma take_app_take {A} (n : nat) (a b : list A) :
  take n (a ++ take n b) = take n (a ++ b).
Proof.
  rewrite !take_app. f_equal. rewrite take_take. f_equal. lia.
Qed.

Lemma AddToHistory_take transaction s :
  (length (history s) <= 10)%nat ->
  history (fst (AddToHistory transaction s)) = take 10 (transaction :: history s).
Proof.
  intros Hl. rewrite AddToHistory_history. unfold len.
  destruct (Z.of_nat (length (history s)) <? 10) eqn:E.
  - apply Z.ltb_lt in E. simpl. by rewrite take_ge by lia.
  - apply Z.ltb_ge in E. simpl. f_equal.
    rewrite removelast_firstn_len.
    replace (pred (length (history s))) with 9%nat by lia. done.
Qed.

(** X2.  After any number of [AddToHistory] calls the history holds the
    ten newest entries, newest first: the transactions added, last one
    first, followed by the older history, cut after ten. *)
Theorem AddToHistory_rolling_window (txs : list Transaction) (s : Server) :
  (length (history s) <= 10)%nat ->
  history (fold_left (fun s tx => fst (AddToHistory tx s)) txs s)
  = take 10 (rev txs ++ history s).
Proof.
  revert s. induction txs as [|tx txs IH]; intros s Hl; simpl.
  - by rewrite take_ge by lia.
  - rewrite IH.
    + rewrite AddToHistory_take by done.
      rewrite take_app_take. by rewrite <- app_assoc.
    + rewrite AddToHistory_take by done. rewrite length_take. lia.
Qed.

(** ** The pending inbox *)

Lemma find_pending_first id p k i t :
  find_pending id p k = Some (i, t) ->
  exists j, i = (k + j)%nat /\ p !! j = Some t /\ ID t = id /\
    forall j' t', (j' < j)%nat -> p !! j' = Some t' -> ID t' ≠ id.
Proof.
  revert k. induction p as [|x p IH]; intros k Hf; [done|].
  simpl in Hf. destruct (bool_decide (ID x = id)) eqn:E.
  - injection Hf as <- <-. apply bool_decide_eq_true_1 in E.
    exists 0%nat. repeat split; [lia|done|]. intros; lia.
  - apply bool_decide_eq_false_1 in E.
    apply IH in Hf as (j & -> & Hj & Hid & Hmin).
    exists (S j). repeat split; [lia|done|done|].
    intros [|j'] t' Hlt Hl; simpl in Hl; [by injection Hl as <-|].
    apply (Hmin j'); [lia|done].
Qed.

Lemma find_pending_is_Some id p k :
  id ∈ (ID <$> p) -> is_Some (find_pending id p k).
Proof.
  revert k. induction p as [|x p IH]; intros k Hin; [by apply elem_of_nil in Hin|].
  simpl. destruct (bool_decide (ID x = id)) eqn:E; [by eexists|].
  apply bool_decide_eq_false_1 in E.
  rewrite fmap_cons in Hin. apply elem_of_cons in Hin as [Heq|Hin]; [congruence|].
  by apply IH.
Qed.

(** X3.  When the id is pending, [removeAndReturnPendingTransaction]
    returns the first transaction that carries it, deletes that one
    entry, keeps the others in their order and sets the modified bit. *)
Theorem removeAndReturnPendingTransaction_present (id : list rune) (s : Server) :
  id ∈ (ID <$> pendingTransactions s) ->
  exists i t,
    pendingTransactions s !! i = Some t /\ ID t = id /\
    (forall j t', (j < i)%nat -> pendingTransactions s !! j = Some t' -> ID t' ≠ id) /\
    removeAndReturnPendingTransaction id s
    = (set_modified
         (set_pendingTransactions s (delete i (pendingTransactions s))) true,
       Some t).
Proof.
  intros Hin.
  destruct (find_pending_is_Some id _ 0%nat Hin) as [[i t] Hf].
  pose proof (removeAndReturnPendingTransaction_Some _ _ _ _ Hf) as Hp.
  unfold removeAndReturnPendingTransaction in *. rewrite Hf in *. simpl in Hp.
  apply find_pending_first in Hf as (j & -> & Hj & Hid & Hmin). simpl in *.
  exists j, t. repeat split; [done|done|done|].
  f_equal. unfold set_modified, set_pendingTransactions. simpl.
  rewrite Hp. by rewrite delete_take_drop.
Qed.


(** ** User names *)

(** X5.  A uid consists of the runes a-z, 0-9 and the underscore only,
    is never longer than the name, and is left alone by
    [HomogeniseUsername]. *)
Theorem HomogeniseUsername_alphabet (x : list rune) :
  Forall (fun r => uid_char r = true) (HomogeniseUsername x) /\
  (length (HomogeniseUsername x) <= length x)%nat /\
  (Forall (fun r => uid_char r = true) x -> HomogeniseUsername x = x).
Proof.
  split; [apply HomogeniseUsername_uids|]. split.
  - unfold HomogeniseUsername. rewrite !length_map.
    induction x as [|r x IH]; [done|]. simpl.
    destruct (negb (unicode_ToLower r =? SPACE)); simpl; lia.
  - intros Hx. rewrite HomogeniseUsername_flat_map.
    by apply homogenise_fixes_uids.
Qed.

Lemma rev_is_reverse {A} (l : list A) : rev l = reverse l.
Proof. unfold reverse. apply rev_alt. Qed.

Lemma TrimLeft_space_head s : head (TrimLeft_space s) ≠ Some SPACE.
Proof.
  induction s as [|r s IH]; [done|]. simpl.
  destruct (r =? SPACE) eqn:E; [done|]. simpl. intros [= ->]. by rewrite Z.eqb_refl in E.
Qed.

Lemma TrimLeft_space_id s : head s ≠ Some SPACE -> TrimLeft_space s = s.
Proof.
  destruct s as [|r s]; [done|]. simpl. intros Hh.
  destruct (r =? SPACE) eqn:E; [|done]. apply Z.eqb_eq in E as ->. done.
Qed.

Lemma TrimLeft_space_last s :
  last (TrimLeft_space s) = None \/ last (TrimLeft_space s) = last s.
Proof.
  induction s as [|r s IH]; [by left|]. simpl.
  destruct (r =? SPACE); [|by right].
  destruct IH as [IH|IH]; [by left|].
  destruct s as [|r' s]; [by left|]. right. by rewrite IH, last_cons_cons.
Qed.

Lemma TrimLeft_space_length s : (length (TrimLeft_space s) <= length s)%nat.
Proof.
  induction s as [|r s IH]; [done|]. simpl.
  destruct (r =? SPACE); simpl; lia.
Qed.

Lemma Trim_space_ends s :
  head (Trim_space s) ≠ Some SPACE /\ last (Trim_space s) ≠ Some SPACE.
Proof.
  unfold Trim_space. rewrite (rev_is_reverse (TrimLeft_space _)).
  rewrite head_reverse, last_reverse. split; [|apply TrimLeft_space_head].
  destruct (TrimLeft_space_last (rev (TrimLeft_space s))) as [->| ->]; [done|].
  rewrite rev_is_reverse, last_reverse. apply TrimLeft_space_head.
Qed.

Lemma Trim_space_id s :
  head s ≠ Some SPACE -> last s ≠ Some SPACE -> Trim_space s = s.
Proof.
  intros Hh Hl. unfold Trim_space.
  rewrite (TrimLeft_space_id s) by done.
  rewrite (TrimLeft_space_id (rev s)).
  - apply rev_involutive.
  - by rewrite rev_is_reverse, head_reverse.
Qed.

Lemma Trim_space_length s : (length (Trim_space s) <= length s)%nat.
Proof.
  unfold Trim_space. rewrite length_rev.
  etrans; [apply TrimLeft_space_length|]. rewrite length_rev.
  apply TrimLeft_space_length.
Qed.

Lemma head_map_not_space (f : rune -> rune) s :
  (forall r, f r = SPACE -> r = SPACE) ->
  head s ≠ Some SPACE -> head (List.map f s) ≠ Some SPACE.
Proof.
  intros Hf. destruct s as [|r s]; [done|]. simpl.
  intros Hh [= Hr]. apply Hf in Hr. by subst.
Qed.

Lemma last_map_not_space (f : rune -> rune) s :
  (forall r, f r = SPACE -> r = SPACE) ->
  last s ≠ Some SPACE -> last (List.map f s) ≠ Some SPACE.
Proof.
  intros Hf. induction s as [|r s IH]; [done|].
  destruct s as [|r' s].
  - simpl. intros Hh [= Hr]. apply Hf in Hr. by subst.
  - change (List.map f (r :: r' :: s)) with (f r :: f r' :: List.map f s).
    rewrite !last_cons_cons. apply IH.
Qed.

(** X6.  [PasteuriseUsername] returns as count the number of runes of
    its result, which is at most that of the name; the result neither
    starts nor ends with a space; pasteurising it again changes
    nothing. *)
Theorem PasteuriseUsername_clean (x : list rune) :
  let r := PasteuriseUsername x in
  snd r = len (fst r) /\ snd r <= len x /\
  head (fst r) ≠ Some SPACE /\ last (fst r) ≠ Some SPACE /\
  PasteuriseUsername (fst r) = r.
Proof.
  unfold PasteuriseUsername. simpl.
  set (f := fun r : rune => if unicode_IsGraphic r then r else RuneError).
  assert (Hf : forall r, f r = SPACE -> r = SPACE).
  { intros r. unfold f. destruct (unicode_IsGraphic r); [done|discriminate]. }
  assert (Hff : forall r, f (f r) = f r).
  { intros r. unfold f. destruct (unicode_IsGraphic r) eqn:E; [by rewrite E|].
    by destruct (unicode_IsGraphic RuneError). }
  destruct (Trim_space_ends x) as [Hh Hl].
  pose proof (head_map_not_space f _ Hf Hh) as Hh'.
  pose proof (last_map_not_space f _ Hf Hl) as Hl'.
  unfold len. rewrite length_map.
  split; [done|]. split; [pose proof (Trim_space_length x); lia|].
  split; [done|]. split; [done|].
  rewrite (Trim_space_id _ Hh' Hl'). rewrite length_map. f_equal.
  rewrite map_map. apply map_ext. intros r. apply Hff.
Qed.

(** ** The inbox invariant *)

Lemma keeps_ret {A} I (a : A) : keeps I (ret a).
Proof. intros w Hw. done. Qed.

Lemma keeps_panic {A} I msg : keeps I (@panic A msg).
Proof. intros w Hw. done. Qed.

Lemma keeps_bind {A B} I (m : M A) (k : A -> M B) :
  keeps I m -> (forall a, keeps I (k a)) -> keeps I (bind m k).
Proof.
  intros Hm Hk w Hw. unfold bind.
  specialize (Hm w Hw). destruct (m w) as [w1 [a|msg|]]; simpl in *; try done.
  by apply Hk.
Qed.

Lemma keeps_same_heap {A} I (m : M A) :
  (forall w, heap (fst (m w)) = heap w) -> keeps I m.
Proof. intros Hm w Hw p s. rewrite Hm. apply Hw. Qed.

Lemma keeps_call {A} I p (f : Server -> Server * A) :
  (forall s, I s -> I (fst (f s))) -> keeps I (call p f).
Proof.
  intros Hf w Hw. unfold call, bind, deref, store, ret.
  destruct (heap w !! p) as [s|] eqn:E; simpl; [|done].
  intros q s' Hq. simpl in Hq.
  destruct (decide (p = q)) as [->|Hne].
  - rewrite lookup_insert_eq in Hq. injection Hq as <-. apply Hf. by eapply Hw.
  - rewrite lookup_insert_ne in Hq by done. by eapply Hw.
Qed.

Lemma keeps_getExchangeRate I p amount b : keeps I (getExchangeRate p amount b).
Proof.
  apply keeps_same_heap. intros w. unfold getExchangeRate, bind, deref, lift_option.
  destruct (heap w !! p) as [s|]; [|done]. simpl.
  by destruct (GetExchangeRate s amount b).
Qed.

Lemma keeps_makeTransaction I t draws a b c d e f g :
  keeps I (makeTransaction t draws a b c d e f g).
Proof.
  apply keeps_same_heap. intros w. unfold makeTransaction.
  by destruct (MakeTransaction _ _ _ _ _ _ _ _ _ _).
Qed.

Lemma keeps_addToHistory I p transaction :
  (forall s, I s -> I (fst (AddToHistory transaction s))) ->
  keeps I (addToHistory p transaction).
Proof.
  intros Hf. unfold addToHistory.
  apply keeps_bind; [by apply keeps_call|]. intros tasks. by apply keeps_same_heap.
Qed.

Lemma keeps_deref I p : keeps I (deref p).
Proof. apply keeps_same_heap. intros w. unfold deref. by destruct (heap w !! p). Qed.

(** [Pay] keeps what [ChangeBal] and [AddToHistory] keep. *)
Lemma keeps_Pay I sourceServer source target targetServer sentAmount
    localCurrency revertable t draws :
  (forall num s, I s -> I (fst (ChangeBal num s))) ->
  (forall tx s, I s -> I (fst (AddToHistory tx s))) ->
  keeps I (Pay sourceServer source target targetServer sentAmount
             localCurrency revertable t draws).
Proof.
  intros Hc Ha. unfold Pay, PasteuriseUsername.
  repeat first
    [ apply keeps_ret
    | apply keeps_call; intros ?; apply Hc
    | apply keeps_getExchangeRate
    | apply keeps_addToHistory; intros ?; apply Ha
    | apply keeps_makeTransaction
    | apply keeps_deref
    | by apply keeps_same_heap
    | apply keeps_bind; [|intros ?]
    | match goal with
      | |- keeps _ (if ?c then _ else _) => destruct c
      end ].
Qed.

Lemma ChangeBal_inbox num s : inbox_ok s -> inbox_ok (fst (ChangeBal num s)).
Proof. unfold ChangeBal. by destruct (LtZero _). Qed.

Lemma AddToHistory_inbox tx s : inbox_ok s -> inbox_ok (fst (AddToHistory tx s)).
Proof.
  unfold inbox_ok, AddToHistory. cbv zeta. intros Hs.
  match goal with
  | |- context [if ?c || ?d then _ else _] => destruct (c || d) eqn:E
  end; [done|].
  apply orb_false_elim in E as [E1 E2].
  apply bool_decide_eq_false_1 in E1. apply bool_decide_eq_false_1 in E2.
  assert (Hnew : Forall (fun t => TargetServer t = Name s /\ Target t ≠ [])
                   (pendingTransactions s ++ [tx])).
  { apply Forall_app_2; [done|]. constructor; [|done]. simpl in E1. split; [|done].
    destruct (decide (Name s = TargetServer tx)); [done|]. by destruct E1. }
  match goal with
  | |- context [if bool_decide ?P then _ else _] => destruct (bool_decide P)
  end; exact Hnew.
Qed.

Lemma removeAndReturnPendingTransaction_inbox id s :
  inbox_ok s -> inbox_ok (fst (removeAndReturnPendingTransaction id s)).
Proof.
  intros Hs. unfold inbox_ok.
  destruct (find_pending id (pendingTransactions s) 0) as [[i t]|] eqn:Hf.
  - rewrite (removeAndReturnPendingTransaction_Some _ _ _ _ Hf).
    unfold removeAndReturnPendingTransaction. rewrite Hf. simpl.
    apply Forall_app_2; [by apply Forall_take|by apply Forall_drop].
  - unfold removeAndReturnPendingTransaction. by rewrite Hf.
Qed.

Lemma exec_inbox o w :
  (forall p s, heap w !! p = Some s -> inbox_ok s) ->
  forall p s, heap (exec o w) !! p = Some s -> inbox_ok s.
Proof.
  destruct o; simpl.
  - apply keeps_call. intros s. apply ChangeBal_inbox.
  - apply keeps_addToHistory. intros s. apply AddToHistory_inbox.
  - apply keeps_Pay; [apply ChangeBal_inbox|apply AddToHistory_inbox].
  - apply keeps_call. intros s. apply removeAndReturnPendingTransaction_inbox.
  - unfold rejectPendingTransaction. apply keeps_bind.
    + apply keeps_call. intros s Hs. unfold RejectPendingTransaction.
      destruct tr; [|done].
      pose proof (removeAndReturnPendingTransaction_inbox id s Hs) as Hr.
      destruct (removeAndReturnPendingTransaction id s) as [s' [t|]];
        [destruct (Revertable t)|]; exact Hr.
    + intros [tasks|msg|]; by apply keeps_same_heap.
  - unfold removeFirstPendingTransactions. apply keeps_bind.
    + apply keeps_call. intros s Hs. unfold RemoveFirstPendingTransactions.
      destruct (amount <? 1); [done|]. simpl.
      destruct (len (pendingTransactions s) <? amount); [done|].
      unfold inbox_ok. simpl. by apply Forall_drop.
    + intros [u|msg|]; by apply keeps_same_heap.
Qed.

(** X7.  If every pending transaction of every account is addressed to
    that account's name and to a user that is not empty, the same holds
    after each operation of any sequence of [ChangeBal],
    [AddToHistory], [Pay] and the pending-transaction operations. *)
Theorem inbox_invariant_after_each_operation (ops : list Op) (w : World) :
  (forall p s, heap w !! p = Some s -> inbox_ok s) ->
  Forall (fun w' => forall p s, heap w' !! p = Some s -> inbox_ok s)
    (trace ops w).
Proof.
  revert w. induction ops as [|o ops IH]; intros w Hw; simpl.
  - constructor.
  - pose proof (exec_inbox o w Hw) as Hw'.
    constructor; [exact Hw'|]. apply IH. exact Hw'.
Qed.

(** ** Exchange rates *)

Lemma fin_round_FFin p neg n d e :
  exists q e', BigFloat.fin_round p neg n d e = BigFloat.FFin p neg q e'.
Proof.
  unfold BigFloat.fin_round. destruct (BigFloat.round_quot p n d) as [q e'].
  by eexists _, _.
Qed.

Lemma Quo_by_finite x p n m e : is_Some (BigFloat.Quo x (BigFloat.FFin p n m e)).
Proof. destruct x; by eexists. Qed.

Lemma Quo_of_finite p n m e y : is_Some (BigFloat.Quo (BigFloat.FFin p n m e) y).
Proof. destruct y; by eexists. Qed.

Lemma Mul_by_finite x p n m e : is_Some (BigFloat.Mul x (BigFloat.FFin p n m e)).
Proof. destruct x; by eexists. Qed.

Lemma Mul_of_finite p n m e y : is_Some (BigFloat.Mul (BigFloat.FFin p n m e) y).
Proof. destruct y; by eexists. Qed.

Lemma Add_of_finite p n m e y : is_Some (BigFloat.Add (BigFloat.FFin p n m e) y).
Proof.
  destruct y; try by eexists.
  unfold BigFloat.Add. destruct (_ =? 0); by eexists.
Qed.

Lemma f100_finite : f100 = BigFloat.FFin 53 false 100 0.
Proof. reflexivity. Qed.

Lemma f2_finite : f2 = BigFloat.FFin 53 false 2 0.
Proof. reflexivity. Qed.

Lemma Float_is_Some c : is_Some (Float c).
Proof. unfold Float. rewrite f100_finite. apply Quo_by_finite. Qed.

Lemma Float_finite c :
  raw c ≠ 0 -> exists p n m e, Float c = Some (BigFloat.FFin p n m e).
Proof.
  intros Hc. unfold Float, BigFloat.SetInt. rewrite f100_finite.
  rewrite (proj2 (Z.eqb_neq _ _) Hc).
  unfold BigFloat.Quo, BigFloat.QuoP.
  match goal with
  | |- context [BigFloat.fin_round ?p ?neg ?n ?d ?e] =>
      destruct (fin_round_FFin p neg n d e) as (q & e' & ->)
  end.
  by eexists _, _, _, _.
Qed.

Lemma CurrencyFromFloat_is_Some x : is_Some (CurrencyFromFloat x).
Proof.
  unfold CurrencyFromFloat. rewrite f100_finite.
  destruct (Mul_by_finite x 53 false 100 0) as [f ->]. by eexists.
Qed.

Lemma Div_finite a b :
  raw a ≠ 0 -> raw b ≠ 0 -> exists p n m e, Div a b = Some (BigFloat.FFin p n m e).
Proof.
  intros Ha Hb. unfold Div.
  destruct (Float_finite a Ha) as (pa & na & ma & ea & ->).
  destruct (Float_finite b Hb) as (pb & nb & mb & eb & ->). cbn [mbind option_bind].
  unfold BigFloat.Quo, BigFloat.QuoP.
  match goal with
  | |- context [BigFloat.fin_round ?p ?neg ?n ?d ?e] =>
      destruct (fin_round_FFin p neg n d e) as (q & e' & ->)
  end.
  by eexists _, _, _, _.
Qed.

Lemma Div_of_nonzero a b : raw a ≠ 0 -> is_Some (Div a b).
Proof.
  intros Ha. unfold Div.
  destruct (Float_finite a Ha) as (pa & na & ma & ea & ->).
  destruct (Float_is_Some b) as [y ->]. simpl. apply Quo_of_finite.
Qed.

Lemma IsZero_false c : IsZero c = false -> raw c ≠ 0.
Proof.
  unfold IsZero, big_Cmp, i0. intros Hz Hc. rewrite Hc in Hz. done.
Qed.

(** X8.  [GetExchangeRate] returns for every account, amount and
    direction: none of its big.Float operations meets the undefined
    cases (0/0, Inf/Inf, 0*Inf, Inf-Inf) that make math/big panic. *)
Theorem GetExchangeRate_returns (s : Server) (amount : Currency) (toLurkcoin : bool) :
  is_Some (GetExchangeRate s amount toLurkcoin).
Proof.
  unfold GetExchangeRate.
  destruct (IsZero amount || IsZero (targetBalance s)) eqn:Ez; [by eexists|].
  apply orb_false_elim in Ez as [Ha Ht].
  apply IsZero_false in Ha. apply IsZero_false in Ht.
  assert (Hbal : exists bal,
    (if negb (GtZero (balance s)) then CurrencyFromString (str "0.01")
     else Some (balance s)) = Some bal /\ raw bal ≠ 0).
  { destruct (GtZero (balance s)) eqn:Eg; simpl.
    - exists (balance s). split; [done|]. apply GtZero_spec in Eg. lia.
    - exists (mkCurrency 1). split; [|done]. vm_compute. reflexivity. }
  destruct Hbal as (bal & -> & Hbal). cbn [mbind option_bind].
  destruct (Div_finite _ _ Ht Hbal) as (pb & nb & mb & eb & ->). cbn [mbind option_bind].
  destruct (Float_finite amount Ha) as (pa & na & ma & ea & Hfa).
  assert (Hadj : is_Some
    (if toLurkcoin
     then a ← Float amount;
          q ← BigFloat.Quo a (BigFloat.FFin pb nb mb eb);
          c ← CurrencyFromFloat q; Some (Sub bal c)
     else Some (Add bal amount))).
  { destruct toLurkcoin; [|by eexists].
    rewrite Hfa. cbn [mbind option_bind].
    destruct (Quo_by_finite (BigFloat.FFin pa na ma ea) pb nb mb eb) as [q ->]. cbn [mbind option_bind].
    destruct (CurrencyFromFloat_is_Some q) as [c ->]. by eexists. }
  destruct Hadj as [adj_bal ->]. cbn [mbind option_bind].
  destruct (Div_of_nonzero (targetBalance s) adj_bal Ht) as [d ->]. cbn [mbind option_bind].
  destruct (Add_of_finite pb nb mb eb d) as [preemptive ->]. cbn [mbind option_bind].
  destruct (Quo_by_finite preemptive 53 false 2 0) as [exchange Hex].
  rewrite f2_finite, Hex. cbn [mbind option_bind].
  rewrite Hfa. cbn [mbind option_bind].
  assert (Hres : is_Some
    (if toLurkcoin then BigFloat.Quo (BigFloat.FFin pa na ma ea) exchange
     else BigFloat.Mul (BigFloat.FFin pa na ma ea) exchange)).
  { destruct toLurkcoin; [apply Quo_of_finite|apply Mul_of_finite]. }
  destruct Hres as [res ->]. cbn [mbind option_bind].
  destruct (CurrencyFromFloat_is_Some res) as [c ->]. by eexists.
Qed.

(** ** The exits of [Pay] *)

Lemma Gt_false a b : Gt a b = false <-> raw a <= raw b.
Proof.
  unfold Gt, Cmp, big_Cmp.
  destruct (raw a ?= raw b) eqn:E; simpl;
    [apply Z.compare_eq_iff in E | rewrite Z.compare_lt_iff in E
    | rewrite Z.compare_gt_iff in E]; split; intros; try lia; try done.
Qed.

Lemma raw_transactionLimit : raw transactionLimit = 10000000000000.
Proof. reflexivity. Qed.

Lemma set_heap_same w : set_heap w (heap w) = w.
Proof. by destruct w. Qed.

Lemma makeTransaction_fields t draws a b c d e f g w w' tx :
  makeTransaction t draws a b c d e f g w = (w', Ret tx) ->
  heap w' = heap w /\ printed w' = printed w /\
  tx = mkTransaction (ID tx) a b c d e f g t false.
Proof.
  unfold makeTransaction, MakeTransaction, GenerateTransactionID.
  destruct (first_unseen _ draws); [|done].
  destruct (if lastTime (idgen w) <? t then _ else _); [|done].
  by intros [= <- <-].
Qed.

Lemma addToHistory_printed p transaction w w' u :
  addToHistory p transaction w = (w', Ret u) -> printed w' = printed w.
Proof.
  unfold addToHistory. intros Ha.
  apply bind_Ret_inv in Ha as (tasks & w1 & Hc & Hg).
  apply call_Ret_inv in Hc as (s & Hs & -> & _).
  by injection Hg as <- _.
Qed.

Ltac pay_case H E :=
  match type of H with
  | (if ?c then _ else _) _ = _ => destruct c eqn:E
  end.

Lemma ChangeBal_Name num s : Name (fst (ChangeBal num s)) = Name s.
Proof. unfold ChangeBal. by destruct (LtZero _). Qed.

(** What a payment that went through looks like. *)
Lemma Pay_ok_inv sourceServer source target targetServer sentAmount
    localCurrency revertable t draws w w' tx :
  Pay sourceServer source target targetServer sentAmount localCurrency
    revertable t draws w = (w', Ret (PayOk tx)) ->
  exists amount receivedAmount s tg id,
    tx = mkTransaction id (fst (PasteuriseUsername source)) (Name s)
           (fst (PasteuriseUsername target)) (Name tg) amount sentAmount
           receivedAmount t revertable /\
    heap w !! sourceServer = Some s /\ heap w !! targetServer = Some tg /\
    (localCurrency = false -> amount = sentAmount) /\
    GtZero sentAmount = true /\ GtZero amount = true /\
    GtZero receivedAmount = true /\
    Gt sentAmount transactionLimit = false /\
    Gt amount transactionLimit = false /\
    Gt receivedAmount transactionLimit = false /\
    printed w' = printed w ++ [tx].
Proof.
  unfold Pay, PasteuriseUsername. cbn [fst]. intros HP.
  pay_case HP E1; [done|]. pay_case HP E2; [done|].
  apply bind_Ret_inv in HP as (amount & w1 & Hamt & HP).
  assert (w1 = w /\ (localCurrency = false -> amount = sentAmount)) as [-> Hlc].
  { destruct localCurrency.
    - split; [by apply getExchangeRate_Ret_inv in Hamt|done].
    - by apply ret_Ret_inv in Hamt as [-> ->]. }
  clear Hamt.
  pay_case HP E3; [done|]. pay_case HP E4; [done|].
  apply orb_false_elim in E3 as [Hs1 Hs2].
  apply negb_false_iff in Hs1. apply negb_false_iff in Hs2.
  apply orb_false_elim in E4 as [Hl1 Hl2].
  apply bind_Ret_inv in HP as (success & w1 & Hdebit & HP).
  apply call_Ret_inv in Hdebit as (s & Hs & -> & ->).
  pay_case HP E5; [done|].
  apply bind_Ret_inv in HP as (receivedAmount & w1 & Hrecv & HP).
  apply getExchangeRate_Ret_inv in Hrecv as ->.
  pay_case HP E6; [done|]. pay_case HP E7; [done|].
  apply negb_false_iff in E6.
  apply bind_Ret_inv in HP as (success & w1 & Hcredit & HP).
  apply call_Ret_inv in Hcredit as (tg & Htg & -> & ->). cbn [heap set_heap] in Htg.
  pay_case HP E8.
  { apply bind_Ret_inv in HP as (? & ? & _ & HP). by apply ret_Ret_inv in HP as [_ ?]. }
  apply bind_Ret_inv in HP as (sourceName & w1 & Hsn & HP).
  apply bind_Ret_inv in Hsn as (s2 & ? & Hd & Hr).
  apply deref_Ret_inv in Hd as [-> Hs2']. apply ret_Ret_inv in Hr as [-> ->].
  apply bind_Ret_inv in HP as (targetName & w1 & Htn & HP).
  apply bind_Ret_inv in Htn as (tg2 & ? & Hd & Hr).
  apply deref_Ret_inv in Hd as [-> Htg2']. apply ret_Ret_inv in Hr as [-> ->].
  cbn [heap set_heap] in Hs2', Htg2'.
  apply bind_Ret_inv in HP as (transaction & w1 & Hmk & HP).
  apply makeTransaction_fields in Hmk as (Hh1 & Hp1 & Htx).
  cbn [heap printed set_heap] in Hh1, Hp1.
  apply bind_Ret_inv in HP as (u1 & w2 & Hsrc & HP).
  apply bind_Ret_inv in HP as (u2 & w3 & Htgt & HP).
  apply bind_Ret_inv in HP as (u3 & w4 & Hlog & HP).
  apply ret_Ret_inv in HP as [-> [= ->]].
  injection Hlog as <-. cbn [printed].
  apply addToHistory_printed in Htgt.
  assert (Hp2 : printed w2 = printed w1).
  { destruct (bool_decide (sourceServer ≠ targetServer)).
    - by apply addToHistory_printed in Hsrc.
    - by apply ret_Ret_inv in Hsrc as [-> _]. }
  assert (Hnames : exists s0 tg0,
    heap w !! sourceServer = Some s0 /\ heap w !! targetServer = Some tg0 /\
    Name s2 = Name s0 /\ Name tg2 = Name tg0).
  { destruct (decide (sourceServer = targetServer)) as [<-|Hne].
    - rewrite lookup_insert_eq in Htg. injection Htg as <-.
      rewrite lookup_insert_eq in Hs2', Htg2'.
      injection Hs2' as <-. injection Htg2' as <-.
      exists s, s. rewrite !ChangeBal_Name. done.
    - rewrite lookup_insert_ne in Htg by done.
      rewrite lookup_insert_ne, lookup_insert_eq in Hs2' by done.
      rewrite lookup_insert_eq in Htg2'.
      injection Hs2' as <-. injection Htg2' as <-.
      exists s, tg. rewrite !ChangeBal_Name. done. }
  destruct Hnames as (s0 & tg0 & Hs0 & Htg0 & Hn1 & Hn2).
  exists amount, receivedAmount, s0, tg0, (ID transaction).
  rewrite Htgt, Hp2, Hp1. rewrite <- Hn1, <- Hn2.
  repeat split; try done.
  rewrite Htx at 1. by destruct revertable.
Qed.

(** X9.  A transaction that [Pay] returns carries the pasteurised user
    names, the names of the two accounts, the amount as sent, the flag
    and the second it was made in; its three amounts are above zero and
    at most the limit of 100,000,000,000.00; it is the last line of the
    log. *)
Theorem Pay_ok_transaction sourceServer source target targetServer sentAmount
    localCurrency revertable t draws w w' tx :
  Pay sourceServer source target targetServer sentAmount localCurrency
    revertable t draws w = (w', Ret (PayOk tx)) ->
  Source tx = fst (PasteuriseUsername source) /\
  Target tx = fst (PasteuriseUsername target) /\
  (exists s tg, heap w !! sourceServer = Some s /\ heap w !! targetServer = Some tg /\
     SourceServer tx = Name s /\ TargetServer tx = Name tg) /\
  SentAmount tx = sentAmount /\ Revertable tx = revertable /\ Time tx = t /\
  (localCurrency = false -> Amount tx = sentAmount) /\
  0 < raw (SentAmount tx) <= 10000000000000 /\
  0 < raw (Amount tx) <= 10000000000000 /\
  0 < raw (ReceivedAmount tx) <= 10000000000000 /\
  printed w' = printed w ++ [tx].
Proof.
  intros HP.
  apply Pay_ok_inv in HP
    as (amount & recv & s & tg & id & -> & Hs & Htg & Hlc & G1 & G2 & G3
        & L1 & L2 & L3 & Hpr).
  apply GtZero_spec in G1, G2, G3.
  apply Gt_false in L1, L2, L3. rewrite raw_transactionLimit in L1, L2, L3.
  simpl. repeat split; try done; try lia.
  by exists s, tg.
Qed.

Ltac pay_exit HP :=
  apply ret_Ret_inv in HP as [? HP]; try (injection HP as HP); try discriminate HP.

(** X10.  While no balance of the heap is negative, [Pay] never returns
    ERR_INTERNALERROR: the credit of the target cannot fail. *)
Theorem Pay_never_InternalError sourceServer source target targetServer sentAmount
    localCurrency revertable t draws w :
  (forall p s, heap w !! p = Some s -> 0 <= raw (balance s)) ->
  snd (Pay sourceServer source target targetServer sentAmount localCurrency
         revertable t draws w) ≠ Ret (PayErr "ERR_INTERNALERROR").
Proof.
  intros Hw Hres.
  destruct (Pay _ _ _ _ _ _ _ _ _ w) as [w' r] eqn:HP. simpl in Hres. subst r.
  unfold Pay, PasteuriseUsername in HP. cbn [fst] in HP.
  pay_case HP E1; [by pay_exit HP|]. pay_case HP E2; [by pay_exit HP|].
  apply bind_Ret_inv in HP as (amount & w1 & Hamt & HP).
  assert (w1 = w) as ->.
  { destruct localCurrency.
    - by apply getExchangeRate_Ret_inv in Hamt.
    - by apply ret_Ret_inv in Hamt as [-> _]. }
  pay_case HP E3; [by pay_exit HP|]. pay_case HP E4; [by pay_exit HP|].
  apply orb_false_elim in E3 as [_ Hpos]. apply negb_false_iff in Hpos.
  apply GtZero_spec in Hpos.
  apply bind_Ret_inv in HP as (success & w1 & Hdebit & HP).
  apply call_Ret_inv in Hdebit as (s & Hs & -> & ->).
  pay_case HP E5; [by pay_exit HP|].
  apply negb_false_iff in E5.
  destruct (ChangeBal (Neg amount) s) as [s1 ok] eqn:Hcb. simpl in E5. subst ok.
  apply ChangeBal_true in Hcb as [Hge ->]. cbn [fst] in HP.
  apply bind_Ret_inv in HP as (receivedAmount & w1 & Hrecv & HP).
  apply getExchangeRate_Ret_inv in Hrecv as ->.
  pay_case HP E6; [by pay_exit HP|]. pay_case HP E7; [by pay_exit HP|].
  apply bind_Ret_inv in HP as (success & w1 & Hcredit & HP).
  apply call_Ret_inv in Hcredit as (tg & Htg & -> & ->). cbn [heap set_heap] in Htg.
  assert (Htg0 : 0 <= raw (balance tg)).
  { destruct (decide (sourceServer = targetServer)) as [<-|Hne].
    - rewrite lookup_insert_eq in Htg. injection Htg as <-. exact Hge.
    - rewrite lookup_insert_ne in Htg by done. by eapply Hw. }
  assert (Hok : snd (ChangeBal amount tg) = true).
  { unfold ChangeBal.
    destruct (LtZero (Add (balance tg) amount)) eqn:El; [|done].
    apply LtZero_spec in El. simpl in El. lia. }
  rewrite Hok in HP. cbn [negb] in HP.
  apply bind_Ret_inv in HP as (? & ? & _ & HP).
  apply bind_Ret_inv in HP as (? & ? & _ & HP).
  apply bind_Ret_inv in HP as (? & ? & _ & HP).
  apply bind_Ret_inv in HP as (? & ? & _ & HP).
  apply bind_Ret_inv in HP as (? & ? & _ & HP).
  apply bind_Ret_inv in HP as (? & ? & _ & HP).
  by pay_exit HP.
Qed.

(** X11.  When [Pay] rejects a payment for a user name that is too
    long, for an amount that is not above zero or for a balance that
    does not suffice, it leaves the whole world as it was; and it
    answers ERR_CANNOTAFFORD only if the balance of the source is below
    the base amount, which is the amount sent when that is not in the
    local currency. *)
Theorem Pay_validation_errors_change_nothing sourceServer source target
    targetServer sentAmount localCurrency revertable t draws w w' code :
  Pay sourceServer source target targetServer sentAmount localCurrency
    revertable t draws w = (w', Ret (PayErr code)) ->
  (code = "ERR_SOURCEUSERNAMETOOLONG"%string \/ code = "ERR_USERNAMETOOLONG"%string \/
   code = "ERR_INVALIDAMOUNT"%string \/ code = "ERR_CANNOTAFFORD"%string) ->
  w' = w /\
  (code = "ERR_CANNOTAFFORD"%string ->
   exists s, heap w !! sourceServer = Some s /\
     (localCurrency = false -> raw (balance s) < raw sentAmount)).
Proof.
  intros HP Hcode.
  assert (Hnot : code ≠ "ERR_TRANSACTIONLIMIT"%string /\
                 code ≠ "ERR_CANNOTPAYNOTHING"%string /\
                 code ≠ "ERR_INTERNALERROR"%string).
  { destruct Hcode as [->|[->|[->| ->]]]; done. }
  destruct Hnot as (N1 & N2 & N3).
  unfold Pay, PasteuriseUsername in HP. cbn [fst] in HP.
  pay_case HP E1.
  { apply ret_Ret_inv in HP as [-> [= ->]]. done. }
  pay_case HP E2.
  { apply ret_Ret_inv in HP as [-> [= ->]]. done. }
  apply bind_Ret_inv in HP as (amount & w1 & Hamt & HP).
  assert (w1 = w /\ (localCurrency = false -> amount = sentAmount)) as [-> Hlc].
  { destruct localCurrency.
    - split; [by apply getExchangeRate_Ret_inv in Hamt|done].
    - by apply ret_Ret_inv in Hamt as [-> ->]. }
  pay_case HP E3.
  { apply ret_Ret_inv in HP as [-> [= ->]]. done. }
  pay_case HP E4.
  { apply ret_Ret_inv in HP as [-> [= ->]]. done. }
  apply bind_Ret_inv in HP as (success & w1 & Hdebit & HP).
  apply call_Ret_inv in Hdebit as (s & Hs & -> & ->).
  pay_case HP E5.
  { apply ret_Ret_inv in HP as [-> _].
    apply negb_true_iff in E5.
    destruct (ChangeBal (Neg amount) s) as [s1 ok] eqn:Hcb. simpl in E5. subst ok.
    pose proof (ChangeBal_false _ _ _ Hcb) as ->. cbn [fst].
    rewrite insert_id by done. split; [apply set_heap_same|].
    intros _. exists s. split; [done|]. intros Hl. rewrite <- (Hlc Hl).
    unfold ChangeBal in Hcb.
    destruct (LtZero (Add (balance s) (Neg amount))) eqn:El; [|done].
    apply LtZero_spec in El. simpl in El. unfold i0 in El. lia. }
  apply bind_Ret_inv in HP as (receivedAmount & w1 & Hrecv & HP).
  pay_case HP E6.
  { apply ret_Ret_inv in HP as [_ [= ->]]. done. }
  pay_case HP E7.
  { apply ret_Ret_inv in HP as [_ [= ->]]. done. }
  apply bind_Ret_inv in HP as (success' & w2 & Hcredit & HP).
  pay_case HP E8.
  { apply bind_Ret_inv in HP as (? & ? & _ & HP).
    apply ret_Ret_inv in HP as [_ [= ->]]. done. }
  apply bind_Ret_inv in HP as (? & ? & _ & HP).
  apply bind_Ret_inv in HP as (? & ? & _ & HP).
  apply bind_Ret_inv in HP as (? & ? & _ & HP).
  apply bind_Ret_inv in HP as (? & ? & _ & HP).
  apply bind_Ret_inv in HP as (? & ? & _ & HP).
  apply bind_Ret_inv in HP as (? & ? & _ & HP).
  by apply ret_Ret_inv in HP as [_ ?].
Qed.

(** ** A payment at a fixed rate goes through *)

Lemma bind_Ret_run {A B} (m : M A) (k : A -> M B) w w1 a :
  m w = (w1, Ret a) -> bind m k w = k a w1.
Proof. unfold bind. by intros ->. Qed.

Lemma call_run {A} p (f : Server -> Server * A) w s :
  heap w !! p = Some s ->
  call p f w = (set_heap w (<[p := fst (f s)]> (heap w)), Ret (snd (f s))).
Proof. intros Hs. unfold call, bind, deref, store, ret. by rewrite Hs. Qed.

Lemma getExchangeRate_fixed p amount b w s :
  heap w !! p = Some s -> IsZero (targetBalance s) = true ->
  getExchangeRate p amount b w = (w, Ret amount).
Proof.
  intros Hs Hz. unfold getExchangeRate, bind, deref, lift_option, GetExchangeRate.
  rewrite Hs, Hz, orb_true_r. done.
Qed.

Lemma addToHistory_run p transaction w s :
  heap w !! p = Some s ->
  exists w', addToHistory p transaction w = (w', Ret tt) /\
    heap w' = <[p := fst (AddToHistory transaction s)]> (heap w) /\
    idgen w' = idgen w.
Proof.
  intros Hs. unfold addToHistory.
  rewrite (bind_Ret_run _ _ _ _ _ (call_run p _ w s Hs)).
  unfold go. by eexists.
Qed.

(** X12.  A payment in the base currency between two distinct accounts
    goes through when: both user names have at most 48 runes once
    trimmed, the amount is above zero, at most the limit and at most
    the balance of the source, the target has a fixed rate and a balance
    that is not negative, the clock is past [lastTime] and the generator
    delivers a draw.  The target receives the amount as sent, the source
    has that much less and the target that much more. *)
Theorem Pay_fixed_rate_goes_through sourceServer source target targetServer
    sentAmount revertable t d draws w s tg :
  len (Trim_space source) <= 48 -> len (Trim_space target) <= 48 ->
  sourceServer ≠ targetServer ->
  heap w !! sourceServer = Some s -> heap w !! targetServer = Some tg ->
  IsZero (targetBalance tg) = true ->
  0 < raw sentAmount <= 10000000000000 ->
  raw sentAmount <= raw (balance s) -> 0 <= raw (balance tg) ->
  lastTime (idgen w) < t ->
  exists w' s' tg',
    Pay sourceServer source target targetServer sentAmount false revertable
      t (d :: draws) w
    = (w', Ret (PayOk
         (mkTransaction (str "T" ++ fmt_X t ++ str "-" ++ fmt_08X (Uint32 d))
            (fst (PasteuriseUsername source)) (Name s)
            (fst (PasteuriseUsername target)) (Name tg)
            sentAmount sentAmount sentAmount t revertable))) /\
    heap w' !! sourceServer = Some s' /\ heap w' !! targetServer = Some tg' /\
    raw (balance s') = raw (balance s) - raw sentAmount /\
    raw (balance tg') = raw (balance tg) + raw sentAmount.
Proof.
  intros Hls Hlt Hne Hs Htg Hfix [Hpos Hlim] Hbal Htg0 Htime.
  unfold Pay, PasteuriseUsername. cbn [fst].
  rewrite (proj2 (Z.ltb_ge 48 _)) by lia.
  rewrite (proj2 (Z.ltb_ge 48 _)) by lia.
  rewrite (bind_Ret_run _ _ w w sentAmount) by done.
  rewrite (proj2 (GtZero_spec sentAmount)) by done. cbn [negb orb].
  assert (Hgt : Gt sentAmount transactionLimit = false).
  { apply Gt_false. by rewrite raw_transactionLimit. }
  rewrite Hgt. cbn [orb].
  rewrite (bind_Ret_run _ _ _ _ _ (call_run sourceServer _ w s Hs)).
  assert (Hdebit : ChangeBal (Neg sentAmount) s
    = (set_modified (set_balance s (Add (balance s) (Neg sentAmount))) true, true)).
  { unfold ChangeBal.
    destruct (LtZero (Add (balance s) (Neg sentAmount))) eqn:El; [|done].
    apply LtZero_spec in El. simpl in El. unfold i0 in El. lia. }
  rewrite Hdebit. cbn [fst snd negb].
  set (s1 := set_modified (set_balance s (Add (balance s) (Neg sentAmount))) true).
  set (w1 := set_heap w (<[sourceServer := s1]> (heap w))).
  assert (Htg1 : heap w1 !! targetServer = Some tg).
  { unfold w1. cbn [heap set_heap]. by rewrite lookup_insert_ne. }
  rewrite (bind_Ret_run _ _ _ _ _
             (getExchangeRate_fixed targetServer sentAmount false w1 tg Htg1 Hfix)).
  rewrite (proj2 (GtZero_spec sentAmount)) by done. cbn [negb].
  rewrite Hgt.
  rewrite (bind_Ret_run _ _ _ _ _ (call_run targetServer _ w1 tg Htg1)).
  assert (Hcredit : ChangeBal sentAmount tg
    = (set_modified (set_balance tg (Add (balance tg) sentAmount)) true, true)).
  { unfold ChangeBal.
    destruct (LtZero (Add (balance tg) sentAmount)) eqn:El; [|done].
    apply LtZero_spec in El. simpl in El. lia. }
  rewrite Hcredit. cbn [fst snd negb].
  set (tg1 := set_modified (set_balance tg (Add (balance tg) sentAmount)) true).
  set (w2 := set_heap w1 (<[targetServer := tg1]> (heap w1))).
  assert (Hs2 : heap w2 !! sourceServer = Some s1).
  { unfold w2, w1. cbn [heap set_heap].
    by rewrite lookup_insert_ne, lookup_insert_eq. }
  assert (Htg2 : heap w2 !! targetServer = Some tg1).
  { unfold w2. cbn [heap set_heap]. by rewrite lookup_insert_eq. }
  assert (Hd1 : deref sourceServer w2 = (w2, Ret s1)).
  { unfold deref. by rewrite Hs2. }
  assert (Hd2 : deref targetServer w2 = (w2, Ret tg1)).
  { unfold deref. by rewrite Htg2. }
  rewrite (bind_Ret_run _ _ w2 w2 (Name s1)).
  2:{ by rewrite (bind_Ret_run _ _ _ _ _ Hd1). }
  rewrite (bind_Ret_run _ _ w2 w2 (Name tg1)).
  2:{ by rewrite (bind_Ret_run _ _ _ _ _ Hd2). }
  set (tx0 := mkTransaction (str "T" ++ fmt_X t ++ str "-" ++ fmt_08X (Uint32 d))
                (List.map (fun r => if unicode_IsGraphic r then r else RuneError)
                   (Trim_space source)) (Name s1)
                (List.map (fun r => if unicode_IsGraphic r then r else RuneError)
                   (Trim_space target)) (Name tg1)
                sentAmount sentAmount sentAmount t false).
  set (w3 := set_idgen w2 (mkIdGen (lastTime (idgen w2))
                             (Some ({[ Uint32 d ]} ∪ ∅)))).
  assert (Hmk : makeTransaction t (d :: draws)
                  (List.map (fun r => if unicode_IsGraphic r then r else RuneError)
                     (Trim_space source)) (Name s1)
                  (List.map (fun r => if unicode_IsGraphic r then r else RuneError)
                     (Trim_space target)) (Name tg1)
                  sentAmount sentAmount sentAmount w2 = (w3, Ret tx0)).
  { unfold makeTransaction, MakeTransaction, GenerateTransactionID.
    assert (Hlt' : (lastTime (idgen w2) <? t) = true) by (apply Z.ltb_lt; exact Htime).
    rewrite Hlt'. cbn [first_unseen map_has].
    rewrite bool_decide_eq_false_2 by apply not_elem_of_empty. done. }
  rewrite (bind_Ret_run _ _ _ _ _ Hmk).
  set (tx := if revertable then set_Revertable tx0 true else tx0).
  rewrite bool_decide_eq_true_2 by done.
  assert (Hs3 : heap w3 !! sourceServer = Some s1) by exact Hs2.
  destruct (addToHistory_run sourceServer tx w3 s1 Hs3) as (w4 & Ha1 & Hh4 & _).
  rewrite (bind_Ret_run _ _ _ _ _ Ha1).
  assert (Htg4 : heap w4 !! targetServer = Some tg1).
  { rewrite Hh4. rewrite lookup_insert_ne by done. exact Htg2. }
  destruct (addToHistory_run targetServer tx w4 tg1 Htg4) as (w5 & Ha2 & Hh5 & _).
  rewrite (bind_Ret_run _ _ _ _ _ Ha2).
  unfold bind, log_Print, ret.
  eexists _, _, _. split; [|split; [|split]].
  - f_equal. f_equal. f_equal. unfold tx, tx0. by destruct revertable.
  - cbn [heap]. rewrite Hh5, Hh4.
    by rewrite lookup_insert_ne, lookup_insert_eq.
  - cbn [heap]. rewrite Hh5. by rewrite lookup_insert_eq.
  - rewrite !AddToHistory_balance. unfold s1, tg1. simpl. unfold i0. lia.
Qed.

(** ** The lock table *)

Lemma map_is_fmap {A B} (f : A -> B) (l : list A) : List.map f l = f <$> l.
Proof. induction l as [|x l IH]; [done|]. simpl. by rewrite IH. Qed.

Lemma set_dblock_same w : set_dblock w (dblock (database w)) = w.
Proof. destruct w as [h g sp pr [d l]]. done. Qed.

Lemma UnlockIDs_held ids : forall w,
  NoDup ids -> (forall id, id ∈ ids -> id ∈ dblock (database w)) ->
  UnlockIDs ids w
  = (set_dblock w (dblock (database w) ∖ list_to_set ids), Ret tt).
Proof.
  induction ids as [|id ids IH]; intros w Hnd Hheld.
  - simpl. unfold ret. f_equal.
    replace (dblock (database w) ∖ ∅) with (dblock (database w)) by set_solver.
    by rewrite set_dblock_same.
  - apply NoDup_cons in Hnd as [Hnotin Hnd]. simpl.
    rewrite bool_decide_eq_true_2 by (apply Hheld; left).
    change (set_database w (mkPlaintextDatabase (db (database w))
              (dblock (database w) ∖ {[id]})))
      with (set_dblock w (dblock (database w) ∖ {[id]})).
    rewrite IH; [|done|].
    + f_equal. unfold set_dblock, set_database. simpl. do 2 f_equal. set_solver.
    + intros id' Hin. simpl. apply elem_of_difference. split; [apply Hheld; by right|].
      intros ->%elem_of_singleton. done.
Qed.

Lemma UnlockIDs_missing ids : forall w,
  Exists (fun id => id ∉ dblock (database w)) ids ->
  exists w', UnlockIDs ids w
             = (w', Panic "invalid memory address or nil pointer dereference").
Proof.
  induction ids as [|id ids IH]; intros w Hex; [by apply Exists_nil in Hex|].
  simpl. destruct (bool_decide (id ∈ dblock (database w))) eqn:E; [|by eexists].
  apply bool_decide_eq_true_1 in E.
  apply Exists_cons in Hex as [Hex|Hex]; [done|].
  apply IH. eapply Exists_impl; [exact Hex|]. simpl. intros id' Hn. set_solver.
Qed.

Lemma UnlockIDs_duplicate ids : forall w,
  ¬ NoDup ids ->
  exists w', UnlockIDs ids w
             = (w', Panic "invalid memory address or nil pointer dereference").
Proof.
  induction ids as [|id ids IH]; intros w Hnd; [destruct Hnd; constructor|].
  simpl. destruct (bool_decide (id ∈ dblock (database w))) eqn:E; [|by eexists].
  destruct (decide (id ∈ ids)) as [Hin|Hnotin].
  - apply UnlockIDs_missing. apply Exists_exists. exists id. split; [done|].
    simpl. set_solver.
  - apply IH. intros Hnd'. apply Hnd. by constructor.
Qed.

(** X13.  Taking the locks of a batch of names and releasing the uids
    returned puts the lock table back when the names have distinct uids;
    when two of them share a uid the batch is granted all the same and
    the release panics on the mutex that is no longer there. *)
Theorem Lock_then_UnlockIDs (names : list (list rune)) (w : World) :
  (forall name, name ∈ names -> HomogeniseUsername name ∉ dblock (database w)) ->
  (NoDup (HomogeniseUsername <$> names) ->
     bind (Lock names) UnlockIDs w = (w, Ret tt)) /\
  (¬ NoDup (HomogeniseUsername <$> names) ->
     exists w', bind (Lock names) UnlockIDs w
                = (w', Panic "invalid memory address or nil pointer dereference")).
Proof.
  intros Hfree.
  pose proof (map_is_fmap HomogeniseUsername names) as Hmap.
  assert (Hlock : Lock names w
    = (set_dblock w (list_to_set (HomogeniseUsername <$> names)
                       ∪ dblock (database w)),
       Ret (HomogeniseUsername <$> names))).
  { unfold Lock. rewrite Hmap. rewrite bool_decide_eq_false_2; [done|].
    intros (id & Hin & Hheld)%Exists_exists.
    apply list_elem_of_fmap in Hin as (name & -> & Hin). by apply (Hfree name). }
  split; intros Hnd; unfold bind; rewrite Hlock.
  - rewrite UnlockIDs_held; [|done|].
    + f_equal. unfold set_dblock, set_database. simpl.
      replace ((list_to_set (HomogeniseUsername <$> names) ∪ dblock (database w))
                 ∖ list_to_set (HomogeniseUsername <$> names))
        with (dblock (database w)).
      * by destruct w as [h g sp pr [d l]].
      * apply set_eq. intros id. rewrite elem_of_difference, elem_of_union.
        rewrite elem_of_list_to_set. split; [|tauto]. intros Hin. split; [tauto|].
        intros (name & -> & Hn)%list_elem_of_fmap. by apply (Hfree name).
    + intros id Hin. simpl. set_solver.
  - by apply UnlockIDs_duplicate.
Qed.

(** ** Fetching from the backend *)

Lemma alloc_fresh s w p s' :
  heap w !! p = Some s' ->
  heap (fst (alloc s w)) !! p = Some s'.
Proof.
  intros Hp. unfold alloc. simpl.
  rewrite lookup_insert_ne; [done|].
  intros <-. pose proof (is_fresh (dom (heap w))) as Hf.
  apply not_elem_of_dom in Hf. congruence.
Qed.

Lemma fetch_loop_found ids : forall acc w,
  (forall id, id ∈ ids ->
     exists e s, db (database w) !! id = Some e /\ Decode e = Ret s) ->
  exists w' ptrs,
    fetch_loop ids acc w = (w', Ret (inl (acc ++ ptrs))) /\
    database w' = database w /\
    (forall p s, heap w !! p = Some s -> heap w' !! p = Some s) /\
    Forall (fun p => heap w !! p = None) ptrs /\ NoDup ptrs /\
    Forall2 (fun id p => exists e s, db (database w) !! id = Some e /\
                           Decode e = Ret s /\ heap w' !! p = Some s) ids ptrs.
Proof.
  induction ids as [|id ids IH]; intros acc w Hall.
  - exists w, []. rewrite app_nil_r. repeat split; try done; constructor.
  - destruct (Hall id ltac:(left)) as (e & s & He & Hd).
    simpl. rewrite He, Hd. unfold bind at 1.
    set (p0 := fresh (dom (heap w))).
    set (w1 := set_heap w (<[p0 := s]> (heap w))).
    change (alloc s w) with (w1, @Ret nat p0). cbv iota beta.
    assert (Hp0 : heap w !! p0 = None).
    { apply not_elem_of_dom. apply is_fresh. }
    destruct (IH (acc ++ [p0]) w1) as (w' & ptrs & Hrun & Hdb & Hmono & Hnew & Hnd & Hcont).
    { intros id' Hin. apply Hall. by right. }
    exists w', (p0 :: ptrs). rewrite Hrun, <- app_assoc. simpl.
    assert (Hp0' : heap w' !! p0 = Some s).
    { apply Hmono. unfold w1. simpl. apply lookup_insert_eq. }
    repeat split; try done.
    + intros p s' Hp. apply Hmono. unfold w1. simpl.
      rewrite lookup_insert_ne; [done|]. intros <-. congruence.
    + constructor; [done|]. eapply Forall_impl; [exact Hnew|]. simpl.
      intros p Hp. unfold w1 in Hp. simpl in Hp.
      apply lookup_insert_None in Hp as [Hp _]. done.
    + constructor; [|done]. intros Hin.
      rewrite Forall_forall in Hnew. specialize (Hnew p0 Hin).
      unfold w1 in Hnew. simpl in Hnew. by rewrite lookup_insert_eq in Hnew.
    + constructor; [by exists e, s|]. exact Hcont.
Qed.

Lemma fetch_loop_missing pre : forall id0 post acc w,
  (forall id, id ∈ pre ->
     exists e s, db (database w) !! id = Some e /\ Decode e = Ret s) ->
  db (database w) !! id0 = None ->
  exists w',
    fetch_loop (pre ++ id0 :: post) acc w = (w', Ret (inr id0)) /\
    database w' = database w /\
    (forall p s, heap w !! p = Some s -> heap w' !! p = Some s).
Proof.
  induction pre as [|id pre IH]; intros id0 post acc w Hall Hmiss.
  - simpl. rewrite Hmiss. by exists w.
  - destruct (Hall id ltac:(left)) as (e & s & He & Hd).
    simpl. rewrite He, Hd. unfold bind at 1.
    set (w1 := fst (alloc s w)).
    change (alloc s w) with (w1, @Ret nat (fresh (dom (heap w)))). cbv iota beta.
    destruct (IH id0 post (acc ++ [fresh (dom (heap w))]) w1) as (w' & Hrun & Hdb & Hmono).
    { intros id' Hin. apply Hall. by right. }
    { exact Hmiss. }
    exists w'. repeat split; try done.
    intros p s' Hp. apply Hmono. by apply alloc_fresh.
Qed.

Lemma Lock_free names w :
  (forall name, name ∈ names -> HomogeniseUsername name ∉ dblock (database w)) ->
  Lock names w
  = (set_dblock w (list_to_set (HomogeniseUsername <$> names) ∪ dblock (database w)),
     Ret (HomogeniseUsername <$> names)).
Proof.
  intros Hfree. unfold Lock. rewrite map_is_fmap.
  rewrite bool_decide_eq_false_2; [done|].
  intros (id & Hin & Hheld)%Exists_exists.
  apply list_elem_of_fmap in Hin as (name & -> & Hin). by apply (Hfree name).
Qed.

(** X14.  When none of the uids is held and the store has an entry that
    decodes for every name, [plaintextDatabase.GetServers] returns one
    object per name, each fresh and distinct from the others, holding
    what the entry of its uid decodes to, and holds the uids; the store
    and the objects there were are untouched.  Two names of one account
    get two objects. *)
Theorem db_GetServers_found (names : list (list rune)) (w : World) :
  (forall name, name ∈ names -> HomogeniseUsername name ∉ dblock (database w)) ->
  (forall name, name ∈ names ->
     exists e s, db (database w) !! HomogeniseUsername name = Some e /\
                 Decode e = Ret s) ->
  exists w' ptrs,
    db_GetServers names w = (w', Ret (ptrs, true, [])) /\
    Forall2 (fun name p =>
               exists e s, db (database w) !! HomogeniseUsername name = Some e /\
                           Decode e = Ret s /\ heap w' !! p = Some s)
            names ptrs /\
    Forall (fun p => heap w !! p = None) ptrs /\ NoDup ptrs /\
    (forall p s, heap w !! p = Some s -> heap w' !! p = Some s) /\
    db (database w') = db (database w) /\
    dblock (database w')
      = list_to_set (HomogeniseUsername <$> names) ∪ dblock (database w).
Proof.
  intros Hfree Hall. unfold db_GetServers, bind.
  rewrite (Lock_free names w Hfree).
  set (w0 := set_dblock w _).
  destruct (fetch_loop_found (HomogeniseUsername <$> names) [] w0)
    as (w' & ptrs & Hrun & Hdb & Hmono & Hnew & Hnd & Hcont).
  { intros id (name & -> & Hin)%list_elem_of_fmap. by apply Hall. }
  rewrite Hrun. simpl. exists w', ptrs. rewrite Hdb.
  repeat split; try done.
  apply Forall2_fmap_l in Hcont. exact Hcont.
Qed.

(** X15.  When a name has no entry in the store while the names before
    it have, [plaintextDatabase.GetServers] answers false with the uid
    of that name and gives back every lock it took: the store and the
    lock table are as before. *)
Theorem db_GetServers_missing (pre post : list (list rune)) (name0 : list rune)
    (w : World) :
  (forall name, name ∈ pre ++ name0 :: post ->
     HomogeniseUsername name ∉ dblock (database w)) ->
  NoDup (HomogeniseUsername <$> pre ++ name0 :: post) ->
  (forall name, name ∈ pre ->
     exists e s, db (database w) !! HomogeniseUsername name = Some e /\
                 Decode e = Ret s) ->
  db (database w) !! HomogeniseUsername name0 = None ->
  exists w',
    db_GetServers (pre ++ name0 :: post) w
      = (w', Ret ([], false, HomogeniseUsername name0)) /\
    database w' = database w /\
    (forall p s, heap w !! p = Some s -> heap w' !! p = Some s).
Proof.
  intros Hfree Hnd Hall Hmiss. unfold db_GetServers, bind.
  rewrite (Lock_free _ w Hfree).
  set (ids := HomogeniseUsername <$> pre ++ name0 :: post) in *.
  set (w0 := set_dblock w (list_to_set ids ∪ dblock (database w))).
  assert (Hids : ids = (HomogeniseUsername <$> pre)
                       ++ HomogeniseUsername name0 :: (HomogeniseUsername <$> post)).
  { unfold ids. by rewrite fmap_app, fmap_cons. }
  destruct (fetch_loop_missing (HomogeniseUsername <$> pre) (HomogeniseUsername name0)
              (HomogeniseUsername <$> post) [] w0)
    as (w1 & Hrun & Hdb & Hmono).
  { intros id (name & -> & Hin)%list_elem_of_fmap. by apply Hall. }
  { exact Hmiss. }
  rewrite Hids, Hrun, <- Hids. cbv iota beta.
  rewrite UnlockIDs_held; [|done|].
  - eexists. split; [reflexivity|]. split; [|exact Hmono].
    unfold set_dblock, set_database. simpl. rewrite Hdb. unfold w0. simpl.
    replace ((list_to_set ids ∪ dblock (database w)) ∖ list_to_set ids)
      with (dblock (database w)).
    + by destruct (database w).
    + apply set_eq. intros id. rewrite elem_of_difference, elem_of_union.
      rewrite elem_of_list_to_set. split; [|tauto]. intros Hin. split; [tauto|].
      intros (name & -> & Hn)%list_elem_of_fmap. by apply (Hfree name).
  - intros id Hin. rewrite Hdb. unfold w0. simpl.
    apply elem_of_union. left. by apply elem_of_list_to_set.
Qed.

(** ** The transaction in front of the backend *)

Lemma singleton_lock (id : list rune) (d : gset (list rune)) :
  list_to_set [id] ∪ d = {[ id ]} ∪ d.
Proof. simpl. by rewrite (right_id_L ∅ (∪)). Qed.

Lemma lock_released (id : list rune) (d : gset (list rune)) :
  id ∉ d -> (list_to_set [id] ∪ d) ∖ list_to_set [id] = d.
Proof.
  intros Hn. apply set_eq. intros x.
  rewrite elem_of_difference, elem_of_union, elem_of_list_to_set,
    list_elem_of_singleton.
  split; [tauto|]. intros Hx. split; [tauto|]. by intros ->.
Qed.

Lemma Lock_one name w :
  HomogeniseUsername name ∉ dblock (database w) ->
  Lock [name] w
  = (set_dblock w ({[ HomogeniseUsername name ]} ∪ dblock (database w)),
     Ret [HomogeniseUsername name]).
Proof.
  intros Hfree. rewrite Lock_free.
  - by rewrite <- singleton_lock.
  - by intros ? ->%list_elem_of_singleton.
Qed.

Lemma db_GetServers_one_found name w e s :
  HomogeniseUsername name ∉ dblock (database w) ->
  db (database w) !! HomogeniseUsername name = Some e ->
  Decode e = Ret s ->
  db_GetServers [name] w
  = (set_heap (set_dblock w ({[ HomogeniseUsername name ]} ∪ dblock (database w)))
       (<[fresh (dom (heap w)) := s]> (heap w)),
     Ret ([fresh (dom (heap w))], true, [])).
Proof.
  intros Hfree He Hd. unfold db_GetServers.
  rewrite (bind_Ret_run _ _ _ _ _ (Lock_one name w Hfree)).
  unfold bind at 1. cbn [fetch_loop].
  change (db (database (set_dblock w _))) with (db (database w)).
  rewrite He, Hd. reflexivity.
Qed.

Lemma db_GetServers_one_missing name w :
  HomogeniseUsername name ∉ dblock (database w) ->
  db (database w) !! HomogeniseUsername name = None ->
  db_GetServers [name] w = (w, Ret ([], false, HomogeniseUsername name)).
Proof.
  intros Hfree He. unfold db_GetServers.
  rewrite (bind_Ret_run _ _ _ _ _ (Lock_one name w Hfree)).
  unfold bind at 1. cbn [fetch_loop].
  change (db (database (set_dblock w _))) with (db (database w)).
  rewrite He. cbv iota beta. unfold bind.
  rewrite UnlockIDs_held.
  - unfold ret. f_equal. unfold set_dblock at 1. cbn [database set_dblock set_database dblock db].
    rewrite <- singleton_lock, lock_released by done.
    destruct w as [h g sp pr [d l]]. done.
  - apply NoDup_singleton.
  - intros id ->%list_elem_of_singleton. simpl. set_solver.
Qed.

Lemma GetServers_first_single name w :
  GetServers BeginDbTransaction [name] w
  = bind (db_GetServers [name])
      (fun r => let '(servers, ok, badServer) := r in
         bind (if ok : bool then cache_servers servers ∅ else ret ∅)
           (fun cache => ret (mkDbTransaction (Some cache),
                              (servers, ok, badServer)))) w.
Proof. reflexivity. Qed.

Lemma Decode_UID e s : Decode e = Ret s -> UID s = HomogeniseUsername (Name s).
Proof.
  unfold Decode. destruct (0 <? eVersion e); [done|].
  destruct (eBalance e), (eTargetBalance e); try done. by intros [= <-].
Qed.

Lemma GetServers_first_found name w e s :
  HomogeniseUsername name ∉ dblock (database w) ->
  db (database w) !! HomogeniseUsername name = Some e ->
  Decode e = Ret s ->
  GetServers BeginDbTransaction [name] w
  = (set_heap (set_dblock w ({[ HomogeniseUsername name ]} ∪ dblock (database w)))
       (<[fresh (dom (heap w)) := s]> (heap w)),
     Ret (mkDbTransaction (Some {[ UID s := fresh (dom (heap w)) ]}),
          ([fresh (dom (heap w))], true, []))).
Proof.
  intros Hfree He Hd. rewrite GetServers_first_single.
  rewrite (bind_Ret_run _ _ _ _ _ (db_GetServers_one_found name w e s Hfree He Hd)).
  cbn [cache_servers]. unfold bind, deref. cbn [heap set_heap].
  rewrite lookup_insert_eq. unfold ret. by rewrite insert_empty.
Qed.

Lemma GetServers_first_missing name w :
  HomogeniseUsername name ∉ dblock (database w) ->
  db (database w) !! HomogeniseUsername name = None ->
  GetServers BeginDbTransaction [name] w
  = (w, Ret (mkDbTransaction (Some ∅), ([], false, HomogeniseUsername name))).
Proof.
  intros Hfree He. rewrite GetServers_first_single.
  by rewrite (bind_Ret_run _ _ _ _ _ (db_GetServers_one_missing name w Hfree He)).
Qed.

(** X16.  [GetOneServer] on a transaction that has fetched nothing, for
    a name whose uid is not held and whose entry decodes: the result is
    a fresh object holding the decoded account, the uid is held, the
    store is unchanged, and from then on the transaction answers for the
    account out of its cache, to [GetCachedServer] under any spelling of
    the name and to [GetOneServer] under the uid, without touching the
    world. *)
Theorem GetOneServer_then_cached (name : list rune) (w : World)
    (e : EncodedServer) (s : Server) :
  HomogeniseUsername name ∉ dblock (database w) ->
  db (database w) !! HomogeniseUsername name = Some e ->
  Decode e = Ret s ->
  exists w' tr' p,
    GetOneServer BeginDbTransaction name w = (w', Ret (tr', (Some p, true))) /\
    heap w !! p = None /\ heap w' = <[p := s]> (heap w) /\
    db (database w') = db (database w) /\
    dblock (database w') = {[ HomogeniseUsername name ]} ∪ dblock (database w) /\
    (forall name', HomogeniseUsername name' = UID s ->
       GetCachedServer tr' name' = (Some p, true)) /\
    GetOneServer tr' (UID s) w' = (w', Ret (tr', (Some p, true))).
Proof.
  intros Hfree He Hd.
  set (p := fresh (dom (heap w))).
  assert (Hp : heap w !! p = None) by (apply not_elem_of_dom, is_fresh).
  eexists _, (mkDbTransaction (Some {[ UID s := p ]})), p.
  split; [|split; [exact Hp|]].
  - unfold GetOneServer.
    by rewrite (bind_Ret_run _ _ _ _ _ (GetServers_first_found name w e s Hfree He Hd)).
  - repeat split.
    + intros name' Hn. unfold GetCachedServer. cbn [servers default from_option id].
      by rewrite Hn, lookup_singleton_eq.
    + unfold GetOneServer, GetServers, getFromCache, bind.
      cbn [servers default from_option id getFromCache_loop].
      by rewrite lookup_singleton_eq.
Qed.

(** X17.  [GetOneServer] on a transaction that has fetched nothing, for
    a name without an entry whose uid is not held: it answers false and
    leaves the world as it was, the lock given back.  The transaction
    has then an empty cache, and every later [GetServers] of it for at
    least one name panics. *)
Theorem GetOneServer_missing_then_panics (name : list rune) (w : World) :
  HomogeniseUsername name ∉ dblock (database w) ->
  db (database w) !! HomogeniseUsername name = None ->
  exists tr',
    GetOneServer BeginDbTransaction name w = (w, Ret (tr', (None, false))) /\
    forall names w1, names <> [] ->
      GetServers tr' names w1
      = (w1, Panic "Multiple calls to GetServers() on DatabaseTransaction.").
Proof.
  intros Hfree He. exists (mkDbTransaction (Some ∅)). split.
  - unfold GetOneServer.
    by rewrite (bind_Ret_run _ _ _ _ _ (GetServers_first_missing name w Hfree He)).
  - intros [|n names] w1 Hne; [done|].
    unfold GetServers, getFromCache.
    cbn [servers default from_option id getFromCache_loop].
    by rewrite lookup_empty.
Qed.

(** X18.  [DatabaseTransaction.CreateServer], the uid of the pasteurised
    name not being held.  When the store has no entry for the uid, the
    result is a fresh object: an account of that uid and name with
    balance zero, the default target balance of 500000.00, no history,
    the token drawn, the modified bit set; the uid is held, the object
    is in the cache under the uid and the store has still no entry.
    When the store has an entry, the answer is nil and false and the
    world is as before. *)
Theorem tr_CreateServer_cases (tr : DatabaseTransaction) (name token : list rune)
    (w : World) :
  let n := fst (PasteuriseUsername name) in
  let id := HomogeniseUsername n in
  id ∉ dblock (database w) ->
  (db (database w) !! id = None ->
     exists w' p,
       tr_CreateServer tr name token w
       = (w', Ret (mkDbTransaction (Some (<[id := p]> (default ∅ (servers tr)))),
                   (Some p, true))) /\
       heap w !! p = None /\
       heap w' = <[p := mkServer id n (CurrencyFromInt 0) (CurrencyFromInt 50000000)
                         [] [] token [] true]> (heap w) /\
       db (database w') = db (database w) /\
       dblock (database w') = {[ id ]} ∪ dblock (database w)) /\
  (is_Some (db (database w) !! id) ->
     tr_CreateServer tr name token w
     = (w, Ret (mkDbTransaction (Some (default ∅ (servers tr))), (None, false)))).
Proof.
  intros n id Hfree. split.
  - intros Hnone. eexists _, (fresh (dom (heap w))).
    split; [|split; [apply not_elem_of_dom, is_fresh|]].
    + unfold tr_CreateServer, db_CreateServer. fold n.
      unfold bind at 1 2. rewrite (Lock_one n w Hfree). cbv iota beta.
      change (db (database (set_dblock w _))) with (db (database w)).
      fold id. rewrite Hnone. reflexivity.
    + done.
  - intros [e He].
    unfold tr_CreateServer, db_CreateServer. fold n.
    unfold bind at 1 2. rewrite (Lock_one n w Hfree). cbv iota beta.
    change (db (database (set_dblock w _))) with (db (database w)).
    fold id. rewrite He. unfold bind.
    rewrite UnlockIDs_held.
    + unfold ret. f_equal. cbn [database set_dblock set_database dblock db].
      rewrite <- singleton_lock, lock_released by done.
      destruct w as [h g sp pr [d l]]. done.
    + apply NoDup_singleton.
    + intros id' ->%list_elem_of_singleton. simpl. set_solver.
Qed.

(** X19.  [plaintextDatabase.DeleteServer]: while the uid is held the
    call waits; otherwise it returns whether the store had an entry for
    the uid, the store has none afterwards and is unchanged elsewhere,
    and the lock table and the objects are as before. *)
Theorem db_DeleteServer_cases (name : list rune) (w : World) :
  let id := HomogeniseUsername name in
  (id ∈ dblock (database w) -> db_DeleteServer name w = (w, Blocked)) /\
  (id ∉ dblock (database w) ->
     db_DeleteServer name w
     = (set_db w (delete id (db (database w))),
        Ret (bool_decide (is_Some (db (database w) !! id))))).
Proof.
  intros id. split.
  - intros Hheld. unfold db_DeleteServer, bind, Lock. cbn [List.map].
    rewrite bool_decide_eq_true_2; [done|]. by apply Exists_cons_hd.
  - intros Hfree. unfold db_DeleteServer.
    unfold bind at 1. rewrite (Lock_one name w Hfree). cbv iota beta.
    change (db (database (set_dblock w _))) with (db (database w)).
    fold id.
    assert (Hunlock : forall d,
      UnlockIDs [id] (set_db (set_dblock w ({[id]} ∪ dblock (database w))) d)
      = (set_db w d, Ret tt)).
    { intros d. rewrite UnlockIDs_held.
      - f_equal. cbn [database set_dblock set_database dblock db set_db].
        rewrite <- singleton_lock, lock_released by done.
        destruct w as [h g sp pr [d0 l]]. done.
      - apply NoDup_singleton.
      - intros id' ->%list_elem_of_singleton. simpl. set_solver. }
    destruct (db (database w) !! id) as [e|] eqn:E.
    + unfold bind.
      change (db (database (set_dblock w ({[id]} ∪ dblock (database w)))))
        with (db (database w)).
      rewrite Hunlock. by rewrite bool_decide_eq_true_2.
    + unfold bind.
      replace (set_dblock w ({[id]} ∪ dblock (database w)))
        with (set_db (set_dblock w ({[id]} ∪ dblock (database w))) (db (database w)))
        by (by destruct w as [h g sp pr [d0 l]]).
      rewrite Hunlock. rewrite bool_decide_eq_false_2 by (by intros [? ?]).
      unfold ret. f_equal. rewrite delete_id by done.
      by destruct w as [h g sp pr [d0 l]].
Qed.

(** ** Committing and aborting *)

Lemma Unlock_held ps : forall ss w,
  Forall2 (fun p s => heap w !! p = Some s) ps ss ->
  NoDup (UID <$> ss) ->
  (forall s, s ∈ ss -> UID s ∈ dblock (database w)) ->
  Unlock ps w
  = (set_dblock w (dblock (database w) ∖ list_to_set (UID <$> ss)), Ret tt).
Proof.
  induction ps as [|p ps IH]; intros ss w Hall Hnd Hheld.
  - apply Forall2_nil_inv_l in Hall as ->. simpl. unfold ret. f_equal.
    replace (dblock (database w) ∖ ∅) with (dblock (database w))
      by (by rewrite difference_empty_L).
    by rewrite set_dblock_same.
  - apply Forall2_cons_inv_l in Hall as (s & ss' & Hp & Hall & ->).
    rewrite fmap_cons in Hnd. apply NoDup_cons in Hnd as [Hnotin Hnd].
    cbn [Unlock]. unfold bind, deref. rewrite Hp.
    rewrite bool_decide_eq_true_2 by (apply Hheld; left).
    rewrite (IH ss'); [| exact Hall | exact Hnd |].
    + f_equal. unfold set_dblock, set_database. simpl. do 2 f_equal.
      apply set_eq. intros x.
      rewrite !elem_of_difference, elem_of_union, elem_of_singleton. tauto.
    + intros s' Hin. simpl. apply elem_of_difference.
      split; [apply Hheld; by right|].
      intros Heq%elem_of_singleton. apply Hnotin.
      rewrite <- Heq. apply list_elem_of_fmap. by exists s'.
Qed.

Lemma save_loop_run ps : forall ss m w,
  Forall2 (fun p s => heap w !! p = Some s) ps ss ->
  exists m',
    save_loop ps m w
    = (set_db w (fold_left (fun d s => if IsModified s
                                       then <[UID s := Encode s]> d else d)
                   ss (db (database w))),
       Ret m').
Proof.
  induction ps as [|p ps IH]; intros ss m w Hall.
  - apply Forall2_nil_inv_l in Hall as ->. exists m. simpl. unfold ret. f_equal.
    by destruct w as [h g sp pr [d l]].
  - apply Forall2_cons_inv_l in Hall as (s & ss' & Hp & Hall & ->).
    cbn [save_loop fold_left]. unfold bind, deref. rewrite Hp.
    destruct (IsModified s).
    + destruct (IH ss' true (set_db w (<[UID s := Encode s]> (db (database w)))) Hall)
        as [m' ->].
      exists m'. f_equal.
    + destruct (IH ss' m w Hall) as [m' ->]. by exists m'.
Qed.

Lemma saved_notin ss : forall (d : gmap (list rune) EncodedServer) id,
  id ∉ UID <$> ss ->
  fold_left (fun d s => if IsModified s then <[UID s := Encode s]> d else d) ss d
    !! id = d !! id.
Proof.
  induction ss as [|s ss IH]; intros d id Hn; [done|].
  rewrite fmap_cons in Hn. apply not_elem_of_cons in Hn as [Hne Hn].
  cbn [fold_left]. rewrite IH by done.
  destruct (IsModified s); [|done]. by rewrite lookup_insert_ne.
Qed.

Lemma saved_in ss : forall (d : gmap (list rune) EncodedServer) s,
  NoDup (UID <$> ss) -> s ∈ ss ->
  fold_left (fun d s => if IsModified s then <[UID s := Encode s]> d else d) ss d
    !! UID s = if IsModified s then Some (Encode s) else d !! UID s.
Proof.
  induction ss as [|s0 ss IH]; intros d s Hnd Hin; [by apply elem_of_nil in Hin|].
  rewrite fmap_cons in Hnd. apply NoDup_cons in Hnd as [Hnotin Hnd].
  cbn [fold_left]. apply elem_of_cons in Hin as [->|Hin].
  - rewrite saved_notin by done.
    destruct (IsModified s0); [by rewrite lookup_insert_eq|done].
  - rewrite IH by done. destruct (IsModified s); [done|].
    destruct (IsModified s0); [|done].
    rewrite lookup_insert_ne; [done|].
    intros Heq. apply Hnotin. rewrite Heq. apply list_elem_of_fmap. by exists s.
Qed.

(** The objects of a cache whose entries are live, keyed by their uid
    and locked. *)
Lemma cache_objects (c : gmap (list rune) nat) (w : World)
    (kvs : list (list rune * nat)) :
  kvs ≡ₚ map_to_list c ->
  (forall id p, c !! id = Some p ->
     exists s, heap w !! p = Some s /\ UID s = id /\ id ∈ dblock (database w)) ->
  exists ss,
    Forall2 (fun p s => heap w !! p = Some s) kvs.*2 ss /\
    UID <$> ss = kvs.*1 /\ NoDup (UID <$> ss) /\
    (forall s, s ∈ ss -> UID s ∈ dblock (database w)) /\
    list_to_set (UID <$> ss) = dom c.
Proof.
  intros Hperm Hlive.
  assert (Hin : forall id p, (id, p) ∈ kvs -> c !! id = Some p).
  { intros id p Hk. rewrite Hperm in Hk. by apply elem_of_map_to_list in Hk. }
  assert (Hex : exists ss, Forall2 (fun p s => heap w !! p = Some s) kvs.*2 ss /\
                           UID <$> ss = kvs.*1 /\
                           (forall s, s ∈ ss -> UID s ∈ dblock (database w))).
  { clear Hperm. induction kvs as [|[id p] kvs IH].
    - exists []. repeat split; try constructor. intros s Hs. by apply elem_of_nil in Hs.
    - destruct IH as (ss & Hall & Huid & Hheld).
      { intros id' p' Hk. apply Hin. by right. }
      destruct (Hlive id p (Hin id p ltac:(left))) as (s & Hs & Hu & Hl).
      exists (s :: ss). split; [by constructor|]. split.
      + rewrite !fmap_cons. cbn [fst]. by rewrite Hu, Huid.
      + intros s' [->|Hs']%elem_of_cons; [by rewrite Hu|by apply Hheld]. }
  destruct Hex as (ss & Hall & Huid & Hheld). exists ss.
  split; [done|]. split; [done|]. split; [|split; [done|]].
  - rewrite Huid, Hperm. apply NoDup_fst_map_to_list.
  - apply set_eq. intros id. rewrite Huid. revert id. intros id.
    rewrite elem_of_list_to_set, elem_of_dom, list_elem_of_fmap. split.
    + intros ([id' p] & -> & Hk). exists p. by apply Hin.
    + intros [p Hp]. exists (id, p). split; [done|].
      rewrite Hperm. by apply elem_of_map_to_list.
Qed.

Lemma Finish_run (c : gmap (list rune) nat)
    (kvs : list (list rune * nat)) (w : World) :
  kvs ≡ₚ map_to_list c ->
  (forall id p, c !! id = Some p ->
     exists s, heap w !! p = Some s /\ UID s = id /\ id ∈ dblock (database w)) ->
  exists w',
    Finish kvs.*2 (mkDbTransaction (Some c)) w = (w', Ret (mkDbTransaction None)) /\
    heap w' = heap w /\
    dblock (database w') = dblock (database w) ∖ dom c /\
    (forall id p s, c !! id = Some p -> heap w !! p = Some s ->
       db (database w') !! id
       = if IsModified s then Some (Encode s) else db (database w) !! id) /\
    (forall id, c !! id = None -> db (database w') !! id = db (database w) !! id) /\
    (forall order save w1,
       free order (mkDbTransaction None) save w1 = (w1, Ret (mkDbTransaction None))).
Proof.
  intros Hperm Hlive.
  destruct (cache_objects c w kvs Hperm Hlive) as (ss & Hall & Huid & Hnd & Hheld & Hdom).
  set (w0 := set_dblock w (dblock (database w) ∖ list_to_set (UID <$> ss))).
  assert (Hall0 : Forall2 (fun p s => heap w0 !! p = Some s) kvs.*2 ss) by exact Hall.
  destruct (save_loop_run kvs.*2 ss false w0 Hall0) as [m' Hsave].
  eexists. split; [|split; [|split; [|split; [|split]]]].
  - unfold Finish, free. cbn [servers]. unfold db_FreeServers.
    unfold bind at 1 2. rewrite (Unlock_held _ ss w Hall Hnd Hheld). fold w0.
    cbn [negb]. unfold bind. rewrite Hsave. reflexivity.
  - done.
  - simpl. by rewrite Hdom.
  - intros id p s Hc Hs. cbn [database set_db set_database db w0 set_dblock].
    assert (Hin : s ∈ ss /\ UID s = id).
    { assert (Hk : (id, p) ∈ kvs) by (rewrite Hperm; by apply elem_of_map_to_list).
      destruct (Hlive id p Hc) as (s' & Hs' & Hu & _).
      assert (s' = s) as -> by congruence. split; [|done].
      apply list_elem_of_lookup in Hk as [i Hi].
      assert (Hp : kvs.*2 !! i = Some p) by (by rewrite list_lookup_fmap, Hi).
      destruct (Forall2_lookup_l _ _ _ _ _ Hall Hp) as (s' & Hss & Hs'').
      assert (s' = s) as -> by congruence.
      by apply list_elem_of_lookup_2 in Hss. }
    destruct Hin as [Hin <-]. by apply saved_in.
  - intros id Hc. cbn [database set_db set_database db w0 set_dblock].
    apply saved_notin. rewrite Huid. intros ([id' p] & -> & Hk)%list_elem_of_fmap.
    rewrite Hperm in Hk. apply elem_of_map_to_list in Hk. simpl in Hc. congruence.
  - done.
Qed.

(** X20.  [Finish] on a transaction whose cached objects are live, keyed
    by their uid and locked, in whichever order Go ranges over the
    cache: it returns, every lock of the cache is given back, the store
    holds the encoding of each cached account whose modified bit is set
    and is unchanged for every other uid, no object changes, and the
    transaction is freed, so that a further [Finish] or [Abort] does
    nothing. *)
Theorem Finish_commits_modified (c : gmap (list rune) nat)
    (kvs : list (list rune * nat)) (w : World) :
  kvs ≡ₚ map_to_list c ->
  (forall id p, c !! id = Some p ->
     exists s, heap w !! p = Some s /\ UID s = id /\ id ∈ dblock (database w)) ->
  exists w',
    Finish kvs.*2 (mkDbTransaction (Some c)) w = (w', Ret (mkDbTransaction None)) /\
    heap w' = heap w /\
    dblock (database w') = dblock (database w) ∖ dom c /\
    (forall id p s, c !! id = Some p -> heap w !! p = Some s ->
       db (database w') !! id
       = if IsModified s then Some (Encode s) else db (database w) !! id) /\
    (forall id, c !! id = None -> db (database w') !! id = db (database w) !! id) /\
    (forall order save w1,
       free order (mkDbTransaction None) save w1 = (w1, Ret (mkDbTransaction None))).
Proof. exact (Finish_run c kvs w). Qed.

(** X21.  [Abort] under the same conditions gives every lock of the
    cache back and changes nothing else: the store and the objects are
    as before, whatever the modified bits say, and the transaction is
    freed. *)
Theorem Abort_discards (c : gmap (list rune) nat)
    (kvs : list (list rune * nat)) (w : World) :
  kvs ≡ₚ map_to_list c ->
  (forall id p, c !! id = Some p ->
     exists s, heap w !! p = Some s /\ UID s = id /\ id ∈ dblock (database w)) ->
  Abort kvs.*2 (mkDbTransaction (Some c)) w
  = (set_dblock w (dblock (database w) ∖ dom c), Ret (mkDbTransaction None)).
Proof.
  intros Hperm Hlive.
  destruct (cache_objects c w kvs Hperm Hlive) as (ss & Hall & Huid & Hnd & Hheld & Hdom).
  unfold Abort, free. cbn [servers]. unfold db_FreeServers.
  unfold bind at 1 2. rewrite (Unlock_held _ ss w Hall Hnd Hheld).
  by rewrite Hdom.
Qed.

(** X22.  What a transaction commits, the next one reads: after [Finish]
    a fresh transaction that fetches a committed account by its name
    gets a new object, distinct from the old one, holding the account
    as it was committed, with the modified bit cleared. *)
Theorem Finish_then_GetOneServer (c : gmap (list rune) nat)
    (kvs : list (list rune * nat)) (w : World) (id : list rune) (p : nat)
    (s : Server) :
  kvs ≡ₚ map_to_list c ->
  (forall id p, c !! id = Some p ->
     exists s, heap w !! p = Some s /\ UID s = id /\ id ∈ dblock (database w)) ->
  c !! id = Some p -> heap w !! p = Some s -> IsModified s = true ->
  UID s = HomogeniseUsername (Name s) ->
  exists w' w'' tr'' q,
    Finish kvs.*2 (mkDbTransaction (Some c)) w = (w', Ret (mkDbTransaction None)) /\
    GetOneServer BeginDbTransaction (Name s) w' = (w'', Ret (tr'', (Some q, true))) /\
    heap w'' !! q = Some (reloaded s) /\ heap w'' !! p = Some s /\ q <> p.
Proof.
  intros Hperm Hlive Hc Hs Hmod Hname.
  destruct (Finish_run c kvs w Hperm Hlive)
    as (w' & Hfin & Hheap & Hlock & Hsaved & _ & _).
  destruct (Hlive id p Hc) as (s' & Hs' & Hu & _).
  assert (s' = s) as -> by congruence.
  assert (Hid : HomogeniseUsername (Name s) = id) by congruence.
  assert (Hfree : HomogeniseUsername (Name s) ∉ dblock (database w')).
  { rewrite Hlock, Hid. intros [_ Hn]%elem_of_difference. apply Hn.
    apply elem_of_dom. by exists p. }
  assert (He : db (database w') !! HomogeniseUsername (Name s) = Some (Encode s)).
  { rewrite Hid, (Hsaved id p s Hc Hs). by rewrite Hmod. }
  set (q := fresh (dom (heap w'))).
  assert (Hq : heap w' !! q = None) by (apply not_elem_of_dom, is_fresh).
  eexists w', _, _, q. split; [exact Hfin|]. split.
  - unfold GetOneServer.
    by rewrite (bind_Ret_run _ _ _ _ _
                  (GetServers_first_found (Name s) w' (Encode s) (reloaded s)
                     Hfree He (Decode_Encode_reloaded s))).
  - cbn [heap set_heap]. fold q. split; [apply lookup_insert_eq|].
    assert (Hqp : q <> p) by (intros ->; rewrite Hheap in Hq; congruence).
    split; [|done]. rewrite lookup_insert_ne by done. by rewrite Hheap.
Qed.

(** ** A batch of distinct accounts *)

Lemma HomogeniseUsername_idem x :
  HomogeniseUsername (HomogeniseUsername x) = HomogeniseUsername x.
Proof.
  rewrite (HomogeniseUsername_flat_map (HomogeniseUsername x)).
  apply homogenise_fixes_uids, HomogeniseUsername_uids.
Qed.

(** Over names with distinct uids the deduplication loop writes the uid
    of every name over the name and finds no duplicate. *)
Lemma dedup_loop_distinct (names : list (list rune)) (d : bool) :
  NoDup (HomogeniseUsername <$> names) ->
  forall n idx,
    (idx + n = length names)%nat ->
    dedup_loop n idx ((HomogeniseUsername <$> take idx names) ++ drop idx names)
      (list_to_set (HomogeniseUsername <$> take idx names)) idx d
    = (HomogeniseUsername <$> names, length names, d).
Proof.
  intros Hnd n. induction n as [|n IH]; intros idx Hlen.
  - assert (idx = length names) as -> by lia.
    simpl. by rewrite take_ge, drop_ge, app_nil_r by lia.
  - assert (Hlt : (idx < length names)%nat) by lia.
    destruct (lookup_lt_is_Some_2 names idx Hlt) as [name Hname].
    assert (Hidx : length (HomogeniseUsername <$> take idx names) = idx).
    { rewrite length_fmap, length_take. lia. }
    cbn [dedup_loop].
    rewrite lookup_app_r by lia. rewrite Hidx, Nat.sub_diag.
    rewrite lookup_drop, Nat.add_0_r, Hname.
    rewrite bool_decide_eq_false_2.
    + rewrite <- (IH (S idx)) by lia. f_equal.
      * rewrite (take_S_r _ _ _ Hname), fmap_app, <- app_assoc. simpl.
        rewrite (drop_S _ _ _ Hname).
        replace idx with (length (HomogeniseUsername <$> take idx names) + 0)%nat
          at 1 by lia.
        by rewrite insert_app_r.
      * rewrite (take_S_r _ _ _ Hname), fmap_app, list_to_set_app_L. simpl.
        apply set_eq. intros x. rewrite !elem_of_union, elem_of_singleton.
        rewrite elem_of_empty. tauto.
    + rewrite elem_of_list_to_set. intros Hin.
      apply list_elem_of_lookup in Hin as [j Hj].
      rewrite list_lookup_fmap in Hj.
      destruct (take idx names !! j) as [name'|] eqn:Hj'; [|done].
      simpl in Hj. injection Hj as Hj.
      assert (Hjlt : (j < idx)%nat).
      { apply lookup_lt_Some in Hj'. rewrite length_take in Hj'. lia. }
      rewrite lookup_take_lt in Hj' by done.
      assert (j = idx); [|lia].
      eapply NoDup_lookup; [exact Hnd| |].
      * by rewrite list_lookup_fmap, Hj'.
      * rewrite list_lookup_fmap, Hname. simpl. by rewrite Hj.
Qed.

Lemma db_GetServers_ids names names' w :
  HomogeniseUsername <$> names = HomogeniseUsername <$> names' ->
  db_GetServers names w = db_GetServers names' w.
Proof.
  intros Heq. unfold db_GetServers, bind, Lock. by rewrite !map_is_fmap, Heq.
Qed.

Lemma fmap_homogenise_idem (names : list (list rune)) :
  HomogeniseUsername <$> (HomogeniseUsername <$> names)
  = HomogeniseUsername <$> names.
Proof.
  rewrite <- list_fmap_compose. apply list_fmap_ext.
  intros i x _. apply HomogeniseUsername_idem.
Qed.

(** On names with distinct uids [GetServers] is the fetch from the
    backend followed by the filling of the cache. *)
Lemma GetServers_first_distinct names w :
  NoDup (HomogeniseUsername <$> names) ->
  GetServers BeginDbTransaction names w
  = bind (db_GetServers names)
      (fun r => let '(servers, ok, badServer) := r in
         bind (if ok : bool then cache_servers servers ∅ else ret ∅)
           (fun cache => ret (mkDbTransaction (Some cache),
                              (servers, ok, badServer)))) w.
Proof.
  intros Hnd. unfold GetServers, BeginDbTransaction. cbn [servers].
  destruct (1 <? len names) eqn:E; [|reflexivity].
  pose proof (dedup_loop_distinct names false Hnd (length names) 0 eq_refl) as Hloop.
  rewrite take_0, drop_0 in Hloop. cbn [fmap list_fmap app list_to_set foldr] in Hloop.
  rewrite Hloop. cbv iota beta.
  rewrite take_ge by (rewrite length_fmap; lia).
  unfold bind at 1 3.
  rewrite (db_GetServers_ids (HomogeniseUsername <$> names) names w
             (fmap_homogenise_idem names)).
  by destruct (db_GetServers names w) as [w1 [[[servers0 ok] bad]|msg|]].
Qed.

Lemma cache_servers_run ptrs : forall ids cache w,
  Forall2 (fun id p => exists s, heap w !! p = Some s /\ UID s = id) ids ptrs ->
  cache_servers ptrs cache w
  = (w, Ret (fold_left (fun c idp => <[idp.1 := idp.2]> c) (zip ids ptrs) cache)).
Proof.
  induction ptrs as [|p ptrs IH]; intros ids cache w Hall.
  - apply Forall2_nil_inv_r in Hall as ->. done.
  - apply Forall2_cons_inv_r in Hall as (id & ids' & (s & Hs & Hu) & Hall & ->).
    cbn [cache_servers zip zip_with fold_left]. unfold bind, deref. rewrite Hs, Hu.
    by rewrite (IH ids').
Qed.

Lemma cached_notin ids : forall (ptrs : list nat) (cache : gmap (list rune) nat) id,
  id ∉ ids ->
  fold_left (fun c idp => <[idp.1 := idp.2]> c) (zip ids ptrs) cache !! id
  = cache !! id.
Proof.
  induction ids as [|id0 ids IH]; intros ptrs cache id Hn; [done|].
  apply not_elem_of_cons in Hn as [Hne Hn].
  destruct ptrs as [|p ptrs]; [done|].
  cbn [zip zip_with fold_left]. rewrite IH by done.
  by rewrite lookup_insert_ne.
Qed.

Lemma cached_in ids : forall (ptrs : list nat) (cache : gmap (list rune) nat) i id p,
  NoDup ids -> ids !! i = Some id -> ptrs !! i = Some p ->
  fold_left (fun c idp => <[idp.1 := idp.2]> c) (zip ids ptrs) cache !! id
  = Some p.
Proof.
  induction ids as [|id0 ids IH]; intros ptrs cache i id p Hnd Hi Hp; [done|].
  apply NoDup_cons in Hnd as [Hnotin Hnd].
  destruct ptrs as [|p0 ptrs]; [done|].
  cbn [zip zip_with fold_left]. destruct i as [|i].
  - simpl in Hi, Hp. injection Hi as ->. injection Hp as ->.
    rewrite cached_notin by done. apply lookup_insert_eq.
  - simpl in Hi, Hp. by apply (IH ptrs _ i).
Qed.

Lemma cached_dom ids : forall (ptrs : list nat) (cache : gmap (list rune) nat),
  length ids = length ptrs ->
  dom (fold_left (fun c idp => <[idp.1 := idp.2]> c) (zip ids ptrs) cache)
  = list_to_set ids ∪ dom cache.
Proof.
  induction ids as [|id0 ids IH]; intros ptrs cache Hlen.
  - simpl. by rewrite (left_id_L ∅ (∪)).
  - destruct ptrs as [|p0 ptrs]; [done|].
    cbn [zip zip_with fold_left]. rewrite IH by (simpl in Hlen; lia).
    rewrite dom_insert_L. simpl. apply set_eq. intros x.
    rewrite !elem_of_union. tauto.
Qed.

(** X23.  [GetServers] on a transaction that has fetched nothing, for
    names with pairwise distinct uids, none of them held, each with an
    entry stored under the uid of its name: the call returns one object
    per name, in the order of the names, fresh and pairwise distinct,
    each holding what its entry decodes to and cached under its uid;
    the cache holds these uids and no other, the uids are held, and the
    store and the objects there were are untouched. *)
Theorem GetServers_distinct (names : list (list rune)) (w : World) :
  NoDup (HomogeniseUsername <$> names) ->
  (forall name, name ∈ names -> HomogeniseUsername name ∉ dblock (database w)) ->
  (forall name, name ∈ names ->
     exists e s, db (database w) !! HomogeniseUsername name = Some e /\
                 Decode e = Ret s /\ UID s = HomogeniseUsername name) ->
  exists w' c ptrs,
    GetServers BeginDbTransaction names w
      = (w', Ret (mkDbTransaction (Some c), (ptrs, true, []))) /\
    Forall2 (fun name p =>
               exists e s, db (database w) !! HomogeniseUsername name = Some e /\
                           Decode e = Ret s /\ heap w' !! p = Some s /\
                           c !! HomogeniseUsername name = Some p)
            names ptrs /\
    Forall (fun p => heap w !! p = None) ptrs /\ NoDup ptrs /\
    (forall p s, heap w !! p = Some s -> heap w' !! p = Some s) /\
    db (database w') = db (database w) /\
    dblock (database w')
      = list_to_set (HomogeniseUsername <$> names) ∪ dblock (database w) /\
    dom c = list_to_set (HomogeniseUsername <$> names).
Proof.
  intros Hnd Hfree Hall.
  rewrite (GetServers_first_distinct names w Hnd).
  unfold db_GetServers. unfold bind at 1 2.
  rewrite (Lock_free names w Hfree).
  set (ids := HomogeniseUsername <$> names) in *.
  set (w0 := set_dblock w _).
  destruct (fetch_loop_found ids [] w0)
    as (w' & ptrs & Hrun & Hdb & Hmono & Hnew & Hndp & Hcont).
  { intros id (name & -> & Hin)%list_elem_of_fmap.
    destruct (Hall name Hin) as (e & s & He & Hd & _). by exists e, s. }
  unfold bind at 1. rewrite Hrun. cbn [app]. unfold ret at 1. cbv iota beta.
  unfold bind at 1.
  apply Forall2_same_length_lookup in Hcont as [Hlen Hcont].
  assert (Hname : forall i name p, names !! i = Some name -> ptrs !! i = Some p ->
            exists e s, db (database w) !! HomogeniseUsername name = Some e /\
                        Decode e = Ret s /\ heap w' !! p = Some s /\
                        UID s = HomogeniseUsername name).
  { intros i name p Hi Hp.
    assert (Hid : ids !! i = Some (HomogeniseUsername name)).
    { unfold ids. by rewrite list_lookup_fmap, Hi. }
    destruct (Hcont i _ _ Hid Hp) as (e & s & He & Hd & Hs).
    destruct (Hall name (list_elem_of_lookup_2 _ _ _ Hi)) as (e' & s' & He' & Hd' & Hu).
    change (db (database w0)) with (db (database w)) in He.
    assert (e' = e) as -> by congruence.
    assert (s' = s) as -> by congruence.
    by exists e, s. }
  assert (Hobj : Forall2 (fun id p => exists s, heap w' !! p = Some s /\ UID s = id)
                   ids ptrs).
  { apply Forall2_same_length_lookup_2; [done|].
    intros i id p Hi Hp. unfold ids in Hi. rewrite list_lookup_fmap in Hi.
    destruct (names !! i) as [name|] eqn:Hn; [|done]. injection Hi as <-.
    destruct (Hname i name p Hn Hp) as (e & s & _ & _ & Hs & Hu). by exists s. }
  rewrite (cache_servers_run ptrs ids ∅ w' Hobj). cbv iota beta. unfold ret.
  eexists w', _, ptrs. split; [reflexivity|].
  split; [|split; [done|split; [done|split; [|split; [|split]]]]].
  - apply Forall2_same_length_lookup_2.
    { unfold ids in Hlen. by rewrite length_fmap in Hlen. }
    intros i name p Hi Hp.
    destruct (Hname i name p Hi Hp) as (e & s & He & Hd & Hs & Hu).
    exists e, s. repeat split; try done.
    eapply cached_in; [exact Hnd| |exact Hp].
    unfold ids. by rewrite list_lookup_fmap, Hi.
  - intros p s Hp. apply Hmono. exact Hp.
  - by rewrite Hdb.
  - by rewrite Hdb.
  - rewrite cached_dom by done. rewrite dom_empty_L. by rewrite (right_id_L ∅ (∪)).
Qed.

(** X24.  [GetServers] rewrites the slice of names in place while it
    still reads the answer off it.  Asked for x, x, y on a transaction
    that has fetched nothing, where y is a uid other than the uid of x
    and both accounts are stored and free, it returns the object of x
    once and the object of y twice: the second answer is not the
    account of the second name. *)
Theorem GetServers_x_x_y (x y : list rune) (w : World)
    (ex ey : EncodedServer) (sx sy : Server) :
  HomogeniseUsername y = y -> HomogeniseUsername x ≠ y ->
  db (database w) !! HomogeniseUsername x = Some ex ->
  db (database w) !! y = Some ey ->
  HomogeniseUsername x ∉ dblock (database w) ->
  y ∉ dblock (database w) ->
  Decode ex = Ret sx -> UID sx = HomogeniseUsername x ->
  Decode ey = Ret sy -> UID sy = y ->
  exists w' tr' px py,
    GetServers BeginDbTransaction [x; x; y] w
      = (w', Ret (tr', ([px; py; py], true, []))) /\
    px ≠ py /\ heap w' !! px = Some sx /\ heap w' !! py = Some sy.
Proof.
  intros Hy Hxy Hex Hey Hlx Hly Hdx Hux Hdy Huy.
  set (ux := HomogeniseUsername x) in *.
  set (px := fresh (dom (heap w))).
  set (py := fresh (dom (<[px := sx]> (heap w)))).
  assert (Hpy' : <[px := sx]> (heap w) !! py = None).
  { apply not_elem_of_dom. apply is_fresh. }
  assert (Hne : px ≠ py).
  { intros Heq. rewrite <- Heq, lookup_insert_eq in Hpy'. done. }
  unfold GetServers, BeginDbTransaction. cbn [servers]. cbv iota.
  change (1 <? len [x; x; y]) with true. cbv iota.
  assert (Hdd : dedup_loop (length [x; x; y]) 0 [x; x; y] ∅ 0 false
                = ([ux; y; y], 2%nat, true)).
  { cbn [length dedup_loop lookup list_lookup]. fold ux.
    rewrite bool_decide_eq_false_2 by apply not_elem_of_empty.
    cbn [insert list_insert lookup list_lookup]. fold ux.
    rewrite bool_decide_eq_true_2 by (apply elem_of_union; left; by apply elem_of_singleton).
    cbn [lookup list_lookup]. rewrite Hy.
    rewrite bool_decide_eq_false_2; [done|].
    intros [Hin|Hin]%elem_of_union; [|by apply elem_of_empty in Hin].
    apply elem_of_singleton in Hin. by apply Hxy. }
  rewrite Hdd. clear Hdd. cbv iota beta.
  change (take 2 [ux; y; y]) with [ux; y].
  set (w2 := mkWorld (<[py := sy]> (<[px := sx]> (heap w))) (idgen w) (spawned w)
               (printed w)
               (mkPlaintextDatabase (db (database w))
                  (list_to_set [ux; y] ∪ dblock (database w)))).
  assert (Hfetch : db_GetServers [ux; y] w = (w2, Ret ([px; py], true, []))).
  { unfold db_GetServers, bind, Lock. cbn [List.map].
    rewrite (HomogeniseUsername_idem x : HomogeniseUsername ux = ux), Hy.
    rewrite bool_decide_eq_false_2.
    2:{ intros HE. apply Exists_cons in HE as [?|HE]; [done|].
        apply Exists_cons in HE as [?|HE]; [done|]. by apply Exists_nil in HE. }
    unfold fetch_loop, bind, alloc, ret. cbn [database db set_database heap set_heap].
    rewrite Hex, Hdx. cbn [database db set_database heap set_heap app].
    rewrite Hey, Hdy. done. }
  unfold bind at 1. rewrite Hfetch. cbv iota beta.
  assert (Hcache : cache_servers [px; py] ∅ w2
                   = (w2, Ret (<[y := py]> (<[ux := px]> ∅)))).
  { unfold cache_servers, bind, deref, ret. simpl.
    rewrite (lookup_insert_ne _ py px) by done.
    rewrite lookup_insert_eq. simpl.
    rewrite lookup_insert_eq. by rewrite Hux, Huy. }
  unfold bind. rewrite Hcache. cbn [andb]. cbv iota beta.
  assert (Hget : getFromCache
                   (mkDbTransaction (Some (<[y := py]> (<[ux := px]> ∅))))
                   [ux; y; y]
                 = ([px; py; py], true, [])).
  { unfold getFromCache. cbn [servers default from_option id getFromCache_loop].
    rewrite (lookup_insert_ne _ y ux) by done.
    rewrite !lookup_insert_eq. done. }
  rewrite Hget.
  exists w2, (mkDbTransaction (Some (<[y := py]> (<[ux := px]> ∅)))), px, py.
  split; [done|]. split; [done|]. split.
  - unfold w2. cbn [heap]. rewrite lookup_insert_ne by done. apply lookup_insert_eq.
  - unfold w2. cbn [heap]. apply lookup_insert_eq.
Qed.

(** X25.  One account under two spellings.  Asked on a transaction
    that has fetched nothing for x and x', two names of one uid of
    which the second is not the uid itself, the account being stored
    and free, [GetServers] fetches the account, caches it and holds its
    uid, and then answers false with no server and an empty name: the
    second spelling is looked up in the cache as it was written. *)
Theorem GetServers_two_spellings (x x' : list rune) (w : World)
    (e : EncodedServer) (s : Server) :
  HomogeniseUsername x' = HomogeniseUsername x ->
  HomogeniseUsername x' ≠ x' ->
  db (database w) !! HomogeniseUsername x = Some e ->
  HomogeniseUsername x ∉ dblock (database w) ->
  Decode e = Ret s -> UID s = HomogeniseUsername x ->
  exists w' p,
    GetServers BeginDbTransaction [x; x'] w
      = (w', Ret (mkDbTransaction (Some {[ HomogeniseUsername x := p ]}),
                  ([], false, []))) /\
    heap w' !! p = Some s /\ heap w !! p = None /\
    dblock (database w') = {[ HomogeniseUsername x ]} ∪ dblock (database w).
Proof.
  intros Hsame Hraw He Hfree Hd Hu.
  set (ux := HomogeniseUsername x) in *.
  set (p := fresh (dom (heap w))).
  assert (Hp : heap w !! p = None) by (apply not_elem_of_dom, is_fresh).
  unfold GetServers, BeginDbTransaction. cbn [servers]. cbv iota.
  change (1 <? len [x; x']) with true. cbv iota.
  assert (Hdd : dedup_loop (length [x; x']) 0 [x; x'] ∅ 0 false
                = ([ux; x'], 1%nat, true)).
  { cbn [length dedup_loop lookup list_lookup]. fold ux.
    rewrite bool_decide_eq_false_2 by apply not_elem_of_empty.
    cbn [insert list_insert lookup list_lookup]. rewrite Hsame.
    rewrite bool_decide_eq_true_2; [done|].
    apply elem_of_union. left. by apply elem_of_singleton. }
  rewrite Hdd. clear Hdd. cbv iota beta.
  change (take 1 [ux; x']) with [ux].
  assert (Hfetch : db_GetServers [ux] w
                   = (set_heap (set_dblock w ({[ ux ]} ∪ dblock (database w)))
                        (<[p := s]> (heap w)),
                      Ret ([p], true, []))).
  { assert (Hux : HomogeniseUsername ux = ux) by apply HomogeniseUsername_idem.
    pose proof (db_GetServers_one_found ux w e s) as Hrun.
    rewrite Hux in Hrun. by apply Hrun. }
  unfold bind at 1. rewrite Hfetch. cbv iota beta.
  set (w2 := set_heap _ _).
  assert (Hcache : cache_servers [p] ∅ w2 = (w2, Ret {[ ux := p ]})).
  { unfold cache_servers, bind, deref, ret. unfold w2. cbn [heap set_heap].
    rewrite lookup_insert_eq. by rewrite Hu, insert_empty. }
  unfold bind. rewrite Hcache. cbn [andb]. cbv iota beta.
  assert (Hget : getFromCache (mkDbTransaction (Some {[ ux := p ]})) [ux; x']
                 = ([], false, [])).
  { unfold getFromCache. cbn [servers default from_option id getFromCache_loop].
    rewrite lookup_singleton_eq.
    rewrite lookup_singleton_ne; [done|]. intros Heq. apply Hraw.
    by rewrite Hsame, Heq. }
  rewrite Hget. exists w2, p. split; [done|]. split; [|done].
  unfold w2. cbn [heap set_heap]. apply lookup_insert_eq.
Qed.

(** ** Transaction ids *)

Lemma hex_digit_value d :
  0 <= d < 16 ->
  (if hex_digit d <? 58 then hex_digit d - 48 else hex_digit d - 55) = d.
Proof.
  intros Hd. unfold hex_digit.
  destruct (d <? 10) eqn:E.
  - apply Z.ltb_lt in E. rewrite (proj2 (Z.ltb_lt (48 + d) 58)) by lia. lia.
  - apply Z.ltb_ge in E. rewrite (proj2 (Z.ltb_ge (55 + d) 58)) by lia. lia.
Qed.

Lemma hex_fuel_value fuel : forall n acc,
  0 <= n < 2 ^ Z.of_nat fuel ->
  fold_left (fun a d => a * 16 + (if d <? 58 then d - 48 else d - 55))
    (hex_fuel fuel n acc) 0
  = fold_left (fun a d => a * 16 + (if d <? 58 then d - 48 else d - 55)) acc n.
Proof.
  induction fuel as [|fuel IH]; intros n acc Hn.
  - simpl in *. by assert (n = 0) as -> by lia.
  - rewrite Nat2Z.inj_succ, Z.pow_succ_r in Hn by lia.
    pose proof (Z.mod_pos_bound n 16 ltac:(lia)) as Hm.
    pose proof (Z.div_mod n 16 ltac:(lia)) as Hdm.
    cbn [hex_fuel]. destruct (n <? 16) eqn:E.
    + apply Z.ltb_lt in E. cbn [fold_left].
      rewrite hex_digit_value by done.
      by rewrite Z.mod_small by lia.
    + apply Z.ltb_ge in E. rewrite IH.
      * cbn [fold_left]. rewrite hex_digit_value by done. f_equal. lia.
      * split; [apply Z.div_pos; lia|]. apply Z.div_lt_upper_bound; lia.
Qed.

Lemma hex_fuel_length fuel : forall n acc (k : nat),
  (1 <= k)%nat -> 0 <= n < 16 ^ Z.of_nat k ->
  (length (hex_fuel fuel n acc) <= k + length acc)%nat.
Proof.
  induction fuel as [|fuel IH]; intros n acc k Hk Hn; [simpl; lia|].
  cbn [hex_fuel]. destruct (n <? 16) eqn:E; [simpl; lia|].
  apply Z.ltb_ge in E. destruct k as [|k]; [lia|].
  rewrite Nat2Z.inj_succ, Z.pow_succ_r in Hn by lia.
  destruct k as [|k]; [simpl in Hn; lia|].
  etransitivity; [apply (IH _ _ (S k))|simpl; lia]; [lia|].
  split; [apply Z.div_pos; lia|]. apply Z.div_lt_upper_bound; lia.
Qed.

Lemma fmt_X_value n : 0 <= n -> hex_value (fmt_X n) = n.
Proof.
  intros Hn. unfold hex_value, fmt_X. rewrite (proj2 (Z.ltb_ge n 0)) by lia.
  rewrite hex_fuel_value; [done|].
  split; [done|]. rewrite Nat2Z.inj_succ, Z2Nat.id by apply Z.log2_nonneg.
  destruct (Z.eq_dec n 0) as [->|Hne]; [done|].
  apply Z.log2_spec. lia.
Qed.

Lemma fmt_08X_value n : 0 <= n -> hex_value (fmt_08X n) = n.
Proof.
  intros Hn. transitivity (hex_value (fmt_X n)); [|by apply fmt_X_value].
  unfold fmt_08X, hex_value. rewrite fold_left_app. f_equal.
  generalize (8 - length (fmt_X n))%nat. intros k.
  induction k as [|k IH]; [done|]. exact IH.
Qed.

Lemma fmt_08X_length n : 0 <= n < 2 ^ 32 -> length (fmt_08X n) = 8%nat.
Proof.
  intros Hn. unfold fmt_08X. cbv zeta. rewrite length_app, repeat_length.
  assert (H8 : (length (fmt_X n) <= 8)%nat).
  { unfold fmt_X. rewrite (proj2 (Z.ltb_ge n 0)) by lia.
    etransitivity; [apply (hex_fuel_length _ _ _ 8)|simpl; lia]; [lia|].
    change (16 ^ Z.of_nat 8) with (2 ^ 32). lia. }
  apply Nat.sub_add. exact H8.
Qed.

Lemma first_unseen_Some m draws n :
  first_unseen m draws = Some n ->
  n ∈ Uint32 <$> draws /\ map_has m n = false.
Proof.
  induction draws as [|d draws IH]; [done|]. simpl.
  destruct (map_has m (Uint32 d)) eqn:E.
  - intros Hf. destruct (IH Hf) as [Hin Hm]. split; [by right|done].
  - intros [= <-]. split; [by left|done].
Qed.

Lemma GenerateTransactionID_Ret_inv g t draws g1 id tm :
  GenerateTransactionID g t draws = (g1, Ret (id, tm)) ->
  exists n, n ∈ Uint32 <$> draws /\
    id = str "T" ++ fmt_X t ++ str "-" ++ fmt_08X n /\ tm = t /\
    map_has (previouslyGenerated g1) n = true.
Proof.
  unfold GenerateTransactionID.
  destruct (first_unseen _ draws) as [n|] eqn:Hf; [|done].
  destruct (if lastTime g <? t then _ else _) as [m|] eqn:Hm; [|done].
  intros [= <- <- <-]. exists n.
  apply first_unseen_Some in Hf as [Hin _].
  repeat split; try done. simpl. apply bool_decide_eq_true_2.
  apply elem_of_union. left. by apply elem_of_singleton.
Qed.

(** X26.  A transaction id tells its second and its number: when two
    calls of [GenerateTransactionID], at seconds that are not negative,
    return the same id, they ran in the same second and settled on the
    same 32-bit number, which each of them has recorded. *)
Theorem GenerateTransactionID_same_id (g g' g1 g1' : IdGen) (t t' : Z)
    (draws draws' : list Z) (id : list rune) (tm tm' : Z) :
  0 <= t -> 0 <= t' ->
  GenerateTransactionID g t draws = (g1, Ret (id, tm)) ->
  GenerateTransactionID g' t' draws' = (g1', Ret (id, tm')) ->
  t = t' /\ tm = tm' /\
  exists n, n ∈ Uint32 <$> draws /\ n ∈ Uint32 <$> draws' /\
    map_has (previouslyGenerated g1) n = true /\
    map_has (previouslyGenerated g1') n = true.
Proof.
  intros Ht Ht' Hrun Hrun'.
  apply GenerateTransactionID_Ret_inv in Hrun as (n & Hn & Hid & -> & Hrec).
  apply GenerateTransactionID_Ret_inv in Hrun' as (n' & Hn' & Hid' & -> & Hrec').
  assert (Hb : forall k (ds : list Z), k ∈ Uint32 <$> ds -> 0 <= k < 2 ^ 32).
  { intros k ds (d & -> & _)%list_elem_of_fmap. unfold Uint32.
    apply Z.mod_pos_bound. lia. }
  pose proof (Hb n draws Hn) as Hbn. pose proof (Hb n' draws' Hn') as Hbn'.
  rewrite Hid in Hid'. apply app_inv_head in Hid'.
  rewrite !app_assoc in Hid'.
  apply app_inj_2 in Hid' as [Hl Hr];
    [|by rewrite !fmt_08X_length].
  apply app_inj_tail in Hl as [Hl _].
  assert (t = t') as <-.
  { rewrite <- (fmt_X_value t), <- (fmt_X_value t') by done. by rewrite Hl. }
  assert (n = n') as <-.
  { rewrite <- (fmt_08X_value n), <- (fmt_08X_value n') by lia. by rewrite Hr. }
  split; [done|]. split; [done|]. by exists n.
Qed.

(** ** Display strings *)

Lemma digits_fuel_digits fuel : forall n acc,
  0 <= n -> Forall (fun ch => 48 <= ch <= 57) acc ->
  Forall (fun ch => 48 <= ch <= 57) (digits_fuel fuel n acc).
Proof.
  induction fuel as [|f IH]; intros n acc Hn Hacc; [done|].
  simpl. pose proof (Z.mod_pos_bound n 10 ltac:(lia)) as Hm.
  assert (Hacc' : Forall (fun ch => 48 <= ch <= 57) ((48 + n mod 10) :: acc)).
  { constructor; [lia|done]. }
  destruct (n <? 10); [done|]. apply IH; [apply Z.div_pos; lia|done].
Qed.

Lemma Int_String_digits n :
  0 <= n ->
  Forall (fun ch => 48 <= ch <= 57) (Int_String n) /\ Int_String n <> [].
Proof.
  intros Hn. unfold Int_String. rewrite (proj2 (Z.ltb_ge n 0)) by lia. split.
  - by apply digits_fuel_digits.
  - destruct (digits_fuel_head (S (Z.to_nat (Z.log2 n))) n [] ltac:(lia) Hn)
      as (ch & tl & -> & _). done.
Qed.

Lemma comma_loop_without_commas rest : forall i s l,
  Forall (fun ch => ch ≠ 44) rest ->
  List.filter (fun ch => negb (ch =? 44)) (comma_loop rest i s l) = rest.
Proof.
  induction rest as [|ch rest IH]; intros i s l Hall; [done|].
  apply Forall_cons in Hall as [Hch Hall]. cbn [comma_loop].
  rewrite List.filter_app. cbn [List.filter].
  rewrite (proj2 (Z.eqb_neq ch 44)) by done. cbn [negb].
  rewrite IH by done. by destruct (_ && _).
Qed.

Lemma comma_loop_count rest : forall i s l,
  s < i -> l - i <= len rest -> Forall (fun ch => ch ≠ 44) rest ->
  len (List.filter (fun ch => ch =? 44) (comma_loop rest i s l))
  = Z.max 0 (l - i) / 3.
Proof.
  unfold len. induction rest as [|ch rest IH]; intros i s l Hs Hl Hall.
  - simpl in *. by rewrite Z.max_l by lia.
  - apply Forall_cons in Hall as [Hch Hall]. cbn [comma_loop].
    rewrite List.filter_app, length_app. cbn [List.filter].
    rewrite (proj2 (Z.eqb_neq ch 44)) by done.
    rewrite Nat2Z.inj_add, (IH (i + 1) s l) by (simpl length in Hl; try done; lia).
    rewrite (proj2 (Z.ltb_lt s i)) by done. rewrite andb_true_r.
    destruct (i <? l) eqn:E1.
    + apply Z.ltb_lt in E1. cbn [andb].
      rewrite !Z.max_r by lia.
      destruct ((l - i) mod 3 =? 0) eqn:E2.
      * apply Z.eqb_eq in E2. simpl length. Z.div_mod_to_equations. lia.
      * apply Z.eqb_neq in E2. simpl length. Z.div_mod_to_equations. lia.
    + apply Z.ltb_ge in E1. cbn [andb]. simpl length.
      by rewrite !Z.max_l by lia.
Qed.

(** X27.  [Currency.String] is the raw string with the currency sign
    after the minus sign, if any, and commas put in: taking the commas
    out gives the sign, the currency sign, the digits of the whole
    part, the point and the two digits of the hundredths; and the
    number of commas is that of the complete groups of three digits
    that follow the first digit.  [DeltaString] puts a plus sign in
    front of a value above zero and nothing otherwise. *)
Theorem Currency_String_commas (c : Currency) :
  let whole := Int_String (Z.abs (raw c) / 100) in
  List.filter (fun ch => negb (ch =? 44)) (Currency_String c)
  = (if raw c <? 0 then [45] else [])
      ++ SYMBOL :: whole
      ++ 46 :: [48 + Z.abs (raw c) mod 100 / 10; 48 + Z.abs (raw c) mod 100 mod 10] /\
  len (List.filter (fun ch => ch =? 44) (Currency_String c)) = (len whole - 1) / 3 /\
  DeltaString c = (if 0 <? raw c then [43] else []) ++ Currency_String c.
Proof.
  intros whole.
  pose proof (Z.mod_pos_bound (Z.abs (raw c)) 100 ltac:(lia)) as Hfr.
  assert (Hq : 0 <= Z.abs (raw c) mod 100 / 10 < 10).
  { split; [apply Z.div_pos; lia|apply Z.div_lt_upper_bound; lia]. }
  pose proof (Z.mod_pos_bound (Z.abs (raw c) mod 100) 10 ltac:(lia)) as Hr.
  destruct (Int_String_digits (Z.abs (raw c) / 100) ltac:(apply Z.div_pos; lia))
    as [Hdig Hne].
  fold whole in Hdig, Hne.
  set (tl := 46 :: [48 + Z.abs (raw c) mod 100 / 10; 48 + Z.abs (raw c) mod 100 mod 10]).
  assert (Hbody : Forall (fun ch => ch ≠ 44) (whole ++ tl)).
  { apply Forall_app_2.
    - eapply Forall_impl; [exact Hdig|]. simpl. lia.
    - repeat constructor; lia. }
  destruct whole as [|w0 whole'] eqn:Hw; [done|].
  assert (Hw0 : 48 <= w0 <= 57) by (by apply Forall_cons in Hdig as [? _]).
  assert (Hstr : Currency_String c
                 = (if raw c <? 0 then [45] else []) ++ SYMBOL
                     :: comma_loop ((w0 :: whole') ++ tl)
                          (if raw c <? 0 then 1 else 0) (if raw c <? 0 then 1 else 0)
                          ((if raw c <? 0 then 1 else 0) + len (w0 :: whole'))).
  { unfold Currency_String. rewrite RawString_shape. fold whole. rewrite Hw. fold tl.
    destruct (raw c <? 0).
    - cbn [app]. change (45 =? 45) with true. cbv iota.
      cbn [Z.to_nat Pos.to_nat Pos.iter_op Nat.add drop app]. do 3 f_equal.
      unfold len. rewrite !length_cons, !length_app. simpl length. lia.
    - cbn [app]. rewrite (proj2 (Z.eqb_neq w0 45)) by lia. cbv iota.
      cbn [Z.to_nat drop app]. do 2 f_equal.
      unfold len. rewrite !length_cons, !length_app. simpl length. lia. }
  split; [|split].
  - rewrite Hstr, List.filter_app. cbn [List.filter].
    change (SYMBOL =? 44) with false. cbn [negb].
    rewrite comma_loop_without_commas by done.
    by destruct (raw c <? 0).
  - rewrite Hstr, List.filter_app. cbn [List.filter].
    change (SYMBOL =? 44) with false. cbv iota.
    set (s := if raw c <? 0 then 1 else 0).
    assert (Hsign : List.filter (fun ch => ch =? 44)
                      (if raw c <? 0 then [45] else []) = [])
      by (by destruct (raw c <? 0)).
    rewrite Hsign. cbn [app comma_loop].
    rewrite Z.ltb_irrefl, andb_false_r. cbn [andb app List.filter].
    rewrite (proj2 (Z.eqb_neq w0 44)) by lia.
    rewrite (comma_loop_count _ (s + 1) s).
    + unfold len. rewrite length_cons. rewrite Z.max_r by lia. f_equal. lia.
    + lia.
    + unfold len. rewrite length_cons, length_app. simpl length. lia.
    + by apply Forall_cons in Hbody as [_ ?].
  - unfold DeltaString.
    destruct (GtZero c) eqn:E.
    + apply GtZero_spec in E. by rewrite (proj2 (Z.ltb_lt 0 (raw c))).
    + destruct (0 <? raw c) eqn:E'; [|done].
      apply Z.ltb_lt, GtZero_spec in E'. congruence.
Qed.

(** ** Rounding, and the text of a value read back *)

Lemma scale2_shift n d k j N D Nk Dk :
  0 <= j ->
  BigFloat.scale2 n d k = (Nk, Dk) -> BigFloat.scale2 n d (k - j) = (N, D) ->
  N * Dk = 2 ^ j * Nk * D.
Proof.
  intros Hj. unfold BigFloat.scale2.
  destruct (0 <=? k) eqn:Ek; destruct (0 <=? k - j) eqn:Ekj;
    intros [= <- <-] [= <- <-].
  - apply Z.leb_le in Ek, Ekj.
    replace k with (j + (k - j)) at 1 by lia. rewrite Z.pow_add_r by lia. ring.
  - apply Z.leb_le in Ek. apply Z.leb_gt in Ekj.
    replace j with (- (k - j) + k) at 2 by lia. rewrite Z.pow_add_r by lia. ring.
  - apply Z.leb_gt in Ek. apply Z.leb_le in Ekj. lia.
  - apply Z.leb_gt in Ek, Ekj.
    replace (- (k - j)) with (j + - k) by lia. rewrite Z.pow_add_r by lia. ring.
Qed.

Lemma scale2_pos n d e N D :
  0 < n -> 0 < d -> BigFloat.scale2 n d e = (N, D) -> 0 < N /\ 0 < D.
Proof.
  intros Hn Hd. unfold BigFloat.scale2.
  destruct (0 <=? e) eqn:E; intros [= <- <-].
  - apply Z.leb_le in E. pose proof (Z.pow_pos_nonneg 2 e). nia.
  - apply Z.leb_gt in E. pose proof (Z.pow_pos_nonneg 2 (- e)). nia.
Qed.

(** [ilog2_quot n d] is the exponent of the leading bit of [n/d]. *)
Lemma ilog2_quot_spec n d N D :
  0 < n -> 0 < d ->
  BigFloat.scale2 n d (BigFloat.ilog2_quot n d) = (N, D) -> D <= N < 2 * D.
Proof.
  intros Hn Hd. unfold BigFloat.ilog2_quot.
  destruct (Z.log2_spec n Hn) as [Ha1 Ha2]. destruct (Z.log2_spec d Hd) as [Hb1 Hb2].
  pose proof (Z.log2_nonneg n) as Ha0. pose proof (Z.log2_nonneg d) as Hb0.
  rewrite Z.pow_succ_r in Ha2, Hb2 by done.
  set (a := Z.log2 n) in *. set (b := Z.log2 d) in *.
  set (A := 2 ^ a) in *. set (B := 2 ^ b) in *.
  destruct (BigFloat.scale2 n d (a - b)) as [N0 D0] eqn:E0.
  destruct (D0 <=? N0) eqn:Ecmp.
  - apply Z.leb_le in Ecmp. rewrite E0. intros [= <- <-]. split; [done|].
    unfold BigFloat.scale2 in E0. destruct (0 <=? a - b) eqn:Ek; injection E0 as <- <-.
    + apply Z.leb_le in Ek.
      assert (HA : A = B * 2 ^ (a - b)).
      { unfold A, B. rewrite <- Z.pow_add_r by lia. f_equal. lia. }
      pose proof (Z.pow_pos_nonneg 2 (a - b) ltac:(lia) ltac:(lia)). nia.
    + apply Z.leb_gt in Ek.
      assert (HB : B = A * 2 ^ (- (a - b))).
      { unfold A, B. rewrite <- Z.pow_add_r by lia. f_equal. lia. }
      pose proof (Z.pow_pos_nonneg 2 (- (a - b)) ltac:(lia) ltac:(lia)). nia.
  - apply Z.leb_gt in Ecmp. intros E1.
    pose proof (scale2_shift n d (a - b) 1 N D N0 D0 ltac:(lia) E0 E1) as Hsh.
    change (2 ^ 1) with 2 in Hsh.
    destruct (scale2_pos n d _ _ _ Hn Hd E0) as [HN0 HD0].
    destruct (scale2_pos n d _ _ _ Hn Hd E1) as [HN HD].
    assert (Hlow : D0 < 2 * N0).
    { unfold BigFloat.scale2 in E0.
      destruct (0 <=? a - b) eqn:Ek; injection E0 as <- <-.
      - apply Z.leb_le in Ek.
        assert (HA : A = B * 2 ^ (a - b)).
        { unfold A, B. rewrite <- Z.pow_add_r by lia. f_equal. lia. }
        pose proof (Z.pow_pos_nonneg 2 (a - b) ltac:(lia) ltac:(lia)). nia.
      - apply Z.leb_gt in Ek.
        assert (HB : B = A * 2 ^ (- (a - b))).
        { unfold A, B. rewrite <- Z.pow_add_r by lia. f_equal. lia. }
        pose proof (Z.pow_pos_nonneg 2 (- (a - b)) ltac:(lia) ltac:(lia)). nia. }
    split; nia.
Qed.

(** [round_quot p n d] is [n/d] rounded to [p] bits: the mantissa has
    [p] bits (or is [2^p]) and is off by at most half a unit. *)
Lemma round_quot_spec p n d q e N D :
  0 < n -> 0 < d -> 1 <= p ->
  BigFloat.round_quot p n d = (q, e) -> BigFloat.scale2 n d e = (N, D) ->
  0 < D /\ 2 ^ (p - 1) * D <= N < 2 ^ p * D /\
  2 ^ (p - 1) <= q <= 2 ^ p /\ - D <= 2 * q * D - 2 * N <= D.
Proof.
  intros Hn Hd Hp. unfold BigFloat.round_quot.
  set (k := BigFloat.ilog2_quot n d).
  destruct (BigFloat.scale2 n d (k - (p - 1))) as [N' D'] eqn:E1.
  intros [= Hq <-]. rewrite E1. intros [= <- <-].
  destruct (BigFloat.scale2 n d k) as [Nk Dk] eqn:Ek.
  pose proof (ilog2_quot_spec n d Nk Dk Hn Hd Ek) as [Hk1 Hk2].
  pose proof (scale2_shift n d k (p - 1) N' D' Nk Dk ltac:(lia) Ek E1) as Hsh.
  destruct (scale2_pos n d _ _ _ Hn Hd Ek) as [HNk HDk].
  destruct (scale2_pos n d _ _ _ Hn Hd E1) as [HN HD].
  assert (Hpow : 2 ^ p = 2 * 2 ^ (p - 1)).
  { replace p with (Z.succ (p - 1)) at 1 by lia. by rewrite Z.pow_succ_r by lia. }
  pose proof (Z.pow_pos_nonneg 2 (p - 1) ltac:(lia) ltac:(lia)) as Hpp.
  set (P := 2 ^ (p - 1)) in *.
  assert (HNlo : P * D' <= N').
  { apply (Z.mul_le_mono_pos_r _ _ Dk); [done|]. nia. }
  assert (HNhi : N' < 2 * P * D').
  { apply (Z.mul_lt_mono_pos_r Dk); [done|]. nia. }
  pose proof (Z.div_mod N' D' ltac:(lia)) as Hdm.
  pose proof (Z.mod_pos_bound N' D' HD) as Hmod.
  assert (Hq0lo : P <= N' / D') by (apply Z.div_le_lower_bound; lia).
  assert (Hq0hi : N' / D' < 2 * P) by (apply Z.div_lt_upper_bound; lia).
  split; [done|]. split; [lia|].
  set (q0 := N' / D') in *. set (r := N' mod D') in *.
  destruct ((D' <? 2 * r) || (2 * r =? D') && Z.odd q0) eqn:Eup; subst q.
  - assert (Hr : D' <= 2 * r).
    { apply orb_true_iff in Eup as [?%Z.ltb_lt|[?%Z.eqb_eq _]%andb_true_iff]; lia. }
    split; [lia|]. nia.
  - assert (Hr : 2 * r <= D').
    { apply orb_false_iff in Eup as [?%Z.ltb_ge _]. lia. }
    split; [lia|]. nia.
Qed.

(** The quotient [M/C] rounded to 64 bits and scaled by [2^sh], where
    it stands for [X/100]: its mantissa, its exponent, its error. *)
Lemma quotient_near (M C sh X q e1 : Z) :
  0 < M -> 0 < C -> 0 <= sh -> X * C = 100 * M * 2 ^ sh -> 0 < X < 2 ^ 62 ->
  BigFloat.round_quot 64 M C = (q, e1) ->
  2 ^ 63 <= q <= 2 ^ 64 /\ e1 + sh <= -8 /\
  - 50 <= 100 * q - X * 2 ^ (- (e1 + sh)) <= 50.
Proof.
  intros HM HC Hsh HX HXb R1.
  destruct (BigFloat.scale2 M C e1) as [N1 D1] eqn:S1.
  destruct (round_quot_spec 64 M C q e1 N1 D1 HM HC ltac:(lia) R1 S1)
    as (HD1 & [HN1lo HN1hi] & [Hqlo Hqhi] & Herr1).
  change (2 ^ (64 - 1)) with (2 ^ 63) in *.
  pose proof (Z.pow_pos_nonneg 2 sh ltac:(lia) Hsh) as HS.
  set (S := 2 ^ sh) in *.
  assert (He1 : e1 + sh <= -8).
  { destruct (Z.le_gt_cases (e1 + sh) (-8)) as [?|Hgt]; [done|exfalso].
    unfold BigFloat.scale2 in S1. destruct (0 <=? e1) eqn:E; injection S1 as <- <-.
    - apply Z.leb_le in E.
      pose proof (Z.pow_pos_nonneg 2 e1 ltac:(lia) E). nia.
    - apply Z.leb_gt in E.
      assert (Hle : 2 ^ (- e1) <= 2 ^ (sh + 7)) by (apply Z.pow_le_mono_r; lia).
      rewrite Z.pow_add_r in Hle by lia. fold S in Hle.
      change (2 ^ 7) with 128 in Hle. nia. }
  unfold BigFloat.scale2 in S1. rewrite (proj2 (Z.leb_gt 0 e1)) in S1 by lia.
  injection S1 as <- <-.
  set (T := 2 ^ (- (e1 + sh))).
  assert (HT : 0 < T) by (apply Z.pow_pos_nonneg; lia).
  assert (HTe : 2 ^ (- e1) = S * T).
  { unfold S, T. rewrite <- Z.pow_add_r by lia. f_equal. lia. }
  rewrite HTe in *.
  split; [done|]. split; [done|].
  assert (Hc : - (50 * C) <= C * (100 * q - X * T) <= 50 * C) by nia.
  split; nia.
Qed.

(** A 64-bit float near [X/100], times 100, truncated: [X] or [X - 1]. *)
Lemma times_100_trunc (neg : bool) (q ef X : Z) :
  2 ^ 63 <= q <= 2 ^ 64 -> ef <= -8 ->
  - 50 <= 100 * q - X * 2 ^ (- ef) <= 50 -> 0 < X ->
  exists a,
    (g ← BigFloat.Mul (BigFloat.FFin 64 neg q ef) f100; Some (BigFloat.Int g 0))
    = Some (if neg then - a else a) /\
    X - 1 <= a <= X.
Proof.
  intros [Hqlo Hqhi] Hef Herr1 HX.
  unfold BigFloat.Mul, f100, BigFloat.NewFloat.
  change (100 =? 0) with false. change (100 <? 0) with false.
  change (Z.abs 100) with 100. cbv iota.
  cbn [BigFloat.Prec BigFloat.MulP]. change (BigFloat.umax32 64 53) with 64.
  unfold BigFloat.fin_round.
  destruct (BigFloat.round_quot 64 (q * 100) 1) as [q2 e2] eqn:R2.
  cbn [mbind option_bind BigFloat.Int].
  rewrite !xorb_false_r.
  destruct (BigFloat.scale2 (q * 100) 1 e2) as [N2 D2] eqn:S2.
  destruct (round_quot_spec 64 (q * 100) 1 q2 e2 N2 D2
              ltac:(lia) ltac:(lia) ltac:(lia) R2 S2)
    as (HD2 & [HN2lo HN2hi] & [Hq2lo Hq2hi] & Herr2).
  change (2 ^ (64 - 1)) with (2 ^ 63) in *.
  assert (He2 : 6 <= e2 <= 7).
  { unfold BigFloat.scale2 in S2. destruct (0 <=? e2) eqn:E; injection S2 as <- <-.
    - apply Z.leb_le in E. split.
      + destruct (Z.le_gt_cases 6 e2) as [?|Hlt]; [done|exfalso].
        assert (2 ^ e2 <= 2 ^ 5) by (apply Z.pow_le_mono_r; lia).
        change (2 ^ 5) with 32 in *. lia.
      + destruct (Z.le_gt_cases e2 7) as [?|Hgt]; [done|exfalso].
        assert (2 ^ 8 <= 2 ^ e2) by (apply Z.pow_le_mono_r; lia).
        change (2 ^ 8) with 256 in *. lia.
    - apply Z.leb_gt in E. exfalso.
      assert (2 ^ 1 <= 2 ^ (- e2)) by (apply Z.pow_le_mono_r; lia).
      change (2 ^ 1) with 2 in *. nia. }
  unfold BigFloat.scale2 in S2. rewrite (proj2 (Z.leb_le 0 e2)) in S2 by lia.
  injection S2 as <- <-.
  match goal with
  | |- context [0 <=? ?E] => replace E with (e2 + ef) by lia
  end.
  rewrite (proj2 (Z.leb_gt 0 (e2 + ef))) by lia.
  set (T := 2 ^ (- ef - 8)).
  assert (HT : 1 <= T) by (pose proof (Z.pow_pos_nonneg 2 (- ef - 8)); unfold T; lia).
  assert (HTe : 2 ^ (- ef) = 256 * T).
  { unfold T. change 256 with (2 ^ 8). rewrite <- Z.pow_add_r by lia. f_equal. lia. }
  assert (Hexp : 2 ^ (- (e2 + ef)) = 2 ^ (8 - e2) * T).
  { unfold T. rewrite <- Z.pow_add_r by lia. f_equal. lia. }
  rewrite Hexp. rewrite HTe in Herr1.
  exists (q2 / (2 ^ (8 - e2) * T)). split; [done|].
  assert (e2 = 6 \/ e2 = 7) as [-> | ->] by lia.
  - change (2 ^ (8 - 6)) with 4. change (2 ^ 6) with 64 in *. split.
    + apply Z.div_le_lower_bound; nia.
    + assert (q2 / (4 * T) < X + 1); [|lia].
      apply Z.div_lt_upper_bound; nia.
  - change (2 ^ (8 - 7)) with 2. change (2 ^ 7) with 128 in *. split.
    + apply Z.div_le_lower_bound; nia.
    + assert (q2 / (2 * T) < X + 1); [|lia].
      apply Z.div_lt_upper_bound; nia.
Qed.

(** A magnitude of [10^(2-k)*M] hundredths written with [k] digits
    after the point, [k] being 1 or 2, read, multiplied by 100 and
    truncated: the magnitude, or one less. *)
Lemma decimal_magnitude (neg : bool) (M k : Z) :
  k = 1 \/ k = 2 -> 0 < M -> 10 ^ (2 - k) * M < 2 ^ 62 ->
  exists a,
    (f ← BigFloat.of_decimal neg M k; g ← BigFloat.Mul f f100;
     Some (BigFloat.Int g 0)) = Some (if neg then - a else a) /\
    10 ^ (2 - k) * M - 1 <= a <= 10 ^ (2 - k) * M.
Proof.
  intros Hk HM Hlim. unfold BigFloat.of_decimal.
  rewrite (proj2 (Z.eqb_neq M 0)) by lia.
  destruct Hk as [-> | ->].
  - change (1 =? 0) with false. cbv iota. change (10 ^ (2 - 1)) with 10 in *.
    change (BigFloat.pow5 128 1)
      with (Some (BigFloat.FFin 128 false (5 * 2 ^ 125) (-125))).
    cbn [mbind option_bind BigFloat.QuoP]. unfold BigFloat.fin_round.
    destruct (BigFloat.round_quot 64 M (5 * 2 ^ 125)) as [q e1] eqn:R1.
    rewrite xorb_false_r.
    destruct (quotient_near M (5 * 2 ^ 125) 124 (10 * M) q e1
                ltac:(lia) ltac:(lia) ltac:(lia)
                ltac:(change (2 ^ 125) with (2 * 2 ^ 124); ring) ltac:(lia) R1)
      as (Hq & He & Herr).
    replace (e1 + (- (1) - -125)) with (e1 + 124) by lia.
    apply times_100_trunc; (done || lia).
  - change (2 =? 0) with false. cbv iota. change (10 ^ (2 - 2)) with 1 in *.
    rewrite !Z.mul_1_l in *.
    change (BigFloat.pow5 128 2)
      with (Some (BigFloat.FFin 128 false (25 * 2 ^ 123) (-123))).
    cbn [mbind option_bind BigFloat.QuoP]. unfold BigFloat.fin_round.
    destruct (BigFloat.round_quot 64 M (25 * 2 ^ 123)) as [q e1] eqn:R1.
    rewrite xorb_false_r.
    destruct (quotient_near M (25 * 2 ^ 123) 121 M q e1
                ltac:(lia) ltac:(lia) ltac:(lia)
                ltac:(change (2 ^ 123) with (4 * 2 ^ 121); ring) ltac:(lia) R1)
      as (Hq & He & Herr).
    replace (e1 + (- (2) - -123)) with (e1 + 121) by lia.
    apply times_100_trunc; (done || lia).
Qed.

Lemma through_float_within x :
  Z.abs x < 2 ^ 62 ->
  exists y, through_float x = Some y /\
    (0 <= x -> x - 1 <= y <= x) /\ (x <= 0 -> x <= y <= x + 1).
Proof.
  intros Hx. destruct (Z.eq_dec x 0) as [->|Hne].
  { exists 0. split; [reflexivity|lia]. }
  destruct (decimal_magnitude (x <? 0) (Z.abs x) 2 ltac:(by right) ltac:(lia)
              ltac:(change (10 ^ (2 - 2)) with 1; lia)) as (a & Hrun & Ha).
  change (10 ^ (2 - 2)) with 1 in Ha.
  unfold through_float. rewrite Hrun.
  destruct (x <? 0) eqn:E.
  - apply Z.ltb_lt in E. exists (- a). split; [done|lia].
  - apply Z.ltb_ge in E. exists a. split; [done|lia].
Qed.

Lemma CurrencyFromString_RawString (c : Currency) :
  CurrencyFromString (RawString c)
  = (x ← through_float (raw c); Some (mkCurrency x)).
Proof.
  unfold CurrencyFromString, setString, through_float.
  rewrite RawString_no_underscore, RawString_no_symbol.
  rewrite Float_SetString_RawString.
  destruct (BigFloat.of_decimal _ _ 2) as [f|]; [|done]. simpl.
  by destruct (BigFloat.Mul f f100).
Qed.

(** X28.  Reading back the raw string of a value of magnitude below
    2^62 hundredths never fails and never panics, and gives the value
    or the value one hundredth nearer to zero: [ParseCurrency] returns
    it without an error, [CurrencyFromString] returns the same. *)
Theorem ParseCurrency_RawString_within_a_hundredth (c : Currency) :
  Z.abs (raw c) < 2 ^ 62 ->
  exists y,
    ParseCurrency (RawString c) = Some (mkCurrency y, None) /\
    CurrencyFromString (RawString c) = Some (mkCurrency y) /\
    (0 <= raw c -> raw c - 1 <= y <= raw c) /\
    (raw c <= 0 -> raw c <= y <= raw c + 1).
Proof.
  intros Hc. destruct (through_float_within (raw c) Hc) as (y & Hrun & Hpos & Hneg).
  exists y. rewrite ParseCurrency_RawString, CurrencyFromString_RawString, Hrun.
  done.
Qed.

(** A quotient that comes out even is not rounded. *)
Lemma round_quot_exact p n d q e N D :
  0 < d -> BigFloat.round_quot p n d = (q, e) -> BigFloat.scale2 n d e = (N, D) ->
  0 < D -> N mod D = 0 -> q * D = N.
Proof.
  intros Hd. unfold BigFloat.round_quot.
  destruct (BigFloat.scale2 n d (BigFloat.ilog2_quot n d - (p - 1))) as [N' D'] eqn:E1.
  intros [= Hq <-]. rewrite E1. intros [= <- <-] HD Hmod.
  rewrite Hmod in Hq.
  rewrite (proj2 (Z.ltb_ge D' (2 * 0))) in Hq by lia.
  rewrite (proj2 (Z.eqb_neq (2 * 0) D')) in Hq by lia.
  cbn [orb andb] in Hq. subst q.
  pose proof (Z.div_mod N' D' ltac:(lia)). lia.
Qed.

(** A whole number below 2^64/100, held exactly, times 100, truncated. *)
Lemma times_100_exact (M : Z) :
  0 < M -> 100 * M < 2 ^ 64 ->
  (f ← BigFloat.of_decimal false M 0; g ← BigFloat.Mul f f100;
   Some (BigFloat.Int g 0)) = Some (100 * M).
Proof.
  intros HM Hlim. unfold BigFloat.of_decimal.
  rewrite (proj2 (Z.eqb_neq M 0)) by lia.
  change (0 =? 0) with true. cbv iota.
  cbn [mbind option_bind]. unfold BigFloat.fin_round.
  destruct (BigFloat.round_quot 64 M 1) as [q e1] eqn:R1.
  unfold BigFloat.Mul, f100, BigFloat.NewFloat.
  change (100 =? 0) with false. change (100 <? 0) with false.
  change (Z.abs 100) with 100. cbv iota.
  cbn [BigFloat.Prec BigFloat.MulP]. change (BigFloat.umax32 64 53) with 64.
  unfold BigFloat.fin_round.
  destruct (BigFloat.round_quot 64 (q * 100) 1) as [q2 e2] eqn:R2.
  cbn [mbind option_bind BigFloat.Int xorb].
  (* the whole number is held exactly *)
  destruct (BigFloat.scale2 M 1 e1) as [N1 D1] eqn:S1.
  destruct (round_quot_spec 64 M 1 q e1 N1 D1
              ltac:(lia) ltac:(lia) ltac:(lia) R1 S1)
    as (HD1 & [HN1lo HN1hi] & [Hqlo Hqhi] & _).
  change (2 ^ (64 - 1)) with (2 ^ 63) in *.
  assert (He1 : e1 <= -6).
  { destruct (Z.le_gt_cases e1 (-6)) as [?|Hgt]; [done|exfalso].
    unfold BigFloat.scale2 in S1. destruct (0 <=? e1) eqn:E; injection S1 as <- <-.
    - apply Z.leb_le in E.
      pose proof (Z.pow_pos_nonneg 2 e1 ltac:(lia) E). nia.
    - apply Z.leb_gt in E.
      assert (2 ^ (- e1) <= 2 ^ 5) by (apply Z.pow_le_mono_r; lia).
      change (2 ^ 5) with 32 in *. nia. }
  pose proof (round_quot_exact 64 M 1 q e1 N1 D1 ltac:(lia) R1 S1 HD1) as Hq.
  unfold BigFloat.scale2 in S1. rewrite (proj2 (Z.leb_gt 0 e1)) in S1 by lia.
  injection S1 as <- <-. rewrite Z.mod_1_r, Z.mul_1_r in Hq. specialize (Hq eq_refl).
  set (T := 2 ^ (- e1)) in *.
  assert (HT : 0 < T) by (apply Z.pow_pos_nonneg; lia).
  (* so is the product *)
  destruct (BigFloat.scale2 (q * 100) 1 e2) as [N2 D2] eqn:S2.
  destruct (round_quot_spec 64 (q * 100) 1 q2 e2 N2 D2
              ltac:(lia) ltac:(lia) ltac:(lia) R2 S2)
    as (HD2 & [HN2lo HN2hi] & _ & _).
  change (2 ^ (64 - 1)) with (2 ^ 63) in *.
  pose proof (round_quot_exact 64 (q * 100) 1 q2 e2 N2 D2 ltac:(lia) R2 S2 HD2) as Hq2.
  assert (He2 : e2 <= - e1).
  { destruct (Z.le_gt_cases e2 (- e1)) as [?|Hgt]; [done|exfalso].
    unfold BigFloat.scale2 in S2. rewrite (proj2 (Z.leb_le 0 e2)) in S2 by lia.
    injection S2 as <- <-.
    assert (2 ^ (- e1 + 1) <= 2 ^ e2) by (apply Z.pow_le_mono_r; lia).
    rewrite Z.pow_add_r in * by lia. fold T in H0. change (2 ^ 1) with 2 in *. nia. }
  match goal with
  | |- context [0 <=? ?E] => replace E with (e2 + e1) by lia
  end.
  set (U := 2 ^ (- (e2 + e1))).
  assert (HU : 0 < U) by (apply Z.pow_pos_nonneg; lia).
  assert (Hq2' : q2 = 100 * M * U).
  { unfold BigFloat.scale2 in S2. destruct (0 <=? e2) eqn:E; injection S2 as <- <-.
    - apply Z.leb_le in E.
      assert (HTU : T = 2 ^ e2 * U).
      { unfold T, U. rewrite <- Z.pow_add_r by lia. f_equal. lia. }
      pose proof (Z.pow_pos_nonneg 2 e2 ltac:(lia) E) as He2pos.
      assert (Hdiv : q * 100 mod (1 * 2 ^ e2) = 0).
      { rewrite Z.mul_1_l, Hq, HTU.
        replace (M * (2 ^ e2 * U) * 100) with (M * U * 100 * 2 ^ e2) by ring.
        apply Z.mod_mul. lia. }
      specialize (Hq2 Hdiv). rewrite Z.mul_1_l, Hq, HTU in Hq2. nia.
    - apply Z.leb_gt in E.
      rewrite Z.mod_1_r, Z.mul_1_r in Hq2. specialize (Hq2 eq_refl).
      assert (HTU : U = 2 ^ (- e2) * T).
      { unfold T, U. rewrite <- Z.pow_add_r by lia. f_equal. lia. }
      rewrite Hq2, Hq, HTU. ring. }
  destruct (0 <=? e2 + e1) eqn:E.
  - apply Z.leb_le in E. assert (e2 + e1 = 0) as HE by lia.
    unfold U in Hq2'. rewrite HE in *. simpl in Hq2'. rewrite Hq2'. f_equal. lia.
  - f_equal. fold U. rewrite Hq2'. apply Z.div_mul. lia.
Qed.

Lemma Float_SetString_Int_String (n : Z) :
  0 <= n ->
  Float_SetString (Int_String n)
  = (f ← BigFloat.of_decimal false n 0; Some (Some f)).
Proof.
  intros Hn. unfold Int_String. rewrite (proj2 (Z.ltb_ge n 0)) by lia.
  set (fuel := S (Z.to_nat (Z.log2 n))).
  destruct (digits_fuel_head fuel n [] ltac:(lia) Hn) as (ch & tl & Hd & Hch).
  destruct (digits_fuel_scan fuel n ltac:(lia) (fuel_suffices _ Hn))
    as (d & Hdpos & Hscan).
  clearbody fuel.
  assert (Hbody : scan_mantissa (digits_fuel fuel n []) 0 0 None = Some (n, d, None)).
  { rewrite <- (app_nil_r (digits_fuel fuel n [])), Hscan. simpl.
    do 2 f_equal. }
  unfold Float_SetString.
  destruct (digits_fuel fuel n []) as [|ch' tl'] eqn:Hb at 1; [by rewrite Hd in Hb|].
  assert (ch' = ch) as -> by (rewrite Hd in Hb; by injection Hb).
  destruct (ch =? 45) eqn:E1; [lia|]. destruct (ch =? 43) eqn:E2; [lia|].
  rewrite Hbody. rewrite (proj2 (Z.eqb_neq d 0)) by lia. done.
Qed.

(** X29.  A whole number written in digits is read exactly: for
    [0 <= n] with [100 * n] below 2^64, [ParseCurrency] and
    [CurrencyFromString] of the decimal digits of [n] give [n] units,
    that is [100 * n] hundredths, without an error. *)
Theorem ParseCurrency_whole_number (n : Z) :
  0 <= n -> 100 * n < 2 ^ 64 ->
  ParseCurrency (Int_String n) = Some (mkCurrency (100 * n), None) /\
  CurrencyFromString (Int_String n) = Some (mkCurrency (100 * n)).
Proof.
  intros Hn Hlim.
  assert (Hstrip : strip_underscores (Int_String n) = Int_String n).
  { apply strip_underscores_id. by apply Int_String_no_underscore. }
  assert (Hsym : HasPrefix_SYMBOL (Int_String n) = false).
  { destruct (Int_String_digits n Hn) as [Hdig Hne].
    destruct (Int_String n) as [|ch tl]; [done|].
    apply Forall_cons in Hdig as [Hch _]. simpl. unfold SYMBOL. lia. }
  assert (Hset : setString None (Int_String n)
                 = Some (Some (mkCurrency (100 * n)), true)).
  { unfold setString. rewrite Hsym, Float_SetString_Int_String by done.
    destruct (Z.eq_dec n 0) as [->|Hne]; [reflexivity|].
    pose proof (times_100_exact n ltac:(lia) Hlim) as Hrun.
    destruct (BigFloat.of_decimal false n 0) as [f|]; [|done].
    cbn [mbind option_bind] in *.
    destruct (BigFloat.Mul f f100) as [g|]; [|done].
    cbn [mbind option_bind] in *. by injection Hrun as ->. }
  unfold ParseCurrency, CurrencyFromString. by rewrite Hstrip, Hset.
Qed.

(** ** JSON *)

(** What [MarshalJSON] writes: the raw string, without its last digit
    when that is a zero. *)
Lemma MarshalJSON_shape (c : Currency) :
  MarshalJSON c
  = (if raw c <? 0 then [45] else [])
      ++ Int_String (Z.abs (raw c) / 100)
      ++ 46 :: (48 + Z.abs (raw c) mod 100 / 10)
           :: (if Z.abs (raw c) mod 100 mod 10 =? 0 then []
               else [48 + Z.abs (raw c) mod 100 mod 10]).
Proof.
  unfold MarshalJSON. rewrite RawString_shape.
  set (sg := if raw c <? 0 then [45] else []).
  set (W := Int_String (Z.abs (raw c) / 100)).
  set (d1 := Z.abs (raw c) mod 100 / 10). set (d2 := Z.abs (raw c) mod 100 mod 10).
  assert (Hsplit : sg ++ W ++ [46; 48 + d1; 48 + d2]
                   = (sg ++ W ++ [46; 48 + d1]) ++ [48 + d2]).
  { rewrite <- !app_assoc. do 2 f_equal. }
  rewrite Hsplit, last_last, removelast_last.
  destruct (d2 =? 0) eqn:E.
  - apply Z.eqb_eq in E. rewrite E. change (48 + 0 =? 48) with true. done.
  - apply Z.eqb_neq in E. rewrite (proj2 (Z.eqb_neq (48 + d2) 48)) by lia.
    by rewrite <- Hsplit.
Qed.

Lemma setString_RawString (c : Currency) :
  setString None (RawString c)
  = (x ← through_float (raw c); Some (Some (mkCurrency x), true)).
Proof.
  unfold setString, through_float.
  rewrite RawString_no_symbol, Float_SetString_RawString.
  destruct (BigFloat.of_decimal _ _ 2) as [f|]; [|done]. simpl.
  by destruct (BigFloat.Mul f f100).
Qed.

(** Scanning a value written with one digit after the point. *)
Lemma Float_SetString_one_digit (c : Currency) :
  Float_SetString
    ((if raw c <? 0 then [45] else [])
       ++ Int_String (Z.abs (raw c) / 100)
       ++ [46; 48 + Z.abs (raw c) mod 100 / 10])
  = (f ← BigFloat.of_decimal (raw c <? 0) (Z.abs (raw c) / 10) 1; Some (Some f)).
Proof.
  set (a := Z.abs (raw c)).
  assert (Ha : 0 <= a) by lia.
  assert (Hw : 0 <= a / 100) by (apply Z.div_pos; lia).
  pose proof (Z.mod_pos_bound a 100 ltac:(lia)) as Hfr.
  unfold Int_String. rewrite (proj2 (Z.ltb_ge (a / 100) 0)) by lia.
  set (fuel := S (Z.to_nat (Z.log2 (a / 100)))).
  destruct (digits_fuel_head fuel (a / 100) [] ltac:(lia) Hw) as (ch & tl & Hd & Hch).
  destruct (digits_fuel_scan fuel (a / 100) ltac:(lia) (fuel_suffices _ Hw))
    as (d & Hdpos & Hscan).
  clearbody fuel.
  assert (Hbody :
    scan_mantissa (digits_fuel fuel (a / 100) [] ++ [46; 48 + a mod 100 / 10])
      0 0 None
    = Some (a / 10, d + 1, Some d)).
  { rewrite Hscan. simpl.
    assert (Hq : 0 <= a mod 100 / 10 < 10).
    { split; [apply Z.div_pos; lia|apply Z.div_lt_upper_bound; lia]. }
    destruct (48 + a mod 100 / 10 =? 46) eqn:E1; [lia|].
    unfold is_digit.
    destruct ((48 <=? 48 + a mod 100 / 10) && (48 + a mod 100 / 10 <=? 57))
      eqn:E3; [|lia].
    apply f_equal. apply f_equal2; [apply f_equal2; [|lia]|reflexivity].
    Z.div_mod_to_equations. lia. }
  assert (Hcount : (d + 1 =? 0) = false) by lia.
  assert (Hk : d + 1 - d = 1) by lia.
  unfold Float_SetString.
  destruct (raw c <? 0) eqn:Eneg.
  - simpl app at 1. cbv iota beta.
    change (45 =? 45) with true. cbv iota.
    by rewrite Hbody, Hcount, Hk.
  - rewrite app_nil_l.
    destruct (digits_fuel fuel (a / 100) [] ++ _) as [|ch' tl'] eqn:Hb at 1.
    { by rewrite Hd in Hb. }
    assert (ch' = ch) as -> by (rewrite Hd in Hb; by injection Hb).
    destruct (ch =? 45) eqn:E1; [lia|]. destruct (ch =? 43) eqn:E2; [lia|].
    by rewrite Hbody, Hcount, Hk.
Qed.

(** X30.  What [MarshalJSON] writes, [UnmarshalJSON] reads into a fresh
    value without an error and without a panic, for every value of
    magnitude below 2^62 hundredths; the value read is the value
    written or the value one hundredth nearer to zero. *)
Theorem UnmarshalJSON_MarshalJSON_within_a_hundredth (c : Currency) :
  Z.abs (raw c) < 2 ^ 62 ->
  exists y,
    UnmarshalJSON None (MarshalJSON c) = Some (Some (mkCurrency y), None) /\
    (0 <= raw c -> raw c - 1 <= y <= raw c) /\
    (raw c <= 0 -> raw c <= y <= raw c + 1).
Proof.
  intros Hc.
  assert (Hset : exists y, setString None (MarshalJSON c)
                           = Some (Some (mkCurrency y), true) /\
                   (0 <= raw c -> raw c - 1 <= y <= raw c) /\
                   (raw c <= 0 -> raw c <= y <= raw c + 1)).
  { destruct (Z.abs (raw c) mod 100 mod 10 =? 0) eqn:E.
    - apply Z.eqb_eq in E.
      assert (Hsym : HasPrefix_SYMBOL (MarshalJSON c) = false).
      { rewrite MarshalJSON_shape. destruct (raw c <? 0); [done|].
        rewrite app_nil_l.
        destruct (Int_String_digits (Z.abs (raw c) / 100)
                    ltac:(apply Z.div_pos; lia)) as [Hdig Hne].
        destruct (Int_String _) as [|ch tl]; [done|].
        apply Forall_cons in Hdig as [Hch _]. simpl. unfold SYMBOL. lia. }
      unfold setString. rewrite Hsym.
      rewrite MarshalJSON_shape, E. change (0 =? 0) with true. cbv iota.
      rewrite Float_SetString_one_digit.
      assert (H10 : 10 * (Z.abs (raw c) / 10) = Z.abs (raw c)).
      { Z.div_mod_to_equations. lia. }
      destruct (Z.eq_dec (Z.abs (raw c) / 10) 0) as [Hz|Hnz].
      + rewrite Hz. exists 0. split; [by destruct (raw c <? 0)|lia].
      + assert (Hpos : 0 < Z.abs (raw c) / 10).
        { pose proof (Z.div_pos (Z.abs (raw c)) 10). lia. }
        destruct (decimal_magnitude (raw c <? 0) (Z.abs (raw c) / 10) 1
                    ltac:(by left) Hpos
                    ltac:(change (10 ^ (2 - 1)) with 10; lia))
          as (a & Hrun & Ha).
        change (10 ^ (2 - 1)) with 10 in Ha. rewrite H10 in Ha.
        destruct (BigFloat.of_decimal _ _ 1) as [f|]; [|done].
        cbn [mbind option_bind] in *.
        destruct (BigFloat.Mul f f100) as [g|]; [|done].
        cbn [mbind option_bind] in *. injection Hrun as Hrun. rewrite Hrun.
        destruct (raw c <? 0) eqn:En.
        * apply Z.ltb_lt in En. exists (- a). split; [done|lia].
        * apply Z.ltb_ge in En. exists a. split; [done|lia].
    - assert (Hraw : MarshalJSON c = RawString c).
      { by rewrite MarshalJSON_shape, RawString_shape, E. }
      rewrite Hraw, setString_RawString.
      destruct (through_float_within (raw c) Hc) as (y & Hrun & Hb).
      exists y. by rewrite Hrun. }
  destruct Hset as (y & Hrun & Hb). exists y. split; [|done].
  assert (Hhead : exists d0 tl, MarshalJSON c = d0 :: tl /\ d0 ≠ 34).
  { rewrite MarshalJSON_shape. destruct (raw c <? 0).
    - eexists _, _. split; [reflexivity|done].
    - rewrite app_nil_l.
      destruct (Int_String_digits (Z.abs (raw c) / 100)
                  ltac:(apply Z.div_pos; lia)) as [Hdig Hne].
      destruct (Int_String _) as [|ch tl]; [done|].
      apply Forall_cons in Hdig as [Hch _].
      eexists _, _. split; [reflexivity|lia]. }
  destruct Hhead as (d0 & tl & Hm & Hd0).
  unfold UnmarshalJSON. rewrite Hm at 1.
  rewrite (proj2 (Z.eqb_neq d0 34)) by done. cbn [andb mbind option_bind].
  by rewrite Hrun.
Qed.

End LedgerMore.







(** ** The code on concrete inputs *)

#[local] Existing Instance latin1_tables.

(** [GenerateTransactionID] never assigns [lastTime]. *)
Lemma GenerateTransactionID_lastTime g t draws :
  lastTime (fst (GenerateTransactionID g t draws)) = lastTime g.
Proof.
  unfold GenerateTransactionID.
  destruct (first_unseen _ draws); [|done].
  by destruct (if lastTime g <? t then _ else _).
Qed.

(** So from the initial state on, at any second that is not negative,
    the set of seen draws is emptied on entry and the first draw is
    taken, whatever was generated before. *)
Lemma GenerateTransactionID_takes_first_draw g t d draws :
  lastTime g = -1 -> 0 <= t ->
  snd (GenerateTransactionID g t (d :: draws))
  = Ret (str "T" ++ fmt_X t ++ str "-" ++ fmt_08X (Uint32 d), t).
Proof.
  intros Hl Ht. unfold GenerateTransactionID. rewrite Hl.
  destruct (-1 <? t) eqn:E; [|lia].
  simpl. rewrite bool_decide_eq_false_2 by apply not_elem_of_empty. done.
Qed.

(** C2, on the code: two calls within the second 1600000000 that are
    both handed the draw 7 return the same identifier. *)
Theorem GenerateTransactionID_repeats_within_a_second :
  let r1 := GenerateTransactionID initIdGen 1600000000 [7] in
  let r2 := GenerateTransactionID (fst r1) 1600000000 [7] in
  snd r1 = Ret (str "T5F5E1000-00000007", 1600000000) /\ snd r2 = snd r1.
Proof. vm_compute. done. Qed.

(** C5, on the code: ¤0.53 is written as 0.53 and read back as ¤0.52,
    through [ParseCurrency] and through the JSON codec alike. *)
Theorem ParseCurrency_RawString_loses_a_hundredth :
  RawString (mkCurrency 53) = str "0.53" /\
  ParseCurrency (RawString (mkCurrency 53)) = Some (mkCurrency 52, None) /\
  CurrencyFromString (RawString (mkCurrency 53)) = Some (mkCurrency 52) /\
  MarshalJSON (mkCurrency 53) = str "0.53" /\
  UnmarshalJSON None (MarshalJSON (mkCurrency 53))
    = Some (Some (mkCurrency 52), None).
Proof. vm_compute. done. Qed.

(** C1, on the code: a pays ¤0.05 to b, whose rate turns that into less
    than a hundredth; the call ends with ERR_CANNOTPAYNOTHING and a has
    ¤9.95 left of its ¤10.00.  a pays ¤10.00 to c, whose rate turns that
    into more than the limit; the call ends with ERR_TRANSACTIONLIMIT
    and a has nothing left. *)
Theorem Pay_rejected_after_debit_keeps_the_debit :
  let r := Pay 0%nat (str "u1") (str "u2") 1%nat (mkCurrency 5) false false
             1600000000 [7] sample_world in
  let r' := Pay 0%nat (str "u1") (str "u2") 2%nat (mkCurrency 1000) false false
              1600000000 [7] sample_world in
  balance_at sample_world 0%nat = Some 1000 /\
  snd r = Ret (PayErr "ERR_CANNOTPAYNOTHING") /\
  balance_at (fst r) 0%nat = Some 995 /\
  snd r' = Ret (PayErr "ERR_TRANSACTIONLIMIT") /\
  balance_at (fst r') 0%nat = Some 0.
Proof. vm_compute. done. Qed.

(** The sibling exit of [Pay], taken when the credit fails, does put the
    amount back: after it the balance of the source is the one before
    the debit. *)
Lemma ChangeBal_undoes_debit amount s s1 :
  0 <= raw amount ->
  ChangeBal (Neg amount) s = (s1, true) ->
  balance (fst (ChangeBal amount s1)) = balance s.
Proof.
  intros Hpos Hd. apply ChangeBal_true in Hd as [Hge ->].
  simpl in Hge. unfold i0 in Hge.
  unfold ChangeBal. simpl.
  assert (Heq : Add (Add (balance s) (Neg amount)) amount = balance s).
  { destruct (balance s) as [b]. unfold Add, Neg, i0. simpl. f_equal. lia. }
  rewrite Heq.
  destruct (LtZero (balance s)) eqn:E; simpl; [|done].
  apply LtZero_spec in E. lia.
Qed.

(** C6 as the claim words it fails: the name [padded_name] has 49 runes
    as given, yet [Pay] does not answer ERR_SOURCEUSERNAMETOOLONG (the
    payment goes through). *)
Lemma Pay_counts_runes_after_trimming :
  48 < len padded_name /\
  snd (Pay 0%nat padded_name (str "u2") 1%nat (mkCurrency 500) false false
         1600000000 [7] sample_world)
    ≠ Ret (PayErr "ERR_SOURCEUSERNAMETOOLONG").
Proof. split; [done|]. vm_compute. discriminate. Qed.

(** S1: ¤25.00 from A (¤100.00) to B (¤0.00), both at a fixed rate. *)
Example scenario_S1 :
  let r := Pay 0%nat (str "u1") (str "u2") 1%nat (mkCurrency 2500) false false
             1600000000 [7] (scenario_world 10000 0 0) in
  balance_at (fst r) 0%nat = Some 7500 /\
  balance_at (fst r) 1%nat = Some 2500 /\
  (length <$> (history <$> heap (fst r) !! 0%nat)) = Some 1%nat /\
  (length <$> (history <$> heap (fst r) !! 1%nat)) = Some 1%nat /\
  ((fun s => (fun t => (raw (Amount t), raw (SentAmount t), raw (ReceivedAmount t)))
              <$> pendingTransactions s) <$> heap (fst r) !! 1%nat)
    = Some [(2500, 2500, 2500)].
Proof. vm_compute. done. Qed.

(** S2: ¤100.00 to an account with ¤250,000.00 against a target of
    ¤500,000.00 arrives as ¤199.96. *)
Example scenario_S2 :
  (fst <$> GetExchangeRate (sample_server "B" 25000000 50000000)
             (mkCurrency 10000) false) = Some (mkCurrency 19996).
Proof. vm_compute. done. Qed.

(** S4: ¤100.00 from an account that holds ¤10.00. *)
Example scenario_S4 :
  Pay 0%nat (str "u1") (str "u2") 1%nat (mkCurrency 10000) false false
    1600000000 [7] (scenario_world 1000 0 0)
  = (scenario_world 1000 0 0, Ret (PayErr "ERR_CANNOTAFFORD")).
Proof. vm_compute. done. Qed.

(** The names slice is rewritten in place while [rawNames] still points
    at it: asked for a, a, b the same call answers a, b, b. *)
Example GetServers_a_a_b :
  (fun r => fst r) <$>
    (match snd (GetServers (mkDbTransaction None) [str "a"; str "a"; str "b"]
                  sample_world) with
     | Ret (_, r) => Some r
     | _ => None
     end)
  = Some ([3%nat; 4%nat; 4%nat], true).
Proof. vm_compute. done. Qed.

(** ** The theorems at concrete inputs *)

Lemma Pay_conserves_sum_of_balances_witness :
  let w' := fst (Pay 0%nat (str "u1") (str "u2") 1%nat (mkCurrency 500) false
                   true 1600000000 [7] sample_world) in
  (0%nat ≠ 1%nat /\
   Pay 0%nat (str "u1") (str "u2") 1%nat (mkCurrency 500) false true
     1600000000 [7] sample_world = (w', Ret (PayOk sample_payment))) /\
  exists s tg s' tg',
    heap sample_world !! 0%nat = Some s /\ heap sample_world !! 1%nat = Some tg /\
    heap w' !! 0%nat = Some s' /\ heap w' !! 1%nat = Some tg' /\
    raw (balance s') + raw (balance tg') = raw (balance s) + raw (balance tg) /\
    raw (balance s') = raw (balance s) - raw (Amount sample_payment) /\
    raw (balance tg') = raw (balance tg) + raw (Amount sample_payment).
Proof.
  intros w'.
  assert (Hne : 0%nat ≠ 1%nat) by discriminate.
  assert (Hrun : Pay 0%nat (str "u1") (str "u2") 1%nat (mkCurrency 500) false true
                   1600000000 [7] sample_world = (w', Ret (PayOk sample_payment))).
  { vm_compute. reflexivity. }
  split; [split; [exact Hne | exact Hrun]|].
  exact (Pay_conserves_sum_of_balances _ _ _ _ _ _ _ _ _ _ _ _ Hne Hrun).
Defined.

Lemma Pay_to_self_keeps_balance_witness :
  let w' := fst (Pay 0%nat (str "u1") (str "u2") 0%nat (mkCurrency 100) false
                   false 1600000000 [7] sample_world) in
  Pay 0%nat (str "u1") (str "u2") 0%nat (mkCurrency 100) false false
    1600000000 [7] sample_world = (w', Ret (PayOk sample_self_payment)) /\
  exists s s',
    heap sample_world !! 0%nat = Some s /\ heap w' !! 0%nat = Some s' /\
    balance s' = balance s /\
    history s' =
      sample_self_payment ::
        (if len (history s) <? 10 then history s else removelast (history s)).
Proof.
  intros w'.
  assert (Hrun : Pay 0%nat (str "u1") (str "u2") 0%nat (mkCurrency 100) false false
                   1600000000 [7] sample_world
                 = (w', Ret (PayOk sample_self_payment))).
  { vm_compute. reflexivity. }
  split; [exact Hrun|].
  exact (Pay_to_self_keeps_balance _ _ _ _ _ _ _ _ _ _ _ Hrun).
Defined.

Lemma sample_world_ok :
  forall p s, heap sample_world !! p = Some s ->
    0 <= raw (balance s) /\ (length (history s) <= 10)%nat.
Proof.
  intros p s Hp. unfold sample_world in Hp. simpl in Hp.
  destruct (decide (p = 2%nat)) as [->|H2].
  { rewrite lookup_insert_eq in Hp. injection Hp as <-. simpl. lia. }
  rewrite lookup_insert_ne in Hp by done.
  destruct (decide (p = 1%nat)) as [->|H1].
  { rewrite lookup_insert_eq in Hp. injection Hp as <-. simpl. lia. }
  rewrite lookup_insert_ne in Hp by done.
  destruct (decide (p = 0%nat)) as [->|H0].
  { rewrite lookup_insert_eq in Hp. injection Hp as <-. simpl. lia. }
  rewrite lookup_insert_ne in Hp by done. done.
Defined.

Lemma invariants_hold_after_each_operation_witness :
  (forall p s, heap sample_world !! p = Some s ->
     0 <= raw (balance s) /\ (length (history s) <= 10)%nat) /\
  Forall (fun w' =>
            forall p s, heap w' !! p = Some s ->
              0 <= raw (balance s) /\ (length (history s) <= 10)%nat)
    (trace [OpPay 0%nat (str "u1") (str "u2") 1%nat (mkCurrency 500) false true
              1600000000 [7];
            OpChangeBal 0%nat (mkCurrency (-100000));
            OpRejectPendingTransaction 1%nat (str "T5F5E1000-00000007")
              (Some (mkDbTransaction None));
            OpAddToHistory 2%nat sample_self_payment;
            OpRemoveFirstPendingTransactions 1%nat 3;
            OpRemovePendingTransaction 0%nat (str "T0-00000000")]
       sample_world).
Proof.
  split; [exact sample_world_ok|].
  exact (invariants_hold_after_each_operation _ sample_world sample_world_ok).
Defined.

Lemma unknown_id_leaves_account_unchanged_witness :
  (str "T0-00000000" ∉ (ID <$> pendingTransactions sample_account_with_pending)) /\
  (RemovePendingTransaction (str "T0-00000000") sample_account_with_pending
     = sample_account_with_pending /\
   fst (RejectPendingTransaction (str "T0-00000000") (Some (mkDbTransaction None))
          sample_account_with_pending) = sample_account_with_pending /\
   (is_Some (Some (mkDbTransaction None)) ->
    snd (RejectPendingTransaction (str "T0-00000000") (Some (mkDbTransaction None))
           sample_account_with_pending) = Ret [])).
Proof.
  assert (Hnot : str "T0-00000000"
                   ∉ ID <$> pendingTransactions sample_account_with_pending).
  { simpl. intros Hin. apply list_elem_of_singleton in Hin. discriminate Hin. }
  split; [exact Hnot|].
  exact (unknown_id_leaves_account_unchanged sample_account_with_pending
           (str "T0-00000000") (Some (mkDbTransaction None)) Hnot).
Defined.

Lemma latin1_lower_of_non_graphic :
  forall r, 127 < r -> isGraphicTable r = false ->
    toLowerTable r ≠ SPACE /\ uid_char (toLowerTable r) = false.
Proof.
  intros r Hr. unfold isGraphicTable, toLowerTable, latin1_tables, uid_char, SPACE.
  intros Hg.
  destruct (r =? 8490) eqn:E1; [lia|].
  destruct ((192 <=? r) && (r <=? 222) && negb (r =? 215)) eqn:E2; [lia|].
  split; lia.
Defined.

Lemma latin1_lower_of_replacement :
  toLowerTable RuneError ≠ SPACE /\ uid_char (toLowerTable RuneError) = false.
Proof. split; [discriminate|reflexivity]. Defined.

(** The name: two spaces, H, a tab, the Kelvin sign, a C1 control, É,
    a space, 9, a space. *)
Lemma HomogeniseUsername_idempotent_and_absorbs_witness :
  ((forall r, 127 < r -> isGraphicTable r = false ->
      toLowerTable r ≠ SPACE /\ uid_char (toLowerTable r) = false) /\
   (toLowerTable RuneError ≠ SPACE /\ uid_char (toLowerTable RuneError) = false)) /\
  (HomogeniseUsername (HomogeniseUsername [32; 32; 72; 9; 8490; 133; 201; 32; 57; 32])
     = HomogeniseUsername [32; 32; 72; 9; 8490; 133; 201; 32; 57; 32] /\
   HomogeniseUsername
     (fst (PasteuriseUsername [32; 32; 72; 9; 8490; 133; 201; 32; 57; 32]))
     = HomogeniseUsername [32; 32; 72; 9; 8490; 133; 201; 32; 57; 32]).
Proof.
  split; [split; [exact latin1_lower_of_non_graphic
                 | exact latin1_lower_of_replacement]|].
  exact (HomogeniseUsername_idempotent_and_absorbs
           latin1_lower_of_non_graphic latin1_lower_of_replacement
           [32; 32; 72; 9; 8490; 133; 201; 32; 57; 32]).
Defined.

Lemma GetServers_a_b_a_witness :
  let ea := Encode (sample_server "A" 1000 0) in
  let eb := Encode (sample_server "b" 0 50000000) in
  let sa := mkServer (str "a") (str "A") (mkCurrency 1000) (mkCurrency 0)
              [] [] [] [] false in
  let sb := sample_server "b" 0 50000000 in
  let p0 := fresh (dom (heap sample_world)) in
  let p1 := fresh (dom (<[p0 := sa]> (heap sample_world))) in
  (db (database sample_world) !! str "a" = Some ea /\
   db (database sample_world) !! str "b" = Some eb /\
   (str "a" ∉ dblock (database sample_world)) /\
   (str "b" ∉ dblock (database sample_world)) /\
   Decode ea = Ret sa /\ UID sa = str "a" /\
   Decode eb = Ret sb /\ UID sb = str "b") /\
  exists w' tr',
    GetServers (mkDbTransaction None) [str "a"; str "b"; str "a"] sample_world
      = (w', Ret (tr', ([p0; p1; p0], true, []))) /\
    p0 ≠ p1 /\ heap sample_world !! p0 = None /\ heap sample_world !! p1 = None /\
    heap w' = <[p1 := sb]> (<[p0 := sa]> (heap sample_world)) /\
    servers tr' = Some (<[str "b" := p1]> (<[str "a" := p0]> ∅)) /\
    dblock (database w') = {[ str "a"; str "b" ]} ∪ dblock (database sample_world).
Proof.
  intros ea eb sa sb p0 p1.
  assert (Ha : db (database sample_world) !! str "a" = Some ea)
    by (vm_compute; reflexivity).
  assert (Hb : db (database sample_world) !! str "b" = Some eb)
    by (vm_compute; reflexivity).
  assert (Hla : str "a" ∉ dblock (database sample_world))
    by apply not_elem_of_empty.
  assert (Hlb : str "b" ∉ dblock (database sample_world))
    by apply not_elem_of_empty.
  assert (Hda : Decode ea = Ret sa) by (vm_compute; reflexivity).
  assert (Hua : UID sa = str "a") by reflexivity.
  assert (Hdb : Decode eb = Ret sb) by (vm_compute; reflexivity).
  assert (Hub : UID sb = str "b") by reflexivity.
  split; [repeat split; assumption|].
  exact (GetServers_a_b_a sample_world ea eb sa sb Ha Hb Hla Hlb Hda Hua Hdb Hub).
Defined.

Lemma AddToHistory_rolling_window_witness :
  let txs := [sample_payment; sample_self_payment] in
  let s := sample_account_with_pending in
  ((length (history s) <= 10)%nat) /\
  (history (fold_left (fun s tx => fst (AddToHistory tx s)) txs s)
  = take 10 (rev txs ++ history s)).
Proof.
  intros txs s.
  assert (Hyp0 : (length (history s) <= 10)%nat).
  { subst s txs. simpl. lia. }
  exact (conj Hyp0 (AddToHistory_rolling_window txs s Hyp0)).
Defined.

Lemma removeAndReturnPendingTransaction_present_witness :
  let id := str "T5F5E1000-00000007" in
  let s := sample_account_with_pending in
  (id ∈ (ID <$> pendingTransactions s)) /\
  (exists i t,
    pendingTransactions s !! i = Some t /\ ID t = id /\
    (forall j t', (j < i)%nat -> pendingTransactions s !! j = Some t' -> ID t' ≠ id) /\
    removeAndReturnPendingTransaction id s
    = (set_modified
         (set_pendingTransactions s (delete i (pendingTransactions s))) true,
       Some t)).
Proof.
  intros id s.
  assert (Hyp0 : id ∈ (ID <$> pendingTransactions s)).
  { subst s id. apply list_elem_of_here. }
  exact (conj Hyp0 (removeAndReturnPendingTransaction_present id s Hyp0)).
Defined.

Lemma sample_world_inbox :
  forall p s, heap sample_world !! p = Some s -> inbox_ok s.
Proof.
  intros p s Hp. unfold sample_world in Hp. simpl in Hp.
  destruct (decide (p = 2%nat)) as [->|H2].
  { rewrite lookup_insert_eq in Hp. injection Hp as <-. constructor. }
  rewrite lookup_insert_ne in Hp by done.
  destruct (decide (p = 1%nat)) as [->|H1].
  { rewrite lookup_insert_eq in Hp. injection Hp as <-. constructor. }
  rewrite lookup_insert_ne in Hp by done.
  destruct (decide (p = 0%nat)) as [->|H0].
  { rewrite lookup_insert_eq in Hp. injection Hp as <-. constructor. }
  rewrite lookup_insert_ne in Hp by done. done.
Defined.

Lemma inbox_invariant_after_each_operation_witness :
  let ops :=
    [OpPay 0%nat (str "u1") (str "u2") 1%nat (mkCurrency 500) false true
              1600000000 [7];
            OpRejectPendingTransaction 1%nat (str "T5F5E1000-00000007")
              (Some (mkDbTransaction None));
            OpAddToHistory 2%nat sample_self_payment;
            OpRemoveFirstPendingTransactions 1%nat 3] in
  let w := sample_world in
  ((forall p s, heap w !! p = Some s -> inbox_ok s)) /\
  (Forall (fun w' => forall p s, heap w' !! p = Some s -> inbox_ok s)
    (trace ops w)).
Proof.
  intros ops w.
  assert (Hyp0 : (forall p s, heap w !! p = Some s -> inbox_ok s)).
  { subst w ops. exact sample_world_inbox. }
  exact (conj Hyp0 (inbox_invariant_after_each_operation ops w Hyp0)).
Defined.

Lemma Pay_ok_transaction_witness :
  let sourceServer := 0%nat in
  let source := str "u1" in
  let target := str "u2" in
  let targetServer := 1%nat in
  let sentAmount := mkCurrency 500 in
  let localCurrency := false in
  let revertable := true in
  let t := 1600000000 in
  let draws := [7] in
  let w := sample_world in
  let w' := fst (Pay 0%nat (str "u1") (str "u2") 1%nat (mkCurrency 500) false true 1600000000 [7] sample_world) in
  let tx := sample_payment in
  (Pay sourceServer source target targetServer sentAmount localCurrency
    revertable t draws w = (w', Ret (PayOk tx))) /\
  (Source tx = fst (PasteuriseUsername source) /\
  Target tx = fst (PasteuriseUsername target) /\
  (exists s tg, heap w !! sourceServer = Some s /\ heap w !! targetServer = Some tg /\
     SourceServer tx = Name s /\ TargetServer tx = Name tg) /\
  SentAmount tx = sentAmount /\ Revertable tx = revertable /\ Time tx = t /\
  (localCurrency = false -> Amount tx = sentAmount) /\
  0 < raw (SentAmount tx) <= 10000000000000 /\
  0 < raw (Amount tx) <= 10000000000000 /\
  0 < raw (ReceivedAmount tx) <= 10000000000000 /\
  printed w' = printed w ++ [tx]).
Proof.
  intros sourceServer source target targetServer sentAmount localCurrency revertable t draws w w' tx.
  assert (Hyp0 : Pay sourceServer source target targetServer sentAmount localCurrency
    revertable t draws w = (w', Ret (PayOk tx))).
  { subst tx w' w draws t revertable localCurrency sentAmount targetServer target source sourceServer. vm_compute. reflexivity. }
  exact (conj Hyp0 (Pay_ok_transaction sourceServer source target targetServer sentAmount localCurrency revertable t draws w w' tx Hyp0)).
Defined.

Lemma Pay_never_InternalError_witness :
  let sourceServer := 0%nat in
  let source := str "u1" in
  let target := str "u2" in
  let targetServer := 1%nat in
  let sentAmount := mkCurrency 500 in
  let localCurrency := false in
  let revertable := true in
  let t := 1600000000 in
  let draws := [7] in
  let w := sample_world in
  ((forall p s, heap w !! p = Some s -> 0 <= raw (balance s))) /\
  (snd (Pay sourceServer source target targetServer sentAmount localCurrency
         revertable t draws w) ≠ Ret (PayErr "ERR_INTERNALERROR")).
Proof.
  intros sourceServer source target targetServer sentAmount localCurrency revertable t draws w.
  assert (Hyp0 : (forall p s, heap w !! p = Some s -> 0 <= raw (balance s))).
  { subst w draws t revertable localCurrency sentAmount targetServer target source sourceServer. intros p s Hp. exact (proj1 (sample_world_ok p s Hp)). }
  exact (conj Hyp0 (Pay_never_InternalError sourceServer source target targetServer sentAmount localCurrency revertable t draws w Hyp0)).
Defined.

Lemma Pay_validation_errors_change_nothing_witness :
  let sourceServer := 0%nat in
  let source := str "u1" in
  let target := str "u2" in
  let targetServer := 1%nat in
  let sentAmount := mkCurrency 0 in
  let localCurrency := false in
  let revertable := true in
  let t := 1600000000 in
  let draws := [7] in
  let w := sample_world in
  let w' := sample_world in
  let code := "ERR_INVALIDAMOUNT"%string in
  (Pay sourceServer source target targetServer sentAmount localCurrency
    revertable t draws w = (w', Ret (PayErr code))) /\
  ((code = "ERR_SOURCEUSERNAMETOOLONG"%string \/ code = "ERR_USERNAMETOOLONG"%string \/
   code = "ERR_INVALIDAMOUNT"%string \/ code = "ERR_CANNOTAFFORD"%string)) /\
  (w' = w /\
  (code = "ERR_CANNOTAFFORD"%string ->
   exists s, heap w !! sourceServer = Some s /\
     (localCurrency = false -> raw (balance s) < raw sentAmount))).
Proof.
  intros sourceServer source target targetServer sentAmount localCurrency revertable t draws w w' code.
  assert (Hyp0 : Pay sourceServer source target targetServer sentAmount localCurrency
    revertable t draws w = (w', Ret (PayErr code))).
  { subst code w' w draws t revertable localCurrency sentAmount targetServer target source sourceServer. vm_compute. reflexivity. }
  assert (Hyp1 : (code = "ERR_SOURCEUSERNAMETOOLONG"%string \/ code = "ERR_USERNAMETOOLONG"%string \/
   code = "ERR_INVALIDAMOUNT"%string \/ code = "ERR_CANNOTAFFORD"%string)).
  { subst code w' w draws t revertable localCurrency sentAmount targetServer target source sourceServer. right. right. left. reflexivity. }
  exact (conj Hyp0 (conj Hyp1 (Pay_validation_errors_change_nothing sourceServer source target targetServer sentAmount localCurrency revertable t draws w w' code Hyp0 Hyp1))).
Defined.

Lemma Pay_fixed_rate_goes_through_witness :
  let sourceServer := 1%nat in
  let source := str "u1" in
  let target := str "u2" in
  let targetServer := 0%nat in
  let sentAmount := mkCurrency 500 in
  let revertable := true in
  let t := 1600000000 in
  let d := 7 in
  let draws := [] in
  let w := sample_world in
  let s := sample_server "b" 500000000 50000000 in
  let tg := sample_server "a" 1000 0 in
  (len (Trim_space source) <= 48) /\
  (len (Trim_space target) <= 48) /\
  (sourceServer ≠ targetServer) /\
  (heap w !! sourceServer = Some s) /\
  (heap w !! targetServer = Some tg) /\
  (IsZero (targetBalance tg) = true) /\
  (0 < raw sentAmount <= 10000000000000) /\
  (raw sentAmount <= raw (balance s)) /\
  (0 <= raw (balance tg)) /\
  (lastTime (idgen w) < t) /\
  (exists w' s' tg',
    Pay sourceServer source target targetServer sentAmount false revertable
      t (d :: draws) w
    = (w', Ret (PayOk
         (mkTransaction (str "T" ++ fmt_X t ++ str "-" ++ fmt_08X (Uint32 d))
            (fst (PasteuriseUsername source)) (Name s)
            (fst (PasteuriseUsername target)) (Name tg)
            sentAmount sentAmount sentAmount t revertable))) /\
    heap w' !! sourceServer = Some s' /\ heap w' !! targetServer = Some tg' /\
    raw (balance s') = raw (balance s) - raw sentAmount /\
    raw (balance tg') = raw (balance tg) + raw sentAmount).
Proof.
  intros sourceServer source target targetServer sentAmount revertable t d draws w s tg.
  assert (Hyp0 : len (Trim_space source) <= 48).
  { subst tg s w draws d t revertable sentAmount targetServer target source sourceServer. vm_compute. discriminate. }
  assert (Hyp1 : len (Trim_space target) <= 48).
  { subst tg s w draws d t revertable sentAmount targetServer target source sourceServer. vm_compute. discriminate. }
  assert (Hyp2 : sourceServer ≠ targetServer).
  { subst tg s w draws d t revertable sentAmount targetServer target source sourceServer. discriminate. }
  assert (Hyp3 : heap w !! sourceServer = Some s).
  { subst tg s w draws d t revertable sentAmount targetServer target source sourceServer. vm_compute. reflexivity. }
  assert (Hyp4 : heap w !! targetServer = Some tg).
  { subst tg s w draws d t revertable sentAmount targetServer target source sourceServer. vm_compute. reflexivity. }
  assert (Hyp5 : IsZero (targetBalance tg) = true).
  { subst tg s w draws d t revertable sentAmount targetServer target source sourceServer. reflexivity. }
  assert (Hyp6 : 0 < raw sentAmount <= 10000000000000).
  { subst tg s w draws d t revertable sentAmount targetServer target source sourceServer. simpl. lia. }
  assert (Hyp7 : raw sentAmount <= raw (balance s)).
  { subst tg s w draws d t revertable sentAmount targetServer target source sourceServer. simpl. lia. }
  assert (Hyp8 : 0 <= raw (balance tg)).
  { subst tg s w draws d t revertable sentAmount targetServer target source sourceServer. simpl. lia. }
  assert (Hyp9 : lastTime (idgen w) < t).
  { subst tg s w draws d t revertable sentAmount targetServer target source sourceServer. simpl. lia. }
  exact (conj Hyp0 (conj Hyp1 (conj Hyp2 (conj Hyp3 (conj Hyp4 (conj Hyp5 (conj Hyp6 (conj Hyp7 (conj Hyp8 (conj Hyp9 (Pay_fixed_rate_goes_through sourceServer source target targetServer sentAmount revertable t d draws w s tg Hyp0 Hyp1 Hyp2 Hyp3 Hyp4 Hyp5 Hyp6 Hyp7 Hyp8 Hyp9))))))))))).
Defined.

Lemma Lock_then_UnlockIDs_witness :
  let names := [str "a"; str "b"] in
  let w := sample_world in
  ((forall name, name ∈ names -> HomogeniseUsername name ∉ dblock (database w))) /\
  ((NoDup (HomogeniseUsername <$> names) ->
     bind (Lock names) UnlockIDs w = (w, Ret tt)) /\
  (¬ NoDup (HomogeniseUsername <$> names) ->
     exists w', bind (Lock names) UnlockIDs w
                = (w', Panic "invalid memory address or nil pointer dereference"))).
Proof.
  intros names w.
  assert (Hyp0 : (forall name, name ∈ names -> HomogeniseUsername name ∉ dblock (database w))).
  { subst w names. intros name _. apply not_elem_of_empty. }
  exact (conj Hyp0 (Lock_then_UnlockIDs names w Hyp0)).
Defined.

Lemma db_GetServers_found_witness :
  let names := [str "a"; str "b"] in
  let w := sample_world in
  ((forall name, name ∈ names -> HomogeniseUsername name ∉ dblock (database w))) /\
  ((forall name, name ∈ names ->
     exists e s, db (database w) !! HomogeniseUsername name = Some e /\
                 Decode e = Ret s)) /\
  (exists w' ptrs,
    db_GetServers names w = (w', Ret (ptrs, true, [])) /\
    Forall2 (fun name p =>
               exists e s, db (database w) !! HomogeniseUsername name = Some e /\
                           Decode e = Ret s /\ heap w' !! p = Some s)
            names ptrs /\
    Forall (fun p => heap w !! p = None) ptrs /\ NoDup ptrs /\
    (forall p s, heap w !! p = Some s -> heap w' !! p = Some s) /\
    db (database w') = db (database w) /\
    dblock (database w')
      = list_to_set (HomogeniseUsername <$> names) ∪ dblock (database w)).
Proof.
  intros names w.
  assert (Hyp0 : (forall name, name ∈ names -> HomogeniseUsername name ∉ dblock (database w))).
  { subst w names. intros name _. apply not_elem_of_empty. }
  assert (Hyp1 : (forall name, name ∈ names ->
     exists e s, db (database w) !! HomogeniseUsername name = Some e /\
                 Decode e = Ret s)).
  { subst w names. intros name Hin. apply elem_of_cons in Hin as [->|Hin].
    - exists (Encode (sample_server "A" 1000 0)),
        (mkServer (str "a") (str "A") (mkCurrency 1000) (mkCurrency 0)
           [] [] [] [] false).
      split; vm_compute; reflexivity.
    - apply list_elem_of_singleton in Hin as ->.
      exists (Encode (sample_server "b" 0 50000000)), (sample_server "b" 0 50000000).
      split; vm_compute; reflexivity. }
  exact (conj Hyp0 (conj Hyp1 (db_GetServers_found names w Hyp0 Hyp1))).
Defined.

Lemma db_GetServers_missing_witness :
  let pre := [str "a"] in
  let post := [str "b"] in
  let name0 := str "zz" in
  let w := sample_world in
  ((forall name, name ∈ pre ++ name0 :: post ->
     HomogeniseUsername name ∉ dblock (database w))) /\
  (NoDup (HomogeniseUsername <$> pre ++ name0 :: post)) /\
  ((forall name, name ∈ pre ->
     exists e s, db (database w) !! HomogeniseUsername name = Some e /\
                 Decode e = Ret s)) /\
  (db (database w) !! HomogeniseUsername name0 = None) /\
  (exists w',
    db_GetServers (pre ++ name0 :: post) w
      = (w', Ret ([], false, HomogeniseUsername name0)) /\
    database w' = database w /\
    (forall p s, heap w !! p = Some s -> heap w' !! p = Some s)).
Proof.
  intros pre post name0 w.
  assert (Hyp0 : (forall name, name ∈ pre ++ name0 :: post ->
     HomogeniseUsername name ∉ dblock (database w))).
  { subst w name0 post pre. intros name _. apply not_elem_of_empty. }
  assert (Hyp1 : NoDup (HomogeniseUsername <$> pre ++ name0 :: post)).
  { subst w name0 post pre. apply (bool_decide_unpack _). vm_compute. exact I. }
  assert (Hyp2 : (forall name, name ∈ pre ->
     exists e s, db (database w) !! HomogeniseUsername name = Some e /\
                 Decode e = Ret s)).
  { subst w name0 post pre. intros name Hin. apply list_elem_of_singleton in Hin as ->.
    exists (Encode (sample_server "A" 1000 0)),
      (mkServer (str "a") (str "A") (mkCurrency 1000) (mkCurrency 0)
         [] [] [] [] false).
    split; vm_compute; reflexivity. }
  assert (Hyp3 : db (database w) !! HomogeniseUsername name0 = None).
  { subst w name0 post pre. vm_compute. reflexivity. }
  exact (conj Hyp0 (conj Hyp1 (conj Hyp2 (conj Hyp3 (db_GetServers_missing pre post name0 w Hyp0 Hyp1 Hyp2 Hyp3))))).
Defined.

Lemma GetOneServer_then_cached_witness :
  let name := str "A" in
  let w := sample_world in
  let e := Encode (sample_server "A" 1000 0) in
  let s := mkServer (str "a") (str "A") (mkCurrency 1000) (mkCurrency 0) [] [] [] [] false in
  (HomogeniseUsername name ∉ dblock (database w)) /\
  (db (database w) !! HomogeniseUsername name = Some e) /\
  (Decode e = Ret s) /\
  (exists w' tr' p,
    GetOneServer BeginDbTransaction name w = (w', Ret (tr', (Some p, true))) /\
    heap w !! p = None /\ heap w' = <[p := s]> (heap w) /\
    db (database w') = db (database w) /\
    dblock (database w') = {[ HomogeniseUsername name ]} ∪ dblock (database w) /\
    (forall name', HomogeniseUsername name' = UID s ->
       GetCachedServer tr' name' = (Some p, true)) /\
    GetOneServer tr' (UID s) w' = (w', Ret (tr', (Some p, true)))).
Proof.
  intros name w e s.
  assert (Hyp0 : HomogeniseUsername name ∉ dblock (database w)).
  { subst s e w name. apply not_elem_of_empty. }
  assert (Hyp1 : db (database w) !! HomogeniseUsername name = Some e).
  { subst s e w name. vm_compute. reflexivity. }
  assert (Hyp2 : Decode e = Ret s).
  { subst s e w name. vm_compute. reflexivity. }
  exact (conj Hyp0 (conj Hyp1 (conj Hyp2 (GetOneServer_then_cached name w e s Hyp0 Hyp1 Hyp2)))).
Defined.

Lemma GetOneServer_missing_then_panics_witness :
  let name := str "zz" in
  let w := sample_world in
  (HomogeniseUsername name ∉ dblock (database w)) /\
  (db (database w) !! HomogeniseUsername name = None) /\
  (exists tr',
    GetOneServer BeginDbTransaction name w = (w, Ret (tr', (None, false))) /\
    forall names w1, names <> [] ->
      GetServers tr' names w1
      = (w1, Panic "Multiple calls to GetServers() on DatabaseTransaction.")).
Proof.
  intros name w.
  assert (Hyp0 : HomogeniseUsername name ∉ dblock (database w)).
  { subst w name. apply not_elem_of_empty. }
  assert (Hyp1 : db (database w) !! HomogeniseUsername name = None).
  { subst w name. vm_compute. reflexivity. }
  exact (conj Hyp0 (conj Hyp1 (GetOneServer_missing_then_panics name w Hyp0 Hyp1))).
Defined.

Lemma Finish_commits_modified_witness :
  let c : gmap (list rune) nat := {[ str "a" := 0%nat ]} in
  let kvs := [(str "a", 0%nat)] in
  let w := sample_open_world in
  (kvs ≡ₚ map_to_list c) /\
  ((forall id p, c !! id = Some p ->
     exists s, heap w !! p = Some s /\ UID s = id /\ id ∈ dblock (database w))) /\
  (exists w',
    Finish kvs.*2 (mkDbTransaction (Some c)) w = (w', Ret (mkDbTransaction None)) /\
    heap w' = heap w /\
    dblock (database w') = dblock (database w) ∖ dom c /\
    (forall id p s, c !! id = Some p -> heap w !! p = Some s ->
       db (database w') !! id
       = if IsModified s then Some (Encode s) else db (database w) !! id) /\
    (forall id, c !! id = None -> db (database w') !! id = db (database w) !! id) /\
    (forall order save w1,
       free order (mkDbTransaction None) save w1 = (w1, Ret (mkDbTransaction None)))).
Proof.
  intros c kvs w.
  assert (Hyp0 : kvs ≡ₚ map_to_list c).
  { subst w kvs c. by rewrite map_to_list_singleton. }
  assert (Hyp1 : (forall id p, c !! id = Some p ->
     exists s, heap w !! p = Some s /\ UID s = id /\ id ∈ dblock (database w))).
  { subst w kvs c. intros id p [<- <-]%lookup_singleton_Some.
    exists (SetModified (sample_server "a" 900 0)).
    split; [vm_compute; reflexivity|]. split; [reflexivity|].
    change (str "a" ∈ ({[ str "a" ]} : gset (list rune))).
    by apply elem_of_singleton. }
  exact (conj Hyp0 (conj Hyp1 (Finish_commits_modified c kvs w Hyp0 Hyp1))).
Defined.

Lemma Abort_discards_witness :
  let c : gmap (list rune) nat := {[ str "a" := 0%nat ]} in
  let kvs := [(str "a", 0%nat)] in
  let w := sample_open_world in
  (kvs ≡ₚ map_to_list c) /\
  ((forall id p, c !! id = Some p ->
     exists s, heap w !! p = Some s /\ UID s = id /\ id ∈ dblock (database w))) /\
  (Abort kvs.*2 (mkDbTransaction (Some c)) w
  = (set_dblock w (dblock (database w) ∖ dom c), Ret (mkDbTransaction None))).
Proof.
  intros c kvs w.
  assert (Hyp0 : kvs ≡ₚ map_to_list c).
  { subst w kvs c. by rewrite map_to_list_singleton. }
  assert (Hyp1 : (forall id p, c !! id = Some p ->
     exists s, heap w !! p = Some s /\ UID s = id /\ id ∈ dblock (database w))).
  { subst w kvs c. intros id p [<- <-]%lookup_singleton_Some.
    exists (SetModified (sample_server "a" 900 0)).
    split; [vm_compute; reflexivity|]. split; [reflexivity|].
    change (str "a" ∈ ({[ str "a" ]} : gset (list rune))).
    by apply elem_of_singleton. }
  exact (conj Hyp0 (conj Hyp1 (Abort_discards c kvs w Hyp0 Hyp1))).
Defined.

Lemma Finish_then_GetOneServer_witness :
  let c : gmap (list rune) nat := {[ str "a" := 0%nat ]} in
  let kvs := [(str "a", 0%nat)] in
  let w := sample_open_world in
  let id := str "a" in
  let p := 0%nat in
  let s := SetModified (sample_server "a" 900 0) in
  (kvs ≡ₚ map_to_list c) /\
  ((forall id p, c !! id = Some p ->
     exists s, heap w !! p = Some s /\ UID s = id /\ id ∈ dblock (database w))) /\
  (c !! id = Some p) /\
  (heap w !! p = Some s) /\
  (IsModified s = true) /\
  (UID s = HomogeniseUsername (Name s)) /\
  (exists w' w'' tr'' q,
    Finish kvs.*2 (mkDbTransaction (Some c)) w = (w', Ret (mkDbTransaction None)) /\
    GetOneServer BeginDbTransaction (Name s) w' = (w'', Ret (tr'', (Some q, true))) /\
    heap w'' !! q = Some (reloaded s) /\ heap w'' !! p = Some s /\ q <> p).
Proof.
  intros c kvs w id p s.
  assert (Hyp0 : kvs ≡ₚ map_to_list c).
  { subst s p id w kvs c. by rewrite map_to_list_singleton. }
  assert (Hyp1 : (forall id p, c !! id = Some p ->
     exists s, heap w !! p = Some s /\ UID s = id /\ id ∈ dblock (database w))).
  { subst s p id w kvs c. intros id p [<- <-]%lookup_singleton_Some.
    exists (SetModified (sample_server "a" 900 0)).
    split; [vm_compute; reflexivity|]. split; [reflexivity|].
    change (str "a" ∈ ({[ str "a" ]} : gset (list rune))).
    by apply elem_of_singleton. }
  assert (Hyp2 : c !! id = Some p).
  { subst s p id w kvs c. apply lookup_singleton_eq. }
  assert (Hyp3 : heap w !! p = Some s).
  { subst s p id w kvs c. vm_compute. reflexivity. }
  assert (Hyp4 : IsModified s = true).
  { subst s p id w kvs c. reflexivity. }
  assert (Hyp5 : UID s = HomogeniseUsername (Name s)).
  { subst s p id w kvs c. vm_compute. reflexivity. }
  exact (conj Hyp0 (conj Hyp1 (conj Hyp2 (conj Hyp3 (conj Hyp4 (conj Hyp5 (Finish_then_GetOneServer c kvs w id p s Hyp0 Hyp1 Hyp2 Hyp3 Hyp4 Hyp5))))))).
Defined.


(** The name: a space, New, two spaces, Town, a space. *)
Lemma tr_CreateServer_cases_witness :
  let name := str " New  Town " in
  let token := str "tok" in
  let n := fst (PasteuriseUsername name) in
  let id := HomogeniseUsername n in
  (id ∉ dblock (database sample_world)) /\
  (db (database sample_world) !! id = None) /\
  exists w' p,
    tr_CreateServer BeginDbTransaction name token sample_world
    = (w', Ret (mkDbTransaction
                  (Some (<[id := p]> (default ∅ (servers BeginDbTransaction)))),
                (Some p, true))) /\
    heap sample_world !! p = None /\
    heap w' = <[p := mkServer id n (CurrencyFromInt 0) (CurrencyFromInt 50000000)
                      [] [] token [] true]> (heap sample_world) /\
    db (database w') = db (database sample_world) /\
    dblock (database w') = {[ id ]} ∪ dblock (database sample_world).
Proof.
  intros name token n id.
  assert (Hyp0 : id ∉ dblock (database sample_world)).
  { apply not_elem_of_empty. }
  assert (Hyp1 : db (database sample_world) !! id = None).
  { subst id n name. vm_compute. reflexivity. }
  exact (conj Hyp0 (conj Hyp1
           (proj1 (tr_CreateServer_cases BeginDbTransaction name token sample_world
                     Hyp0) Hyp1))).
Defined.

Lemma db_DeleteServer_cases_witness :
  let id := HomogeniseUsername (str "A") in
  (id ∉ dblock (database sample_world)) /\
  db_DeleteServer (str "A") sample_world
  = (set_db sample_world (delete id (db (database sample_world))),
     Ret (bool_decide (is_Some (db (database sample_world) !! id)))).
Proof.
  intros id.
  assert (Hyp0 : id ∉ dblock (database sample_world)).
  { apply not_elem_of_empty. }
  exact (conj Hyp0 (proj2 (db_DeleteServer_cases (str "A") sample_world) Hyp0)).
Defined.

Lemma GetServers_distinct_witness :
  let names := [str "A"; str "b"] in
  let w := sample_world in
  (NoDup (HomogeniseUsername <$> names)) /\
  ((forall name, name ∈ names -> HomogeniseUsername name ∉ dblock (database w))) /\
  ((forall name, name ∈ names ->
     exists e s, db (database w) !! HomogeniseUsername name = Some e /\
                 Decode e = Ret s /\ UID s = HomogeniseUsername name)) /\
  (exists w' c ptrs,
    GetServers BeginDbTransaction names w
      = (w', Ret (mkDbTransaction (Some c), (ptrs, true, []))) /\
    Forall2 (fun name p =>
               exists e s, db (database w) !! HomogeniseUsername name = Some e /\
                           Decode e = Ret s /\ heap w' !! p = Some s /\
                           c !! HomogeniseUsername name = Some p)
            names ptrs /\
    Forall (fun p => heap w !! p = None) ptrs /\ NoDup ptrs /\
    (forall p s, heap w !! p = Some s -> heap w' !! p = Some s) /\
    db (database w') = db (database w) /\
    dblock (database w')
      = list_to_set (HomogeniseUsername <$> names) ∪ dblock (database w) /\
    dom c = list_to_set (HomogeniseUsername <$> names)).
Proof.
  intros names w.
  assert (Hyp0 : NoDup (HomogeniseUsername <$> names)).
  { subst w names. apply (bool_decide_unpack _). vm_compute. exact I. }
  assert (Hyp1 : (forall name, name ∈ names -> HomogeniseUsername name ∉ dblock (database w))).
  { subst w names. intros name _. apply not_elem_of_empty. }
  assert (Hyp2 : (forall name, name ∈ names ->
     exists e s, db (database w) !! HomogeniseUsername name = Some e /\
                 Decode e = Ret s /\ UID s = HomogeniseUsername name)).
  { subst w names. intros name Hin. apply elem_of_cons in Hin as [->|Hin].
    - exists (Encode (sample_server "A" 1000 0)), (mkServer (str "a") (str "A") (mkCurrency 1000) (mkCurrency 0) [] [] [] [] false).
      repeat split; vm_compute; reflexivity.
    - apply list_elem_of_singleton in Hin as ->.
      exists (Encode (sample_server "b" 0 50000000)), (sample_server "b" 0 50000000).
      repeat split; vm_compute; reflexivity. }
  exact (conj Hyp0 (conj Hyp1 (conj Hyp2 (GetServers_distinct names w Hyp0 Hyp1 Hyp2)))).
Defined.

Lemma GetServers_x_x_y_witness :
  let x := str "A" in
  let y := str "b" in
  let w := sample_world in
  let ex := Encode (sample_server "A" 1000 0) in
  let ey := Encode (sample_server "b" 0 50000000) in
  let sx := mkServer (str "a") (str "A") (mkCurrency 1000) (mkCurrency 0) [] [] [] [] false in
  let sy := sample_server "b" 0 50000000 in
  (HomogeniseUsername y = y) /\
  (HomogeniseUsername x ≠ y) /\
  (db (database w) !! HomogeniseUsername x = Some ex) /\
  (db (database w) !! y = Some ey) /\
  (HomogeniseUsername x ∉ dblock (database w)) /\
  (y ∉ dblock (database w)) /\
  (Decode ex = Ret sx) /\
  (UID sx = HomogeniseUsername x) /\
  (Decode ey = Ret sy) /\
  (UID sy = y) /\
  (exists w' tr' px py,
    GetServers BeginDbTransaction [x; x; y] w
      = (w', Ret (tr', ([px; py; py], true, []))) /\
    px ≠ py /\ heap w' !! px = Some sx /\ heap w' !! py = Some sy).
Proof.
  intros x y w ex ey sx sy.
  assert (Hyp0 : HomogeniseUsername y = y).
  { subst sy sx ey ex w y x. vm_compute. reflexivity. }
  assert (Hyp1 : HomogeniseUsername x ≠ y).
  { subst sy sx ey ex w y x. vm_compute. discriminate. }
  assert (Hyp2 : db (database w) !! HomogeniseUsername x = Some ex).
  { subst sy sx ey ex w y x. vm_compute. reflexivity. }
  assert (Hyp3 : db (database w) !! y = Some ey).
  { subst sy sx ey ex w y x. vm_compute. reflexivity. }
  assert (Hyp4 : HomogeniseUsername x ∉ dblock (database w)).
  { subst sy sx ey ex w y x. apply not_elem_of_empty. }
  assert (Hyp5 : y ∉ dblock (database w)).
  { subst sy sx ey ex w y x. apply not_elem_of_empty. }
  assert (Hyp6 : Decode ex = Ret sx).
  { subst sy sx ey ex w y x. vm_compute. reflexivity. }
  assert (Hyp7 : UID sx = HomogeniseUsername x).
  { subst sy sx ey ex w y x. vm_compute. reflexivity. }
  assert (Hyp8 : Decode ey = Ret sy).
  { subst sy sx ey ex w y x. vm_compute. reflexivity. }
  assert (Hyp9 : UID sy = y).
  { subst sy sx ey ex w y x. vm_compute. reflexivity. }
  exact (conj Hyp0 (conj Hyp1 (conj Hyp2 (conj Hyp3 (conj Hyp4 (conj Hyp5 (conj Hyp6 (conj Hyp7 (conj Hyp8 (conj Hyp9 (GetServers_x_x_y x y w ex ey sx sy Hyp0 Hyp1 Hyp2 Hyp3 Hyp4 Hyp5 Hyp6 Hyp7 Hyp8 Hyp9))))))))))).
Defined.

Lemma GenerateTransactionID_same_id_witness :
  let g := initIdGen in
  let g' := initIdGen in
  let g1 := fst (GenerateTransactionID initIdGen 1600000000 [7]) in
  let g1' := fst (GenerateTransactionID initIdGen 1600000000 [7]) in
  let t := 1600000000 in
  let t' := 1600000000 in
  let draws := [7] in
  let draws' := [7] in
  let id := str "T5F5E1000-00000007" in
  let tm := 1600000000 in
  let tm' := 1600000000 in
  (0 <= t) /\
  (0 <= t') /\
  (GenerateTransactionID g t draws = (g1, Ret (id, tm))) /\
  (GenerateTransactionID g' t' draws' = (g1', Ret (id, tm'))) /\
  (t = t' /\ tm = tm' /\
  exists n, n ∈ Uint32 <$> draws /\ n ∈ Uint32 <$> draws' /\
    map_has (previouslyGenerated g1) n = true /\
    map_has (previouslyGenerated g1') n = true).
Proof.
  intros g g' g1 g1' t t' draws draws' id tm tm'.
  assert (Hyp0 : 0 <= t).
  { subst tm' tm id draws' draws t' t g1' g1 g' g. lia. }
  assert (Hyp1 : 0 <= t').
  { subst tm' tm id draws' draws t' t g1' g1 g' g. lia. }
  assert (Hyp2 : GenerateTransactionID g t draws = (g1, Ret (id, tm))).
  { subst tm' tm id draws' draws t' t g1' g1 g' g. vm_compute. reflexivity. }
  assert (Hyp3 : GenerateTransactionID g' t' draws' = (g1', Ret (id, tm'))).
  { subst tm' tm id draws' draws t' t g1' g1 g' g. vm_compute. reflexivity. }
  exact (conj Hyp0 (conj Hyp1 (conj Hyp2 (conj Hyp3 (GenerateTransactionID_same_id g g' g1 g1' t t' draws draws' id tm tm' Hyp0 Hyp1 Hyp2 Hyp3))))).
Defined.

Lemma ParseCurrency_RawString_within_a_hundredth_witness :
  let c := mkCurrency 115 in
  (Z.abs (raw c) < 2 ^ 62) /\
  (exists y,
    ParseCurrency (RawString c) = Some (mkCurrency y, None) /\
    CurrencyFromString (RawString c) = Some (mkCurrency y) /\
    (0 <= raw c -> raw c - 1 <= y <= raw c) /\
    (raw c <= 0 -> raw c <= y <= raw c + 1)).
Proof.
  intros c.
  assert (Hyp0 : Z.abs (raw c) < 2 ^ 62).
  { subst c. vm_compute. reflexivity. }
  exact (conj Hyp0 (ParseCurrency_RawString_within_a_hundredth c Hyp0)).
Defined.

Lemma GetServers_two_spellings_witness :
  let x := str "a" in
  let x' := str "A" in
  let w := sample_world in
  let e := Encode (sample_server "A" 1000 0) in
  let s := mkServer (str "a") (str "A") (mkCurrency 1000) (mkCurrency 0) [] [] [] [] false in
  (HomogeniseUsername x' = HomogeniseUsername x) /\
  (HomogeniseUsername x' ≠ x') /\
  (db (database w) !! HomogeniseUsername x = Some e) /\
  (HomogeniseUsername x ∉ dblock (database w)) /\
  (Decode e = Ret s) /\
  (UID s = HomogeniseUsername x) /\
  (exists w' p,
    GetServers BeginDbTransaction [x; x'] w
      = (w', Ret (mkDbTransaction (Some {[ HomogeniseUsername x := p ]}),
                  ([], false, []))) /\
    heap w' !! p = Some s /\ heap w !! p = None /\
    dblock (database w') = {[ HomogeniseUsername x ]} ∪ dblock (database w)).
Proof.
  intros x x' w e s.
  assert (Hyp0 : HomogeniseUsername x' = HomogeniseUsername x).
  { subst s e w x' x. vm_compute. reflexivity. }
  assert (Hyp1 : HomogeniseUsername x' ≠ x').
  { subst s e w x' x. vm_compute. discriminate. }
  assert (Hyp2 : db (database w) !! HomogeniseUsername x = Some e).
  { subst s e w x' x. vm_compute. reflexivity. }
  assert (Hyp3 : HomogeniseUsername x ∉ dblock (database w)).
  { subst s e w x' x. apply not_elem_of_empty. }
  assert (Hyp4 : Decode e = Ret s).
  { subst s e w x' x. vm_compute. reflexivity. }
  assert (Hyp5 : UID s = HomogeniseUsername x).
  { subst s e w x' x. vm_compute. reflexivity. }
  exact (conj Hyp0 (conj Hyp1 (conj Hyp2 (conj Hyp3 (conj Hyp4 (conj Hyp5 (GetServers_two_spellings x x' w e s Hyp0 Hyp1 Hyp2 Hyp3 Hyp4 Hyp5))))))).
Defined.

Lemma ParseCurrency_whole_number_witness :
  let n := 5 in
  (0 <= n) /\
  (100 * n < 2 ^ 64) /\
  (ParseCurrency (Int_String n) = Some (mkCurrency (100 * n), None) /\
  CurrencyFromString (Int_String n) = Some (mkCurrency (100 * n))).
Proof.
  intros n.
  assert (Hyp0 : 0 <= n).
  { subst n. lia. }
  assert (Hyp1 : 100 * n < 2 ^ 64).
  { subst n. vm_compute. reflexivity. }
  exact (conj Hyp0 (conj Hyp1 (ParseCurrency_whole_number n Hyp0 Hyp1))).
Defined.

Lemma UnmarshalJSON_MarshalJSON_within_a_hundredth_witness :
  let c := mkCurrency 150 in
  (Z.abs (raw c) < 2 ^ 62) /\
  (exists y,
    UnmarshalJSON None (MarshalJSON c) = Some (Some (mkCurrency y), None) /\
    (0 <= raw c -> raw c - 1 <= y <= raw c) /\
    (raw c <= 0 -> raw c <= y <= raw c + 1)).
Proof.
  intros c.
  assert (Hyp0 : Z.abs (raw c) < 2 ^ 62).
  { subst c. vm_compute. reflexivity. }
  exact (conj Hyp0 (UnmarshalJSON_MarshalJSON_within_a_hundredth c Hyp0)).
Defined.
